(** * SX9324 capacitive SAR controller driver: model and verification

    A shallow embedding of the control core of [sx9324.c]: the power
    rails, the reset sequence, the software default table, the
    operational mode and the phase data readback.

    The driver talks to three external facilities of the kernel: the
    register map ([regmap_read], [regmap_write], [regmap_update_bits]),
    the NIRQ line ([gpiod_get_value]) and two regulators.  They are
    modelled by a [world] that the driver functions thread through a
    state monad; failures of an external call are scripted, so that a
    statement quantified over every [world] covers every pattern of
    failures. *)

From Stdlib Require Import ZArith Lia Bool.
From Stdlib Require String Ascii DecimalString.
From stdpp Require Import base option list.
Import String.StringSyntax Ascii.AsciiSyntax.
Delimit Scope string_scope with string.
Delimit Scope char_scope with char.

Local Open Scope Z_scope.

(** ** Register map of the chip (lines 34-135) *)

(** The kernel's [BIT(n)] and [GENMASK(h, l)]. *)
Definition BIT (n : Z) : Z := Z.shiftl 1 n.
Definition GENMASK (h l : Z) : Z := Z.shiftl (Z.ones (h - l + 1)) l.

Definition SX9324_IRQ_SRC : Z := 0x00.
Definition SX9324_RESETIRQ : Z := BIT 7.
Definition SX9324_CLOSEANYIRQ : Z := BIT 6.
Definition SX9324_FARANYIRQ : Z := BIT 5.
Definition SX9324_STAT_0 : Z := 0x01.
Definition SX9324_STAT_1 : Z := 0x02.
Definition SX9324_STAT_2 : Z := 0x03.
Definition SX9324_STAT_3 : Z := 0x04.
Definition SX9324_IRQ_MSK : Z := 0x05.
Definition SX9324_CLOSEANYIRQEN : Z := BIT 6.
Definition SX9324_FARANYIRQEN : Z := BIT 5.
Definition SX9324_IRQ_CFG_0 : Z := 0x06.
Definition SX9324_IRQ_CFG_1 : Z := 0x07.
Definition SX9324_IRQ_CFG_2 : Z := 0x08.

Definition SX9324_GNRL_CTRL_0 : Z := 0x10.
Definition SX9324_PAUSEIRQEN : Z := BIT 7.
Definition SX9324_DOZEPERIOD : Z := GENMASK 6 5.
Definition SX9324_SCANPERIOD : Z := GENMASK 4 0.
Definition SX9324_GNRL_CTRL_1 : Z := 0x11.
Definition SX9324_PHEN : Z := GENMASK 3 0.
Definition SX9324_I2C_ADDR : Z := 0x14.
Definition SX9324_CLK_SPRD : Z := 0x15.

Definition SX9324_AFE_CTRL_0 : Z := 0x20.
Definition SX9324_AFE_CTRL_3 : Z := 0x23.
Definition SX9324_AFE_CTRL_4 : Z := 0x24.
Definition SX9324_AFE_CTRL_6 : Z := 0x26.
Definition SX9324_AFE_PH_0 : Z := 0x28.
Definition SX9324_AFE_CTRL_9 : Z := 0x2d.

Definition SX9324_PROX_CTRL_0 : Z := 0x30.
Definition SX9324_PROX_CTRL_7 : Z := 0x37.

Definition SX9324_ADV_CTRL_0 : Z := 0x40.
Definition SX9324_ADV_CTRL_20 : Z := 0x54.

Definition SX9324_PHASE_SEL : Z := 0x60.
Definition SX9324_USE_MSB : Z := 0x61.
Definition SX9324_USE_LSB : Z := 0x62.
Definition SX9324_AVG_MSB : Z := 0x63.
Definition SX9324_AVG_LSB : Z := 0x64.
Definition SX9324_DIFF_MSB : Z := 0x65.
Definition SX9324_DIFF_LSB : Z := 0x66.
Definition SX9324_OFFSET_MSB : Z := 0x67.
Definition SX9324_OFFSET_LSB : Z := 0x68.
Definition SX9324_SAR_MSB : Z := 0x69.
Definition SX9324_SAR_LSB : Z := 0x6a.

Definition SX9324_RESET : Z := 0x9f.
Definition SX9324_WHO_AM_I : Z := 0xfa.
Definition SX9324_REV : Z := 0xfe.

(** Kernel error numbers returned (negated) by the driver. *)
Definition EIO : Z := 5.
Definition ENODEV : Z := 19.
Definition EINVAL : Z := 22.

(** [case lo ... hi:] of a C switch. *)
Definition in_range (lo hi reg : Z) : bool := (lo <=? reg) && (reg <=? hi).

(** [sx9324_writeable_reg], lines 436-458. *)
Definition sx9324_writeable_reg (reg : Z) : bool :=
  in_range SX9324_IRQ_MSK SX9324_IRQ_CFG_2 reg
  || (reg =? SX9324_GNRL_CTRL_0)
  || (reg =? SX9324_GNRL_CTRL_1)
  || (reg =? SX9324_I2C_ADDR)
  || (reg =? SX9324_CLK_SPRD)
  || (reg =? SX9324_AFE_CTRL_0)
  || (reg =? SX9324_AFE_CTRL_3)
  || (reg =? SX9324_AFE_CTRL_4)
  || in_range SX9324_AFE_CTRL_6 SX9324_AFE_CTRL_9 reg
  || in_range SX9324_PROX_CTRL_0 SX9324_PROX_CTRL_7 reg
  || in_range SX9324_ADV_CTRL_0 SX9324_ADV_CTRL_20 reg
  || (reg =? SX9324_PHASE_SEL)
  || (reg =? SX9324_OFFSET_MSB)
  || (reg =? SX9324_OFFSET_LSB)
  || (reg =? SX9324_RESET).

(** [sx9324_readable_reg], lines 460-481. *)
Definition sx9324_readable_reg (reg : Z) : bool :=
  in_range SX9324_IRQ_SRC SX9324_IRQ_CFG_2 reg
  || (reg =? SX9324_GNRL_CTRL_0)
  || (reg =? SX9324_GNRL_CTRL_1)
  || (reg =? SX9324_I2C_ADDR)
  || (reg =? SX9324_CLK_SPRD)
  || (reg =? SX9324_AFE_CTRL_0)
  || (reg =? SX9324_AFE_CTRL_3)
  || (reg =? SX9324_AFE_CTRL_4)
  || in_range SX9324_AFE_CTRL_6 SX9324_AFE_CTRL_9 reg
  || in_range SX9324_PROX_CTRL_0 SX9324_PROX_CTRL_7 reg
  || in_range SX9324_ADV_CTRL_0 SX9324_ADV_CTRL_20 reg
  || in_range SX9324_PHASE_SEL SX9324_SAR_LSB reg
  || (reg =? SX9324_WHO_AM_I)
  || (reg =? SX9324_REV).

(** ** The world outside the driver *)

Inductive rail : Type := Pullup | Vdd.

(** The [pr_err] messages of the modelled functions, with their
    arguments. *)
Inductive message : Type :=
  | MsgDefaultWriteFailed (reg err : Z)   (* line 263 *)
  | MsgSoftwareResetFailed (err : Z)      (* line 411 *)
  | MsgChipNotReady (err : Z)             (* line 420 *)
  | MsgResetFailed                        (* line 424 *)
  | MsgInitFailed.                        (* line 429 *)

(** What the driver does to the outside, in the order it does it. *)
Inductive event : Type :=
  | BusRead (reg err : Z)
  | BusWrite (reg val err : Z)
  | RegulatorEnable (r : rail) (err : Z)
  | RegulatorDisable (r : rail) (err : Z)
  | GpioGet (level : Z)
  | Udelay (usecs : Z)
  | MutexLock
  | MutexUnlock
  | PrErr (m : message).

(** [regs] is the register file of the chip, taken as plain storage: a
    register holds what was last written to it.  [faults] scripts the
    outcome of the coming fallible transactions (bus transfers and
    regulator calls), one error code each, [0] for success; an exhausted
    script means success.  [nirq_levels] scripts what the coming reads of
    the NIRQ line return; an exhausted script reads [1], the idle level.
    [trace] records the events, the most recent first. *)
Record world : Type := World {
  regs : Z -> Z;
  faults : list Z;
  nirq_levels : list Z;
  trace : list event
}.

(** State monad over the world. *)
Definition M (A : Type) : Type := world -> A * world.

Definition ret {A : Type} (a : A) : M A := fun w => (a, w).
Definition bind {A B : Type} (m : M A) (k : A -> M B) : M B :=
  fun w => let '(a, w') := m w in k a w'.

Notation "'let*' x ':=' m 'in' k" := (bind m (fun x => k))
  (at level 10, x pattern, m at level 100, k at level 200).
Notation "m ';;;' k" := (bind m (fun _ => k))
  (at level 100, k at level 200, right associativity).

Definition emit (e : event) : M unit := fun w =>
  (tt, World (regs w) (faults w) (nirq_levels w) (e :: trace w)).

(** The outcome of the next fallible transaction. *)
Definition next_fault : M Z := fun w =>
  (hd 0 (faults w), World (regs w) (tl (faults w)) (nirq_levels w) (trace w)).

(** The chip has 8-bit registers ([val_bits = 8], line 485). *)
Definition byte_of (v : Z) : Z := Z.land v (Z.ones 8).
Definition reg_value (w : world) (reg : Z) : Z := byte_of (regs w reg).

Definition store_reg (reg val : Z) : M unit := fun w =>
  (tt, World (fun r => if r =? reg then byte_of val else regs w r)
             (faults w) (nirq_levels w) (trace w)).

(** *** The register map API of the kernel

    [regmap_read] refuses a register that is not readable with [-EIO]
    before any transfer, else transfers and stores the byte through its
    out pointer on success only.  The model returns the error and the
    byte; after a failure the C variable keeps its (here always
    indeterminate) content, which no caller in the driver consumes: the
    model returns [0] for it. *)
Definition regmap_read (reg : Z) : M (Z * Z) :=
  if sx9324_readable_reg reg then
    let* err := next_fault in
    emit (BusRead reg err);;;
    if err =? 0 then (fun w => (0, reg_value w reg, w)) else ret (err, 0)
  else ret (- EIO, 0).

(** [regmap_write] refuses a register that is not writeable with [-EIO]
    before any transfer; a failed transfer leaves the register as it
    was. *)
Definition regmap_write (reg val : Z) : M Z :=
  if sx9324_writeable_reg reg then
    let* err := next_fault in
    emit (BusWrite reg (byte_of val) err);;;
    if err =? 0 then store_reg reg val;;; ret 0 else ret err
  else ret (- EIO).

(** [regmap_update_bits] without register cache: read, replace the bits
    of [mask] by those of [val], write back only if the byte changed.
    [orig & ~mask] is [Z.ldiff orig mask]. *)
Definition regmap_update_bits (reg mask val : Z) : M Z :=
  let* (error, orig) := regmap_read reg in
  if error =? 0 then
    let tmp := Z.lor (Z.ldiff orig mask) (Z.land val mask) in
    if tmp =? orig then ret 0 else regmap_write reg tmp
  else ret error.

(** [gpiod_get_value] on the NIRQ line. *)
Definition gpiod_get_value : M Z := fun w =>
  let level := hd 1 (nirq_levels w) in
  (level,
   World (regs w) (faults w) (tl (nirq_levels w)) (GpioGet level :: trace w)).

(** [regulator_enable] and [regulator_disable]. *)
Definition regulator_enable (r : rail) : M Z :=
  let* err := next_fault in emit (RegulatorEnable r err);;; ret err.
Definition regulator_disable (r : rail) : M Z :=
  let* err := next_fault in emit (RegulatorDisable r err);;; ret err.

Definition udelay (usecs : Z) : M unit := emit (Udelay usecs).
Definition pr_err (m : message) : M unit := emit (PrErr m).
Definition mutex_lock : M unit := emit MutexLock.
Definition mutex_unlock : M unit := emit MutexUnlock.

(** ** Driver data (lines 142-201) *)

(** [enum sx9324_phase]: the phases are the indices [0 .. 3]. *)
Definition PH0 : nat := 0.
Definition SX9324_PHASES : nat := 4.

(** [struct sx9324_phase_stat]: six one-bit fields. *)
Record sx9324_phase_stat : Type := PhaseStat {
  steady : Z;
  prox : Z;
  table : Z;
  body : Z;
  fail : Z;
  comp : Z
}.

Record sx9324_phase_data : Type := PhaseData {
  is_valid : bool;
  proxuseful : Z;
  proxavg : Z;
  proxdiff : Z;
  stat : sx9324_phase_stat
}.

(** The fields of [struct sx9324_data] that the driver itself writes; the
    handles it holds (regmap, gpio, regulators) stand for the [world]. *)
Record sx9324_data : Type := DrvData {
  pullup_enabled : bool;
  vdd_enabled : bool;
  phdata : list sx9324_phase_data
}.

(** [enum sx9324_reset_source]. *)
Inductive sx9324_reset_source : Type := POWER_UP_RESET | SOFTWARE_RESET.

(** [enum sx9324_operational_mode]; C passes it as an integer, and
    [sx9324_set_mode] has a [default:] case for the other values. *)
Definition SX9324_ACTIVE : Z := 0.
Definition SX9324_DOZE : Z := 1.
Definition SX9324_SLEEP : Z := 2.

(** [struct reg_default] and the table [sx9324_reg_defaults]. *)
Record reg_default : Type := RegDefault { reg : Z; def : Z }.

Definition sx9324_reg_defaults : list reg_default :=
  [ RegDefault SX9324_IRQ_MSK (Z.lor SX9324_CLOSEANYIRQEN SX9324_FARANYIRQEN);
    RegDefault SX9324_GNRL_CTRL_0 0x45;
    RegDefault SX9324_AFE_PH_0 0x29;
    RegDefault SX9324_GNRL_CTRL_1 0x21 ].

(** ** Power rails (lines 203-235) *)

Definition sx9324_enable_pullup (enable : bool) (d : sx9324_data)
  : M (Z * sx9324_data) :=
  if negb (Bool.eqb (pullup_enabled d) enable) then
    let* error :=
      (if enable then regulator_enable Pullup else regulator_disable Pullup) in
    if error =? 0
    then ret (error, DrvData enable (vdd_enabled d) (phdata d))
    else ret (error, d)
  else ret (0, d).

Definition sx9324_enable_vdd (enable : bool) (d : sx9324_data)
  : M (Z * sx9324_data) :=
  if negb (Bool.eqb (vdd_enabled d) enable) then
    let* error :=
      (if enable then regulator_enable Vdd else regulator_disable Vdd) in
    if error =? 0
    then ret (error, DrvData (pullup_enabled d) enable (phdata d))
    else ret (error, d)
  else ret (0, d).

(** ** Software defaults (lines 237-269) *)

(** [sx9324_get_software_default]: the first entry of the table for
    [reg], if any ([Some] stands for storing through [val] and returning
    true). *)
Fixpoint get_software_default_from (tbl : list reg_default) (r : Z)
  : option Z :=
  match tbl with
  | [] => None
  | e :: tbl' => if reg e =? r then Some (def e)
                 else get_software_default_from tbl' r
  end.

Definition sx9324_get_software_default (r : Z) : option Z :=
  get_software_default_from sx9324_reg_defaults r.

(** The loop of [sx9324_reset_software_default] over the entries that
    are left; [error] is the variable of that name. *)
Fixpoint reset_software_default_from (tbl : list reg_default) (error : Z)
  : M Z :=
  match tbl with
  | [] => ret error
  | e :: tbl' =>
      let* error := regmap_write (reg e) (def e) in
      if error =? 0 then reset_software_default_from tbl' error
      else pr_err (MsgDefaultWriteFailed (reg e) error);;; ret error
  end.

Definition sx9324_reset_software_default : M Z :=
  reset_software_default_from sx9324_reg_defaults 0.

(** ** Phase data readback (lines 271-333) *)

(** The C cast [(short)] of a value, read back as an [int]: the kernel's
    compilers reduce the value modulo [2 ^ 16] into [-32768 .. 32767]. *)
Definition to_short (x : Z) : Z := (x + 32768) mod 65536 - 32768.

(** [(short)((msb << 8) | lsb)], lines 305, 311 and 317. *)
Definition prox_value (msb lsb : Z) : Z :=
  to_short (Z.lor (Z.shiftl msb 8) lsb).

(** The six assignments of lines 319-324. *)
Definition decode_stat (stat0 stat1 stat2 : Z) (i : nat) : sx9324_phase_stat :=
  {| steady := Z.land (Z.shiftr stat0 (Z.of_nat i + 4)) 0x01;
     prox := Z.land (Z.shiftr stat0 (Z.of_nat i)) 0x01;
     table := Z.land (Z.shiftr stat1 (Z.of_nat i + 4)) 0x01;
     body := Z.land (Z.shiftr stat1 (Z.of_nat i)) 0x01;
     fail := Z.land (Z.shiftr stat2 (Z.of_nat i + 4)) 0x01;
     comp := Z.land (Z.shiftr stat2 (Z.of_nat i)) 0x01 |}.

(** Field assignments of [struct sx9324_phase_data]. *)
Definition set_is_valid (b : bool) (e : sx9324_phase_data) :=
  PhaseData b (proxuseful e) (proxavg e) (proxdiff e) (stat e).
Definition set_proxuseful (v : Z) (e : sx9324_phase_data) :=
  PhaseData (is_valid e) v (proxavg e) (proxdiff e) (stat e).
Definition set_proxavg (v : Z) (e : sx9324_phase_data) :=
  PhaseData (is_valid e) (proxuseful e) v (proxdiff e) (stat e).
Definition set_proxdiff (v : Z) (e : sx9324_phase_data) :=
  PhaseData (is_valid e) (proxuseful e) (proxavg e) v (stat e).
Definition set_stat (s : sx9324_phase_stat) (e : sx9324_phase_data) :=
  PhaseData (is_valid e) (proxuseful e) (proxavg e) (proxdiff e) s.

(** An assignment to [drv_data->phdata[i]]. *)
Definition update_phase (i : nat)
    (f : sx9324_phase_data -> sx9324_phase_data) (d : sx9324_data)
  : sx9324_data :=
  DrvData (pullup_enabled d) (vdd_enabled d) (alter f i (phdata d)).

(** Lines 281-282. *)
Definition invalidate_phases (d : sx9324_data) : sx9324_data :=
  fold_left (fun d i => update_phase i (set_is_valid false) d)
            (seq PH0 SX9324_PHASES) d.

(** One turn of the loop of line 293, entered with [error = 0]: lines
    295-327.  A [break] is a return with a nonzero [error], on which the
    loop below stops as the condition [!error] of the source does. *)
Definition read_phase (val stat0 stat1 stat2 : Z) (i : nat) (d : sx9324_data)
  : M (Z * sx9324_data) :=
  if Z.land (Z.shiftr val (Z.of_nat i)) 0x01 =? 0 then ret (0, d) else
  let* error := regmap_write SX9324_PHASE_SEL (Z.of_nat i) in
  if negb (error =? 0) then ret (error, d) else
  let* (e1, msb) := regmap_read SX9324_USE_MSB in
  let* (e2, lsb) := regmap_read SX9324_USE_LSB in
  let error := Z.lor e1 e2 in
  if negb (error =? 0) then ret (error, d) else
  let d := update_phase i (set_proxuseful (prox_value msb lsb)) d in
  let* (e1, msb) := regmap_read SX9324_AVG_MSB in
  let* (e2, lsb) := regmap_read SX9324_AVG_LSB in
  let error := Z.lor e1 e2 in
  if negb (error =? 0) then ret (error, d) else
  let d := update_phase i (set_proxavg (prox_value msb lsb)) d in
  let* (e1, msb) := regmap_read SX9324_DIFF_MSB in
  let* (e2, lsb) := regmap_read SX9324_DIFF_LSB in
  let error := Z.lor e1 e2 in
  if negb (error =? 0) then ret (error, d) else
  let d := update_phase i (set_proxdiff (prox_value msb lsb)) d in
  let d := update_phase i (set_stat (decode_stat stat0 stat1 stat2 i)) d in
  let d := update_phase i (set_is_valid true) d in
  ret (error, d).

(** The loop of line 293 over the phases that are left. *)
Fixpoint read_phases (phases : list nat) (val stat0 stat1 stat2 : Z)
    (error : Z) (d : sx9324_data) : M (Z * sx9324_data) :=
  match phases with
  | [] => ret (error, d)
  | i :: phases' =>
      if error =? 0 then
        let* (error, d) := read_phase val stat0 stat1 stat2 i d in
        read_phases phases' val stat0 stat1 stat2 error d
      else ret (error, d)
  end.

Definition sx9324_read_phdata (d : sx9324_data) : M (Z * sx9324_data) :=
  let d := invalidate_phases d in
  let* (error, val) := regmap_read SX9324_GNRL_CTRL_1 in
  if negb (error =? 0) then ret (error, d) else
  mutex_lock;;;
  let* (error, d) :=
    (if negb (Z.land val SX9324_PHEN =? 0) then
       let* (e0, stat0) := regmap_read SX9324_STAT_0 in
       let* (e1, stat1) := regmap_read SX9324_STAT_1 in
       let* (e2, stat2) := regmap_read SX9324_STAT_2 in
       read_phases (seq PH0 SX9324_PHASES) val stat0 stat1 stat2
                   (Z.lor (Z.lor e0 e1) e2) d
     else ret (error, d)) in
  mutex_unlock;;;
  ret (error, d).

(** ** Operational mode (lines 335-396) *)

(** [mode] is the content of the caller's variable, which the function
    overwrites on success only; the result is the error and the content
    of that variable afterwards. *)
Definition sx9324_get_mode (mode : Z) : M (Z * Z) :=
  let* (error, val) := regmap_read SX9324_GNRL_CTRL_1 in
  if error =? 0 then
    if negb (Z.land val SX9324_PHEN =? 0) then
      let* (error, val) := regmap_read SX9324_GNRL_CTRL_0 in
      if error =? 0 then
        if negb (Z.land val SX9324_DOZEPERIOD =? 0)
        then ret (error, SX9324_DOZE)
        else ret (error, SX9324_ACTIVE)
      else ret (error, mode)
    else ret (error, SX9324_SLEEP)
  else ret (error, mode).

Definition sx9324_set_mode (mode : Z) : M Z :=
  if (mode =? SX9324_ACTIVE) || (mode =? SX9324_DOZE) then
    let val := default 0x0f (sx9324_get_software_default SX9324_GNRL_CTRL_1) in
    let* error := regmap_update_bits SX9324_GNRL_CTRL_1 SX9324_PHEN val in
    if mode =? SX9324_ACTIVE then
      let* error' :=
        regmap_update_bits SX9324_GNRL_CTRL_0 SX9324_DOZEPERIOD 0 in
      ret (Z.lor error error')
    else
      let val :=
        default 0x40 (sx9324_get_software_default SX9324_GNRL_CTRL_0) in
      let* error' :=
        regmap_update_bits SX9324_GNRL_CTRL_0 SX9324_DOZEPERIOD val in
      ret (Z.lor error error')
  else if mode =? SX9324_SLEEP then
    regmap_update_bits SX9324_GNRL_CTRL_1 SX9324_PHEN 0
  else ret (- EINVAL).

(** ** Reset (lines 398-434) *)

(** Lines 416-433: the check of the NIRQ line around the read of the
    interrupt source register. *)
Definition reset_check_nirq : M Z :=
  let* level := gpiod_get_value in
  if 0 =? level then
    let* (error, val) := regmap_read SX9324_IRQ_SRC in
    if negb (error =? 0) then
      pr_err (MsgChipNotReady error);;; ret error
    else
      let* level := gpiod_get_value in
      if negb (1 =? level) then pr_err MsgResetFailed;;; ret (- ENODEV)
      else ret 0
  else pr_err MsgInitFailed;;; ret (- ENODEV).

Definition sx9324_reset (src : sx9324_reset_source) : M Z :=
  match src with
  | POWER_UP_RESET => udelay 1000;;; reset_check_nirq
  | SOFTWARE_RESET =>
      let* error := regmap_write SX9324_RESET 0xde in
      if negb (error =? 0) then
        pr_err (MsgSoftwareResetFailed error);;; ret error
      else reset_check_nirq
  end.

(** * Vocabulary of the statements *)

(** The world after a bus read of [r], and after a bus write. *)
Definition after_read (r : Z) (w : world) : world :=
  World (regs w) (tl (faults w)) (nirq_levels w)
        (BusRead r (hd 0 (faults w)) :: trace w).

Definition after_write (r val : Z) (w : world) : world :=
  World (if hd 0 (faults w) =? 0
         then fun r' => if r' =? r then byte_of val else regs w r'
         else regs w)
        (tl (faults w)) (nirq_levels w)
        (BusWrite r (byte_of val) (hd 0 (faults w)) :: trace w).


(** The value of a 16-bit pattern [u] read as a two's-complement
    number: the bit 15 carries the weight [- 2 ^ 15]. *)
Definition twos_complement16 (u : Z) : Z :=
  if Z.testbit u 15 then u - 2 ^ 16 else u.

(** The two rail functions seen as one, indexed by the rail, and the
    shadow flag of a rail. *)
Definition enable_rail (r : rail)
  : bool -> sx9324_data -> M (Z * sx9324_data) :=
  match r with
  | Pullup => sx9324_enable_pullup
  | Vdd => sx9324_enable_vdd
  end.

Definition rail_enabled (r : rail) (d : sx9324_data) : bool :=
  match r with
  | Pullup => pullup_enabled d
  | Vdd => vdd_enabled d
  end.

Definition set_rail_enabled (r : rail) (b : bool) (d : sx9324_data)
  : sx9324_data :=
  match r with
  | Pullup => DrvData b (vdd_enabled d) (phdata d)
  | Vdd => DrvData (pullup_enabled d) b (phdata d)
  end.

(** The regulator calls in a trace, and the successful ones. *)
Fixpoint rail_transactions (t : list event) : nat :=
  match t with
  | [] => 0
  | (RegulatorEnable _ _ | RegulatorDisable _ _) :: t' =>
      S (rail_transactions t')
  | _ :: t' => rail_transactions t'
  end.

Fixpoint rail_successes (t : list event) : nat :=
  match t with
  | [] => 0
  | (RegulatorEnable _ err | RegulatorDisable _ err) :: t' =>
      if err =? 0 then S (rail_successes t') else rail_successes t'
  | _ :: t' => rail_successes t'
  end.

(** The register file after the writes of the entries [tbl], in order,
    and the bus events of these writes when all succeed (the most recent
    first, as in a trace). *)
Definition write_default (e : reg_default) (f : Z -> Z) : Z -> Z :=
  fun r => if r =? reg e then byte_of (def e) else f r.

Definition written_defaults (tbl : list reg_default) (f : Z -> Z) : Z -> Z :=
  fold_left (fun f e => write_default e f) tbl f.

Definition default_write_events (tbl : list reg_default) : list event :=
  rev (map (fun e => BusWrite (reg e) (byte_of (def e)) 0) tbl).

(** The world after the first [k] entries of [tbl] were written with
    success. *)
Definition defaults_world (k : nat) (tbl : list reg_default) (w : world)
  : world :=
  World (written_defaults (take k tbl) (regs w)) (drop k (faults w))
        (nirq_levels w) (default_write_events (take k tbl) ++ trace w).

(** The bus transfers in a trace. *)
Fixpoint bus_transactions (t : list event) : nat :=
  match t with
  | [] => 0
  | (BusRead _ _ | BusWrite _ _ _) :: t' => S (bus_transactions t')
  | _ :: t' => bus_transactions t'
  end.

(** What a reset meets, read off the scripts of the world: the outcome
    of the write of the reset command (a power-up reset has none), the
    outcome of the read of the interrupt source register, and the levels
    of the NIRQ line at its first and at its second reading. *)
Definition command_fault (src : sx9324_reset_source) (w : world) : Z :=
  match src with
  | POWER_UP_RESET => 0
  | SOFTWARE_RESET => hd 0 (faults w)
  end.

Definition status_read_fault (src : sx9324_reset_source) (w : world) : Z :=
  match src with
  | POWER_UP_RESET => hd 0 (faults w)
  | SOFTWARE_RESET => hd 0 (tl (faults w))
  end.

Definition level_before (w : world) : Z := hd 1 (nirq_levels w).
Definition level_after (w : world) : Z := hd 1 (tl (nirq_levels w)).

Definition command_transfers (src : sx9324_reset_source) : nat :=
  match src with
  | POWER_UP_RESET => 0
  | SOFTWARE_RESET => 1
  end.

(** The claim on the readiness check as the specification words it, for
    a reading [asserted] of the levels of the line: a line asserted
    before the status read gives [-ENODEV] without a register access
    after the reset command; a line still asserted after the status read
    gives [-ENODEV]; the reset succeeds only when the line is not
    asserted before the read and not asserted after it. *)
Definition reset_readiness_as_stated (asserted : Z -> bool) : Prop :=
  forall (src : sx9324_reset_source) (w : world),
    command_fault src w = 0 ->
    let '(error, w') := sx9324_reset src w in
    (asserted (level_before w) = true ->
       error = - ENODEV
       /\ bus_transactions (trace w') =
          (bus_transactions (trace w) + command_transfers src)%nat)
    /\ (asserted (level_before w) = false ->
        status_read_fault src w = 0 ->
        asserted (level_after w) = true -> error = - ENODEV)
    /\ (error = 0 ->
        asserted (level_before w) = false /\ asserted (level_after w) = false).

(** The entry that a completed readback of phase [i] leaves, from the
    register file [w] and the three status values read before. *)
Definition fresh_entry (w : world) (stat0 stat1 stat2 : Z) (i : nat)
  : sx9324_phase_data :=
  {| is_valid := true;
     proxuseful := prox_value (reg_value w SX9324_USE_MSB)
                              (reg_value w SX9324_USE_LSB);
     proxavg := prox_value (reg_value w SX9324_AVG_MSB)
                           (reg_value w SX9324_AVG_LSB);
     proxdiff := prox_value (reg_value w SX9324_DIFF_MSB)
                            (reg_value w SX9324_DIFF_LSB);
     stat := decode_stat stat0 stat1 stat2 i |}.

(** An entry whose readback was given up on a failed access: the
    validity flag, the difference and the flags are those of [x]. *)
Definition given_up (x x' : sx9324_phase_data) : Prop :=
  is_valid x' = is_valid x /\ proxdiff x' = proxdiff x /\ stat x' = stat x.

(** The measurement fields of [x'] are those of [x]. *)
Definition measurements_untouched (x x' : sx9324_phase_data) : Prop :=
  proxuseful x' = proxuseful x /\ proxavg x' = proxavg x
  /\ proxdiff x' = proxdiff x.

(** The read of the enable register or, with a phase enabled, one of the
    three status reads fails. *)
Definition early_failure (w : world) : Prop :=
  hd 0 (faults w) <> 0
  \/ (Z.land (reg_value w SX9324_GNRL_CTRL_1) SX9324_PHEN <> 0
      /\ (nth 1 (faults w) 0 <> 0 \/ nth 2 (faults w) 0 <> 0
          \/ nth 3 (faults w) 0 <> 0)).

(** The 16-bit pattern [(msb << 8) | lsb] of the register pair [msb],
    [lsb] of the register file [w], read as a two's-complement number. *)
Definition pair_value (w : world) (msb lsb : Z) : Z :=
  twos_complement16
    (Z.lor (Z.shiftl (reg_value w msb) 8) (reg_value w lsb)).

(** The three measurement fields of [x] are the signed values of their
    own register pairs in [w]. *)
Definition measured (w : world) (x : sx9324_phase_data) : Prop :=
  proxuseful x = pair_value w SX9324_USE_MSB SX9324_USE_LSB
  /\ proxavg x = pair_value w SX9324_AVG_MSB SX9324_AVG_LSB
  /\ proxdiff x = pair_value w SX9324_DIFF_MSB SX9324_DIFF_LSB.

(** What a readback from the register file [w] can make of an entry [x]:
    each measurement field is kept or replaced by the signed value of its
    own register pair, and validity is gained only with all three
    replaced. *)
Definition stored_from (w : world) (x x' : sx9324_phase_data) : Prop :=
  (proxuseful x' = proxuseful x
   \/ proxuseful x' = pair_value w SX9324_USE_MSB SX9324_USE_LSB)
  /\ (proxavg x' = proxavg x
      \/ proxavg x' = pair_value w SX9324_AVG_MSB SX9324_AVG_LSB)
  /\ (proxdiff x' = proxdiff x
      \/ proxdiff x' = pair_value w SX9324_DIFF_MSB SX9324_DIFF_LSB)
  /\ (is_valid x' = true -> is_valid x = true \/ measured w x').

(** A bus read, as opposed to any other event. *)
Definition is_bus_read (e : event) : bool :=
  match e with
  | BusRead _ _ => true
  | _ => false
  end.

(** A bus transfer, as opposed to any other event. *)
Definition is_bus_event (e : event) : bool :=
  match e with
  | BusRead _ _ | BusWrite _ _ _ => true
  | _ => false
  end.



(** * The attribute files of the driver (lines 609-680)

    The text a [show] function leaves in its buffer is a [string]; the
    value it returns is the number of characters written. *)

Section Attribute_text.
Local Open Scope string_scope.

Definition newline : String.string := String.String "010" String.EmptyString.

(** [sx9324_mode_show], lines 643-665.  [mode] is the indeterminate
    content of the local variable of that name. *)
Definition sx9324_mode_show (mode : Z) : M (Z * String.string) :=
  let* (error, mode) := sx9324_get_mode mode in
  if error =? 0 then
    let buf :=
      String.String (if mode =? SX9324_ACTIVE then "v" else " ")%char
                    (String.append " active" newline) in
    let buf :=
      String.append buf
        (String.String (if mode =? SX9324_DOZE then "v" else " ")%char
                       (String.append " doze" newline)) in
    let buf :=
      String.append buf
        (String.String (if mode =? SX9324_SLEEP then "v" else " ")%char
                       (String.append " sleep" newline)) in
    ret (Z.of_nat (String.length buf), buf)
  else ret (0, "").

(** [0 == strncmp(buf, lit, n)] for a literal [lit] of [n] characters:
    [buf] starts with [lit]. *)
Definition strncmp_is_0 (buf lit : String.string) : bool :=
  String.prefix lit buf.

(** [sx9324_mode_store], lines 667-680.  [None] is a null [buf]. *)
Definition sx9324_mode_store (buf : option String.string) (count : Z) : M Z :=
  (match buf with
   | Some buf =>
       if negb (count =? 0) then
         if strncmp_is_0 buf "active" then
           sx9324_set_mode SX9324_ACTIVE;;; ret tt
         else if strncmp_is_0 buf "doze" then
           sx9324_set_mode SX9324_DOZE;;; ret tt
         else if strncmp_is_0 buf "sleep" then
           sx9324_set_mode SX9324_SLEEP;;; ret tt
         else ret tt
       else ret tt
   | None => ret tt
   end);;;
  ret count.

(** [sprintf] of ["%d"]. *)
Definition decimal (z : Z) : String.string :=
  DecimalString.NilZero.string_of_int (Z.to_int z).

Definition phdata_header : String.string :=
  String.concat newline
    [ "PH Useful Avg Diff Steady Prox Table Body Fail Comp";
      "===================================================";
      "" ].

(** The line of line 633 for the entry [x] of phase [i]. *)
Definition phdata_line (i : nat) (x : sx9324_phase_data) : String.string :=
  String.append
    (String.concat " "
       [ decimal (Z.of_nat i); decimal (proxuseful x); decimal (proxavg x);
         decimal (proxdiff x); decimal (steady (stat x));
         decimal (prox (stat x)); decimal (table (stat x));
         decimal (body (stat x)); decimal (fail (stat x));
         decimal (comp (stat x)) ])
    newline.

(** The loop of lines 630-638 over the phases that are left. *)
Fixpoint phdata_lines (phases : list nat) (d : sx9324_data)
    (buf : String.string) : String.string :=
  match phases with
  | [] => buf
  | i :: phases' =>
      match phdata d !! i with
      | Some x =>
          if is_valid x
          then phdata_lines phases' d (String.append buf (phdata_line i x))
          else phdata_lines phases' d buf
      | None => phdata_lines phases' d buf
      end
  end.

(** [sx9324_phdata_show], lines 616-641. *)
Definition sx9324_phdata_show (d : sx9324_data)
  : M (Z * String.string * sx9324_data) :=
  let buf := phdata_header in
  let* (error, d) := sx9324_read_phdata d in
  let buf :=
    if error =? 0 then phdata_lines (seq PH0 SX9324_PHASES) d buf else buf in
  ret (Z.of_nat (String.length buf), buf, d).

(** [sx9324_reset_show], lines 609-614. *)
Definition sx9324_reset_show : M Z :=
  sx9324_reset SOFTWARE_RESET;;; ret 0.

End Attribute_text.

Section Attribute_text_vocabulary.
Local Open Scope string_scope.

(** The three lines of the mode attribute, each marked or not. *)
Definition mode_line (marked : bool) (name : String.string) : String.string :=
  String.String (if marked then "v" else " ")%char
                (String.append name newline).

Definition mode_text (active doze sleep : bool) : String.string :=
  String.append (mode_line active " active")
    (String.append (mode_line doze " doze") (mode_line sleep " sleep")).

(** The lines of the phase data attribute for the phases [phases] that
    are enabled in [val], with the entries a completed readback
    leaves. *)
Definition enabled_lines (w : world) (val : Z) (phases : list nat)
  : String.string :=
  String.concat ""
    (map (fun i =>
            if Z.testbit val (Z.of_nat i)
            then phdata_line i
                   (fresh_entry w (reg_value w SX9324_STAT_0)
                      (reg_value w SX9324_STAT_1)
                      (reg_value w SX9324_STAT_2) i)
            else ""%string)
         phases).

End Attribute_text_vocabulary.

(** * Regulator references *)

Definition rail_eqb (r r' : rail) : bool :=
  match r, r' with
  | Pullup, Pullup | Vdd, Vdd => true
  | _, _ => false
  end.

(** The references the driver holds on the regulator of [r] according
    to a trace: the successful enables less the successful disables. *)
Fixpoint rail_holds (r : rail) (t : list event) : Z :=
  match t with
  | [] => 0
  | RegulatorEnable r' err :: t' =>
      (if rail_eqb r r' && (err =? 0) then 1 else 0) + rail_holds r t'
  | RegulatorDisable r' err :: t' =>
      (if rail_eqb r r' && (err =? 0) then -1 else 0) + rail_holds r t'
  | _ :: t' => rail_holds r t'
  end.

(** The shadow flags tell what the driver holds. *)
Definition balanced (d : sx9324_data) (w : world) : Prop :=
  forall r, rail_holds r (trace w) = Z.b2z (rail_enabled r d).

(** A sequence of calls of the rail functions. *)
Fixpoint enable_rails (calls : list (rail * bool)) (d : sx9324_data)
    (w : world) : sx9324_data * world :=
  match calls with
  | [] => (d, w)
  | (r, on) :: calls' =>
      let '(_, d, w) := enable_rail r on d w in enable_rails calls' d w
  end.

(** * Attribute files and removal (lines 682-718, 859-868)

    The attribute files of the device are a state of their own:
    [files] tells which exist, [create_faults] scripts the outcome of
    the coming [device_create_file] calls, and [sysfs_trace] records the
    calls, the most recent first. *)

Inductive attribute : Type :=
  | ATTR_registers | ATTR_reset | ATTR_phdata | ATTR_mode.

(** [sx9324_attrs], lines 682-689. *)
Definition sx9324_attrs : list attribute :=
  [ATTR_registers; ATTR_reset; ATTR_phdata; ATTR_mode].

Definition attribute_eqb (a b : attribute) : bool :=
  match a, b with
  | ATTR_registers, ATTR_registers | ATTR_reset, ATTR_reset
  | ATTR_phdata, ATTR_phdata | ATTR_mode, ATTR_mode => true
  | _, _ => false
  end.

Inductive sysfs_event : Type :=
  | CreateFile (a : attribute) (err : Z)
  | RemoveFile (a : attribute)
  | DestroyWorkqueue.

Record sysfs : Type := Sysfs {
  files : attribute -> bool;
  create_faults : list Z;
  sysfs_trace : list sysfs_event
}.

Definition device_create_file (a : attribute) (s : sysfs) : Z * sysfs :=
  let err := hd 0 (create_faults s) in
  (err,
   Sysfs (if err =? 0 then fun b => attribute_eqb b a || files s b
          else files s)
         (tl (create_faults s)) (CreateFile a err :: sysfs_trace s)).

Definition device_remove_file (a : attribute) (s : sysfs) : sysfs :=
  Sysfs (fun b => negb (attribute_eqb b a) && files s b)
        (create_faults s) (RemoveFile a :: sysfs_trace s).

Definition destroy_workqueue (s : sysfs) : sysfs :=
  Sysfs (files s) (create_faults s) (DestroyWorkqueue :: sysfs_trace s).

(** The loop of lines 696-702 over the attributes that are left; [i] is
    the index of the next one and [error] the variable of that name. *)
Fixpoint create_files (attrs : list attribute) (i : nat) (error : Z)
    (s : sysfs) : nat * Z * sysfs :=
  match attrs with
  | [] => (i, error, s)
  | a :: attrs' =>
      let '(error, s) := device_create_file a s in
      if error =? 0 then create_files attrs' (S i) error s
      else (i, error, s)
  end.

(** The loop of lines 705-706, [for (i--; i >= 0; i--)], entered with
    [i]. *)
Fixpoint remove_files_down (attrs : list attribute) (i : nat) (s : sysfs)
  : sysfs :=
  match i with
  | O => s
  | S i' =>
      remove_files_down attrs i'
        (match attrs !! i' with
         | Some a => device_remove_file a s
         | None => s
         end)
  end.

(** [sx9324_create_sysfs_attr], lines 691-710.  [error] is the
    indeterminate content of the local variable of that name. *)
Definition sx9324_create_sysfs_attr (error : Z) (s : sysfs) : Z * sysfs :=
  let '(i, error, s) := create_files sx9324_attrs 0 error s in
  (error,
   if (i <? length sx9324_attrs)%nat
   then remove_files_down sx9324_attrs i s
   else s).

(** [sx9324_remove_sysfs_attr], lines 712-718. *)
Definition sx9324_remove_sysfs_attr (s : sysfs) : sysfs :=
  fold_left (fun s a => device_remove_file a s) sx9324_attrs s.

(** The device as [sx9324_remove] sees it: the chip with its rails, the
    attribute files with the work queue, and [dev_log], the calls made
    on either of them in the order they were made, the most recent
    first. *)
Inductive step : Type :=
  | OnSysfs (e : sysfs_event)
  | OnWorld (e : event).

Record device : Type := Device {
  dev_world : world;
  dev_sysfs : sysfs;
  dev_log : list step
}.

(** The events by which a trace has grown from [before] to [after]. *)
Definition new_events {A : Type} (before after : list A) : list A :=
  take (length after - length before) after.

(** A call on the chip and a call on the attribute files, each logged
    with the events it made. *)
Definition on_world {A : Type} (m : M A) (v : device) : A * device :=
  let '(a, w') := m (dev_world v) in
  (a, Device w' (dev_sysfs v)
        (map OnWorld (new_events (trace (dev_world v)) (trace w'))
           ++ dev_log v)).

Definition on_sysfs (f : sysfs -> sysfs) (v : device) : device :=
  let s' := f (dev_sysfs v) in
  Device (dev_world v) s'
    (map OnSysfs (new_events (sysfs_trace (dev_sysfs v)) (sysfs_trace s'))
       ++ dev_log v).

(** [sx9324_remove], lines 859-868. *)
Definition sx9324_remove (d : sx9324_data) (v : device)
  : Z * sx9324_data * device :=
  let v := on_sysfs sx9324_remove_sysfs_attr v in
  let '(_, d, v) := on_world (sx9324_enable_vdd false d) v in
  let '(_, d, v) := on_world (sx9324_enable_pullup false d) v in
  let v := on_sysfs destroy_workqueue v in
  (0, d, v).

(** * The interrupt worker (lines 720-735)

    What the worker prints is its result: the line of [pr_debug] with
    the value read and the three flags, or the line of [pr_err] with the
    error. *)
Inductive irq_log : Type :=
  | IrqSrc (val reset close far : Z)
  | IrqSrcFailed (err : Z).

Definition sx9324_nirq_worker : M irq_log :=
  let* (err, val) := regmap_read SX9324_IRQ_SRC in
  if err =? 0 then
    ret (IrqSrc val
           (if negb (Z.land val SX9324_RESETIRQ =? 0) then 1 else 0)
           (if negb (Z.land val SX9324_CLOSEANYIRQ =? 0) then 1 else 0)
           (if negb (Z.land val SX9324_FARANYIRQ =? 0) then 1 else 0))
  else ret (IrqSrcFailed err).

(** * The arguments of the registers attribute (lines 491-569)

    The first part of [sx9324_registers_store]: unless the buffer is
    null or the count is zero, the text written to the attribute is
    split at spaces into at most [MAX_DUMPING_REGISTERS] arguments, each
    recorded in [arg_v] by the index of its first and of its last
    character. *)

Module Store.

Definition MAX_DUMPING_REGISTERS : Z := 8.

(** [struct _arg_str]. *)
Record arg_str : Type := ArgStr { s : Z; e : Z }.

(** How a piece of the function ends: normally, with a write outside
    [arg_v], or without an end in the steps granted. *)
Inductive outcome (A : Type) : Type :=
  | Done (a : A)
  | OutOfBounds
  | OutOfFuel.
Arguments Done {A} a.
Arguments OutOfBounds {A}.
Arguments OutOfFuel {A}.

(** [buf[i]]: the characters of the text, then its terminator. *)
Definition char_at (buf : String.string) (i : Z) : Ascii.ascii :=
  default Ascii.zero (String.get (Z.to_nat i) buf).

Definition in_bounds (k : Z) : bool :=
  (0 <=? k) && (k <? MAX_DUMPING_REGISTERS).

(** [arg_v[k].s = v] and [arg_v[k].e = v]. *)
Definition set_s (k v : Z) (arg_v : list arg_str) : option (list arg_str) :=
  if in_bounds k
  then Some (alter (fun a => ArgStr v (e a)) (Z.to_nat k) arg_v)
  else None.

Definition set_e (k v : Z) (arg_v : list arg_str) : option (list arg_str) :=
  if in_bounds k
  then Some (alter (fun a => ArgStr (s a) v) (Z.to_nat k) arg_v)
  else None.

(** Line 545, [while (buf[i] == ' ') i++;]. *)
Fixpoint skip_leading (fuel : nat) (buf : String.string) (i : Z) : option Z :=
  match fuel with
  | O => None
  | S fuel' =>
      if Ascii.eqb (char_at buf i) " " then skip_leading fuel' buf (i + 1)
      else Some i
  end.

(** Line 553, [while (buf[i + 1] == ' ') i++;]. *)
Fixpoint skip_run (fuel : nat) (buf : String.string) (i : Z) : option Z :=
  match fuel with
  | O => None
  | S fuel' =>
      if Ascii.eqb (char_at buf (i + 1)) " " then skip_run fuel' buf (i + 1)
      else Some i
  end.

(** The loop of lines 549-565; the result is [i], [arg_c], [arg_v] and
    [new_arg] when the loop is left. *)
Fixpoint split_loop (fuel : nat) (buf : String.string) (i arg_c : Z)
    (arg_v : list arg_str) (new_arg : bool)
  : outcome (Z * Z * list arg_str * bool) :=
  match fuel with
  | O => OutOfFuel
  | S fuel' =>
      if Ascii.eqb (char_at buf i) Ascii.zero then
        Done (i, arg_c, arg_v, new_arg)
      else if Ascii.eqb (char_at buf i) " " then
        match set_e arg_c (i - 1) arg_v with
        | None => OutOfBounds
        | Some arg_v =>
            match skip_run fuel' buf i with
            | None => OutOfFuel
            | Some i => split_loop fuel' buf (i + 1) arg_c arg_v false
            end
        end
      else if negb new_arg then
        if arg_c + 1 >=? MAX_DUMPING_REGISTERS then
          Done (i, arg_c, arg_v, new_arg)
        else
          match set_s (arg_c + 1) i arg_v with
          | None => OutOfBounds
          | Some arg_v => split_loop fuel' buf (i + 1) (arg_c + 1) arg_v true
          end
      else split_loop fuel' buf (i + 1) arg_c arg_v new_arg
  end.

(** Lines 567-569. *)
Definition close_last (st : Z * Z * list arg_str * bool)
  : outcome (Z * list arg_str) :=
  let '(i, arg_c, arg_v, new_arg) := st in
  if new_arg then
    match set_e arg_c (i - 1) arg_v with
    | None => OutOfBounds
    | Some arg_v => Done (arg_c, arg_v)
    end
  else Done (arg_c, arg_v).

(** Lines 544-569 on a text [buf], entered with [i = 0], [arg_c = -1]
    and [new_arg = false] (lines 527, 528 and 539) and the indeterminate
    content [arg_v] of the local array; the loops are granted one step
    more than the text has characters.  The result is [arg_c] and
    [arg_v]. *)
Definition split_text (buf : String.string) (arg_v : list arg_str)
  : outcome (Z * list arg_str) :=
  let fuel := S (String.length buf) in
  match skip_leading fuel buf 0 with
  | None => OutOfFuel
  | Some i =>
      match split_loop fuel buf i (-1) arg_v false with
      | Done st => close_last st
      | OutOfBounds => OutOfBounds
      | OutOfFuel => OutOfFuel
      end
  end.

(** Lines 527-569: the splitting under the guard [buf && count != 0] of
    line 543.  [None] is a null [buf]; when the guard fails [arg_c]
    keeps its initial value [-1] and [arg_v] is not written. *)
Definition split_args (buf : option String.string) (count : Z)
    (arg_v : list arg_str) : outcome (Z * list arg_str) :=
  match buf with
  | Some buf =>
      if negb (count =? 0) then split_text buf arg_v
      else Done (-1, arg_v)
  | None => Done (-1, arg_v)
  end.

(** The characters of a text up to its first terminator. *)
Fixpoint c_string (cs : list Ascii.ascii) : list Ascii.ascii :=
  match cs with
  | [] => []
  | c :: cs' => if Ascii.eqb c Ascii.zero then [] else c :: c_string cs'
  end.

(** The words of the characters [cs], which start at index [i]: the
    index of the first and of the last character of each maximal run
    without a space, in order.  [cur] is the start of the word that is
    being read, if any. *)
Fixpoint word_spans (cs : list Ascii.ascii) (i : Z) (cur : option Z)
  : list (Z * Z) :=
  match cs with
  | [] =>
      match cur with
      | Some start => [(start, i - 1)]
      | None => []
      end
  | c :: cs' =>
      if Ascii.eqb c " " then
        match cur with
        | Some start => (start, i - 1) :: word_spans cs' (i + 1) None
        | None => word_spans cs' (i + 1) None
        end
      else
        word_spans cs' (i + 1)
          (match cur with
           | Some start => Some start
           | None => Some i
           end)
  end.

Definition spans_of (args : list arg_str) : list (Z * Z) :=
  map (fun a => (s a, e a)) args.

(** The words the function is to split: those of the text, and none
    when the buffer is null or the count is zero. *)
Definition words_of (buf : option String.string) (count : Z)
  : list (Z * Z) :=
  match buf with
  | Some buf =>
      if count =? 0 then []
      else word_spans (c_string (String.list_ascii_of_string buf)) 0 None
  | None => []
  end.

(** The arguments already complete in a state of the loop: all up to
    [arg_c], but for the one being read. *)
Definition complete_args (arg_c : Z) (new_arg : bool) : nat :=
  Z.to_nat (if new_arg then arg_c else arg_c + 1).

(** The state of the loop is sound: [arg_c] is within the array or one
    below it, and the start of the word being read is in [arg_v]. *)
Definition loop_state (next : Ascii.ascii) (arg_c : Z)
    (arg_v : list arg_str) (new_arg : bool) (cur : option Z) : Prop :=
  length arg_v = 8%nat /\ -1 <= arg_c < 8
  /\ if new_arg
     then exists a, arg_v !! Z.to_nat arg_c = Some a /\ 0 <= arg_c
                    /\ cur = Some (s a)
     else next <> " "%char /\ cur = None.

(** From a state of the loop the function ends with [arg_c'] and
    [arg_v']: the complete arguments are kept, the words [words] still to
    come follow them as far as the array has room, and no slot above
    [arg_c'] is written. *)
Definition splits_to (arg_c : Z) (arg_v : list arg_str) (new_arg : bool)
    (words : list (Z * Z)) (arg_c' : Z) (arg_v' : list arg_str) : Prop :=
  arg_c <= arg_c' < 8
  /\ length arg_v' = 8%nat
  /\ (forall k, (Z.to_nat (arg_c' + 1) <= k)%nat -> arg_v' !! k = arg_v !! k)
  /\ spans_of (take (Z.to_nat (arg_c' + 1)) arg_v')
     = spans_of (take (complete_args arg_c new_arg) arg_v)
       ++ take (8 - complete_args arg_c new_arg) words.

End Store.

(** A reading of the interrupt line, as opposed to any other event. *)
Definition is_line_sample (e : event) : bool :=
  match e with
  | GpioGet _ => true
  | _ => false
  end.
(** * Verification *)

(** ** The register map API *)

Lemma regmap_read_run r w :
  sx9324_readable_reg r = true ->
  regmap_read r w =
    (hd 0 (faults w), if hd 0 (faults w) =? 0 then reg_value w r else 0,
     after_read r w).
Proof.
  intros Hr. unfold regmap_read, after_read. rewrite Hr.
  unfold bind, next_fault, emit, ret; cbn [regs faults nirq_levels trace].
  destruct (hd 0 (faults w) =? 0) eqn:E; [|reflexivity].
  apply Z.eqb_eq in E. rewrite E. reflexivity.
Qed.

Lemma regmap_write_run r val w :
  sx9324_writeable_reg r = true ->
  regmap_write r val w = (hd 0 (faults w), after_write r val w).
Proof.
  intros Hr. unfold regmap_write, after_write. rewrite Hr.
  unfold bind, next_fault, emit, store_reg, ret;
    cbn [regs faults nirq_levels trace].
  destruct (hd 0 (faults w) =? 0) eqn:E; [|reflexivity].
  apply Z.eqb_eq in E. rewrite E. reflexivity.
Qed.

Lemma byte_of_range v : 0 <= byte_of v < 256.
Proof.
  unfold byte_of. rewrite Z.land_ones by lia.
  change (2 ^ 8) with 256. apply Z.mod_pos_bound. lia.
Qed.

Lemma byte_of_idem v : byte_of (byte_of v) = byte_of v.
Proof.
  unfold byte_of. rewrite <- Z.land_assoc, Z.land_diag. reflexivity.
Qed.

Lemma reg_value_range w r : 0 <= reg_value w r < 256.
Proof. apply byte_of_range. Qed.

(** [(a >> n) & 1] is the bit [n] of [a]. *)
Lemma land_shiftr_1 a n :
  0 <= n -> Z.land (Z.shiftr a n) 1 = Z.b2z (Z.testbit a n).
Proof.
  intros Hn. change 1 with (Z.ones 1). rewrite Z.land_ones by lia.
  change (2 ^ 1) with 2. rewrite <- Z.bit0_mod, Z.shiftr_spec by lia.
  reflexivity.
Qed.

Lemma lor_nonzero a b : Z.lor a b <> 0 <-> a <> 0 \/ b <> 0.
Proof.
  rewrite Z.lor_eq_0_iff.
  destruct (Z.eq_dec a 0), (Z.eq_dec b 0); intuition congruence.
Qed.

(** ** Signed reconstruction and status decoding *)

Lemma byte_pair_disjoint msb lsb :
  0 <= lsb < 256 -> Z.land (Z.shiftl msb 8) lsb = 0.
Proof.
  intros Hl. apply Z.bits_inj'. intros n Hn.
  rewrite Z.land_spec, Z.bits_0.
  destruct (Z.lt_ge_cases n 8) as [Hlt | Hge].
  - rewrite Z.shiftl_spec_low by lia. reflexivity.
  - replace lsb with (Z.land lsb (Z.ones 8)).
    + rewrite Z.land_spec, Z.ones_spec_high by lia.
      rewrite !andb_false_r. reflexivity.
    + rewrite Z.land_ones by lia. apply Z.mod_small. exact Hl.
Qed.

Lemma byte_pair_value msb lsb :
  0 <= lsb < 256 -> Z.lor (Z.shiftl msb 8) lsb = 256 * msb + lsb.
Proof.
  intros Hl.
  pose proof (Z.add_lor_land (Z.shiftl msb 8) lsb) as H.
  rewrite byte_pair_disjoint in H by exact Hl.
  assert (Z.shiftl msb 8 = 256 * msb) as Hs
    by (rewrite Z.shiftl_mul_pow2 by lia; change (2 ^ 8) with 256; lia).
  lia.
Qed.

Lemma twos_complement16_wrap u :
  0 <= u < 65536 -> to_short u = twos_complement16 u.
Proof.
  intros Hu. unfold to_short, twos_complement16. change (2 ^ 16) with 65536.
  destruct (Z.testbit u 15) eqn:E.
  - apply Z.testbit_true in E; [|lia]. change (2 ^ 15) with 32768 in E.
    assert (32768 <= u) by (Z.div_mod_to_equations; lia).
    replace (u + 32768) with ((u - 32768) + 1 * 65536) by lia.
    rewrite Z.mod_add, Z.mod_small by lia. lia.
  - apply Z.testbit_false in E; [|lia]. change (2 ^ 15) with 32768 in E.
    assert (u < 32768) by (Z.div_mod_to_equations; lia).
    rewrite Z.mod_small by lia. lia.
Qed.

(** The cast of line 305, for every pair of bytes: [prox_value] is the
    two's-complement reading of the 16-bit pattern [(msb << 8) | lsb]. *)
Lemma prox_value_byte_pair (msb lsb : Z) :
  0 <= msb < 256 -> 0 <= lsb < 256 ->
  prox_value msb lsb = twos_complement16 (Z.lor (Z.shiftl msb 8) lsb)
  /\ -32768 <= prox_value msb lsb <= 32767
  /\ (prox_value msb lsb) mod 65536 = 256 * msb + lsb.
Proof.
  intros Hm Hl. unfold prox_value.
  split; [|split].
  - apply twos_complement16_wrap. rewrite byte_pair_value by exact Hl. lia.
  - unfold to_short.
    pose proof (Z.mod_pos_bound (Z.lor (Z.shiftl msb 8) lsb + 32768) 65536).
    lia.
  - rewrite byte_pair_value by exact Hl. unfold to_short.
    rewrite Zminus_mod_idemp_l.
    replace (256 * msb + lsb + 32768 - 32768) with (256 * msb + lsb) by lia.
    apply Z.mod_small. lia.
Qed.



(** ** Operational mode *)

Lemma regmap_update_bits_run r mask val w :
  sx9324_readable_reg r = true -> sx9324_writeable_reg r = true ->
  regmap_update_bits r mask val w =
    if hd 0 (faults w) =? 0 then
      let tmp := Z.lor (Z.ldiff (reg_value w r) mask) (Z.land val mask) in
      if tmp =? reg_value w r then (0, after_read r w)
      else (hd 0 (tl (faults w)), after_write r tmp (after_read r w))
    else (hd 0 (faults w), after_read r w).
Proof.
  intros Hr Hw. unfold regmap_update_bits, bind.
  rewrite regmap_read_run by exact Hr.
  destruct (hd 0 (faults w) =? 0) eqn:E; [|reflexivity].
  cbv zeta.
  destruct (_ =? reg_value w r); [reflexivity|].
  rewrite regmap_write_run by exact Hw. reflexivity.
Qed.

(** Registers other than the one updated keep their content. *)
Lemma regmap_update_bits_frame r mask val w r' :
  sx9324_readable_reg r = true -> sx9324_writeable_reg r = true ->
  r' <> r -> regs (snd (regmap_update_bits r mask val w)) r' = regs w r'.
Proof.
  intros Hr Hw Hne. rewrite regmap_update_bits_run by assumption.
  destruct (hd 0 (faults w) =? 0); [|reflexivity].
  cbv zeta. destruct (_ =? reg_value w r); [reflexivity|].
  unfold after_write; cbn.
  destruct (hd 0 (tl (faults w)) =? 0); [|reflexivity].
  apply Z.eqb_neq in Hne. rewrite Hne. reflexivity.
Qed.

(** Case analysis on the bits and comparisons of a goal about booleans. *)
Ltac bool_cases :=
  repeat match goal with
         | |- context [Z.testbit ?a ?n] => destruct (Z.testbit a n) eqn:?
         | |- context [?a <? ?b] => destruct (a <? b) eqn:?
         end;
  simpl in *; try congruence; try reflexivity.

Lemma testbit_byte_of v n :
  0 <= n -> Z.testbit (byte_of v) n = Z.testbit v n && (n <? 8).
Proof.
  intros Hn. unfold byte_of. rewrite Z.land_spec, Z.testbit_ones_nonneg by lia.
  reflexivity.
Qed.

(** The bits outside [mask] keep their value, whatever the outcome. *)
Lemma regmap_update_bits_outside r mask val w n :
  sx9324_readable_reg r = true -> sx9324_writeable_reg r = true ->
  Z.testbit mask n = false ->
  Z.testbit (reg_value (snd (regmap_update_bits r mask val w)) r) n =
  Z.testbit (reg_value w r) n.
Proof.
  intros Hr Hw Hm.
  destruct (Z.lt_ge_cases n 0) as [Hneg | Hn];
    [rewrite !Z.testbit_neg_r by exact Hneg; reflexivity|].
  rewrite regmap_update_bits_run by assumption.
  destruct (hd 0 (faults w) =? 0); [|reflexivity].
  cbv zeta. destruct (_ =? reg_value w r); [reflexivity|].
  unfold reg_value, after_write; cbn.
  destruct (hd 0 (tl (faults w)) =? 0); [|reflexivity].
  rewrite Z.eqb_refl.
  rewrite byte_of_idem, !testbit_byte_of by lia.
  rewrite Z.lor_spec, Z.ldiff_spec, Z.land_spec, Hm, testbit_byte_of by lia.
  bool_cases.
Qed.

(** After a successful update, the bits of [mask] are those of [val]. *)
Lemma regmap_update_bits_field r mask val w :
  sx9324_readable_reg r = true -> sx9324_writeable_reg r = true ->
  fst (regmap_update_bits r mask val w) = 0 ->
  Z.land (reg_value (snd (regmap_update_bits r mask val w)) r) mask =
  Z.land (byte_of val) mask.
Proof.
  intros Hr Hw. rewrite regmap_update_bits_run by assumption.
  destruct (hd 0 (faults w) =? 0) eqn:E0; [|apply Z.eqb_neq in E0; cbn; lia].
  cbv zeta.
  destruct (_ =? reg_value w r) eqn:Et.
  - intros _. cbn [snd]. apply Z.eqb_eq in Et.
    change (reg_value (after_read r w) r) with (reg_value w r).
    apply Z.bits_inj'. intros n Hn.
    assert (Z.testbit (reg_value w r) n =
            Z.testbit (reg_value w r) n && (n <? 8)) as Hb.
    { unfold reg_value. rewrite <- testbit_byte_of, byte_of_idem by lia.
      reflexivity. }
    assert (Z.testbit (Z.lor (Z.ldiff (reg_value w r) mask) (Z.land val mask)) n
            = Z.testbit (reg_value w r) n) as Hbit by (rewrite Et; reflexivity).
    rewrite Z.lor_spec, Z.ldiff_spec, Z.land_spec in Hbit.
    rewrite !Z.land_spec, testbit_byte_of by lia.
    revert Hb Hbit. bool_cases.
  - cbn [fst snd]. intros E1.
    unfold reg_value, after_write; cbn. rewrite E1. cbn.
    rewrite Z.eqb_refl, byte_of_idem.
    apply Z.bits_inj'. intros n Hn.
    rewrite !Z.land_spec, !testbit_byte_of by lia.
    rewrite Z.lor_spec, Z.ldiff_spec, Z.land_spec.
    bool_cases.
Qed.

Lemma ctrl_regs_accessible :
  sx9324_readable_reg SX9324_GNRL_CTRL_0 = true
  /\ sx9324_writeable_reg SX9324_GNRL_CTRL_0 = true
  /\ sx9324_readable_reg SX9324_GNRL_CTRL_1 = true
  /\ sx9324_writeable_reg SX9324_GNRL_CTRL_1 = true.
Proof. repeat split; reflexivity. Qed.

Lemma sx9324_get_mode_run mode w :
  sx9324_get_mode mode w =
    if hd 0 (faults w) =? 0 then
      if Z.land (reg_value w SX9324_GNRL_CTRL_1) SX9324_PHEN =? 0
      then (0, SX9324_SLEEP, after_read SX9324_GNRL_CTRL_1 w)
      else
        let w1 := after_read SX9324_GNRL_CTRL_1 w in
        if hd 0 (tl (faults w)) =? 0 then
          (0,
           if Z.land (reg_value w SX9324_GNRL_CTRL_0) SX9324_DOZEPERIOD =? 0
           then SX9324_ACTIVE else SX9324_DOZE,
           after_read SX9324_GNRL_CTRL_0 w1)
        else (hd 0 (tl (faults w)), mode, after_read SX9324_GNRL_CTRL_0 w1)
    else (hd 0 (faults w), mode, after_read SX9324_GNRL_CTRL_1 w).
Proof.
  unfold sx9324_get_mode, bind.
  rewrite regmap_read_run by reflexivity.
  destruct (hd 0 (faults w) =? 0) eqn:E0; [|reflexivity].
  apply Z.eqb_eq in E0. rewrite E0.
  destruct (Z.land _ SX9324_PHEN =? 0); [reflexivity|].
  cbn [negb]. cbv zeta. rewrite regmap_read_run by reflexivity.
  change (faults (after_read SX9324_GNRL_CTRL_1 w)) with (tl (faults w)).
  change (reg_value (after_read SX9324_GNRL_CTRL_1 w) SX9324_GNRL_CTRL_0)
    with (reg_value w SX9324_GNRL_CTRL_0).
  destruct (hd 0 (tl (faults w)) =? 0) eqn:E1; [|reflexivity].
  apply Z.eqb_eq in E1. rewrite E1.
  destruct (Z.land _ SX9324_DOZEPERIOD =? 0); reflexivity.
Qed.

(** C3.  For every register state: once the read of the phase-enable
    register succeeds, [sx9324_get_mode] yields Sleep when the
    phase-enable field is zero; otherwise, once the read of the
    scan-timing register succeeds too, Doze when the doze-period field
    is nonzero and Active when it is zero.  It performs at most two
    reads, of these two registers, and returns an error exactly when
    one of the reads it performed failed; the caller's variable is then
    left as it was. *)
Theorem get_mode_decides (mode : Z) (w : world) :
  let phen := Z.land (reg_value w SX9324_GNRL_CTRL_1) SX9324_PHEN in
  let doze := Z.land (reg_value w SX9324_GNRL_CTRL_0) SX9324_DOZEPERIOD in
  let '(error, mode', w') := sx9324_get_mode mode w in
  exists reads : list event,
    trace w' = reads ++ trace w
    /\ (reads = [BusRead SX9324_GNRL_CTRL_1 (hd 0 (faults w))]
        \/ reads = [BusRead SX9324_GNRL_CTRL_0 (hd 0 (tl (faults w)));
                    BusRead SX9324_GNRL_CTRL_1 0])
    /\ (error <> 0 <->
        exists r err, In (BusRead r err) reads /\ err <> 0)
    /\ (error <> 0 -> mode' = mode)
    /\ (error = 0 -> phen = 0 -> mode' = SX9324_SLEEP)
    /\ (error = 0 -> phen <> 0 -> doze <> 0 -> mode' = SX9324_DOZE)
    /\ (error = 0 -> phen <> 0 -> doze = 0 -> mode' = SX9324_ACTIVE)
    /\ (hd 0 (faults w) = 0 -> phen = 0 -> error = 0)
    /\ (hd 0 (faults w) = 0 -> hd 0 (tl (faults w)) = 0 -> error = 0)
    /\ (forall r, regs w' r = regs w r).
Proof.
  cbv zeta. rewrite sx9324_get_mode_run.
  destruct (hd 0 (faults w) =? 0) eqn:E0.
  - apply Z.eqb_eq in E0.
    destruct (Z.land _ SX9324_PHEN =? 0) eqn:Ep.
    + apply Z.eqb_eq in Ep.
      exists [BusRead SX9324_GNRL_CTRL_1 (hd 0 (faults w))].
      repeat split; auto; try lia; try congruence.
      intros (r & err & [Hin | []] & Hne). congruence.
    + apply Z.eqb_neq in Ep. cbv zeta.
      destruct (hd 0 (tl (faults w)) =? 0) eqn:E1.
      * apply Z.eqb_eq in E1.
        exists [BusRead SX9324_GNRL_CTRL_0 (hd 0 (tl (faults w)));
                BusRead SX9324_GNRL_CTRL_1 0].
        destruct (Z.land _ SX9324_DOZEPERIOD =? 0) eqn:Ed;
          [apply Z.eqb_eq in Ed | apply Z.eqb_neq in Ed];
          (repeat split; auto; try lia; try congruence;
           [ cbn [trace after_read]; rewrite E0; reflexivity
           | intros (r & err & [Hin | [Hin | []]] & Hne); congruence ]).
      * apply Z.eqb_neq in E1.
        exists [BusRead SX9324_GNRL_CTRL_0 (hd 0 (tl (faults w)));
                BusRead SX9324_GNRL_CTRL_1 0].
        repeat split; auto; try lia; try congruence.
        -- cbn [trace after_read]; rewrite E0; reflexivity.
        -- intros _. exists SX9324_GNRL_CTRL_0, (hd 0 (tl (faults w))).
           split; [left; reflexivity | exact E1].
  - apply Z.eqb_neq in E0.
    exists [BusRead SX9324_GNRL_CTRL_1 (hd 0 (faults w))].
    repeat split; auto; try lia; try congruence.
    intros _. exists SX9324_GNRL_CTRL_1, (hd 0 (faults w)).
    split; [left; reflexivity | exact E0].
Qed.

Lemma sx9324_set_mode_run mode w :
  sx9324_set_mode mode w =
    if (mode =? SX9324_ACTIVE) || (mode =? SX9324_DOZE) then
      let r1 := regmap_update_bits SX9324_GNRL_CTRL_1 SX9324_PHEN 0x21 w in
      let r2 := regmap_update_bits SX9324_GNRL_CTRL_0 SX9324_DOZEPERIOD
                  (if mode =? SX9324_ACTIVE then 0 else 0x45) (snd r1) in
      (Z.lor (fst r1) (fst r2), snd r2)
    else if mode =? SX9324_SLEEP then
      regmap_update_bits SX9324_GNRL_CTRL_1 SX9324_PHEN 0 w
    else (- EINVAL, w).
Proof.
  unfold sx9324_set_mode.
  destruct ((mode =? SX9324_ACTIVE) || (mode =? SX9324_DOZE));
    [|destruct (mode =? SX9324_SLEEP); reflexivity].
  change (default 15 (sx9324_get_software_default SX9324_GNRL_CTRL_1))
    with 0x21.
  change (default 64 (sx9324_get_software_default SX9324_GNRL_CTRL_0))
    with 0x45.
  cbv zeta. unfold bind at 1.
  destruct (regmap_update_bits SX9324_GNRL_CTRL_1 SX9324_PHEN 33 w)
    as [e1 w1].
  cbn [fst snd].
  destruct (mode =? SX9324_ACTIVE); unfold bind, ret;
    destruct (regmap_update_bits SX9324_GNRL_CTRL_0 _ _ w1); reflexivity.
Qed.

Lemma PHEN_bits n : ~ (0 <= n <= 3) -> Z.testbit SX9324_PHEN n = false.
Proof.
  intros Hn. destruct (Z.lt_ge_cases n 0) as [Hneg | Hpos].
  - apply Z.testbit_neg_r. exact Hneg.
  - change SX9324_PHEN with (Z.ones 4). apply Z.ones_spec_high. lia.
Qed.

Lemma DOZEPERIOD_bits n :
  ~ (5 <= n <= 6) -> Z.testbit SX9324_DOZEPERIOD n = false.
Proof.
  intros Hn. destruct (Z.lt_ge_cases n 0) as [Hneg | Hpos].
  - apply Z.testbit_neg_r. exact Hneg.
  - change SX9324_DOZEPERIOD with (Z.shiftl (Z.ones 2) 5).
    rewrite Z.shiftl_spec by lia.
    destruct (Z.lt_ge_cases n 5) as [Hlt | Hge].
    + apply Z.testbit_neg_r. lia.
    + apply Z.ones_spec_high. lia.
Qed.

(** A script without failure stays one, and its next outcome is
    success. *)
Lemma no_fault_hd (l : list Z) : Forall (eq 0) l -> hd 0 l = 0.
Proof. intros H. destruct H; [reflexivity | symmetry; assumption]. Qed.

Lemma no_fault_tl (l : list Z) : Forall (eq 0) l -> Forall (eq 0) (tl l).
Proof. intros H. destruct H; [constructor | assumption]. Qed.

Lemma regmap_update_bits_no_fault r mask val w :
  sx9324_readable_reg r = true -> sx9324_writeable_reg r = true ->
  Forall (eq 0) (faults w) ->
  fst (regmap_update_bits r mask val w) = 0
  /\ Forall (eq 0) (faults (snd (regmap_update_bits r mask val w))).
Proof.
  intros Hr Hw Hf. rewrite regmap_update_bits_run by assumption.
  rewrite (no_fault_hd _ Hf). cbn [Z.eqb]. cbv zeta.
  destruct (_ =? reg_value w r); cbn [fst snd after_read after_write faults].
  - split; [reflexivity | apply no_fault_tl, Hf].
  - split; [apply no_fault_hd | apply no_fault_tl]; apply no_fault_tl, Hf.
Qed.

(** What [sx9324_get_mode] returns in terms of the two fields, when it
    succeeds. *)
Lemma get_mode_of_fields mode w :
  fst (fst (sx9324_get_mode mode w)) = 0 ->
  snd (fst (sx9324_get_mode mode w)) =
    if Z.land (reg_value w SX9324_GNRL_CTRL_1) SX9324_PHEN =? 0
    then SX9324_SLEEP
    else if Z.land (reg_value w SX9324_GNRL_CTRL_0) SX9324_DOZEPERIOD =? 0
         then SX9324_ACTIVE else SX9324_DOZE.
Proof.
  rewrite sx9324_get_mode_run.
  destruct (hd 0 (faults w) =? 0) eqn:E0;
    [|apply Z.eqb_neq in E0; cbn; intros; contradiction].
  destruct (Z.land _ SX9324_PHEN =? 0); [reflexivity|].
  cbv zeta.
  destruct (hd 0 (tl (faults w)) =? 0) eqn:E1;
    [|apply Z.eqb_neq in E1; cbn; intros; contradiction].
  reflexivity.
Qed.

Lemma get_mode_no_fault mode w :
  Forall (eq 0) (faults w) -> fst (fst (sx9324_get_mode mode w)) = 0.
Proof.
  intros Hf. rewrite sx9324_get_mode_run.
  rewrite (no_fault_hd _ Hf), (no_fault_hd _ (no_fault_tl _ Hf)).
  cbn [Z.eqb]. destruct (Z.land _ SX9324_PHEN =? 0); reflexivity.
Qed.

(** The fields that a successful [sx9324_set_mode] leaves behind. *)
Lemma set_mode_fields target w :
  target = SX9324_ACTIVE \/ target = SX9324_DOZE \/ target = SX9324_SLEEP ->
  fst (sx9324_set_mode target w) = 0 ->
  let w1 := snd (sx9324_set_mode target w) in
  Z.land (reg_value w1 SX9324_GNRL_CTRL_1) SX9324_PHEN =
    (if target =? SX9324_SLEEP then 0 else 1)
  /\ (target = SX9324_ACTIVE ->
      Z.land (reg_value w1 SX9324_GNRL_CTRL_0) SX9324_DOZEPERIOD = 0)
  /\ (target = SX9324_DOZE ->
      Z.land (reg_value w1 SX9324_GNRL_CTRL_0) SX9324_DOZEPERIOD = 0x40).
Proof.
  destruct ctrl_regs_accessible as (R0 & W0 & R1 & W1).
  intros Ht. rewrite sx9324_set_mode_run.
  assert (forall v,
    fst (regmap_update_bits SX9324_GNRL_CTRL_1 SX9324_PHEN 33 w) = 0 ->
    Z.land (reg_value
        (snd (regmap_update_bits SX9324_GNRL_CTRL_0 SX9324_DOZEPERIOD v
               (snd (regmap_update_bits SX9324_GNRL_CTRL_1 SX9324_PHEN 33 w))))
        SX9324_GNRL_CTRL_1) SX9324_PHEN = 1) as Hphen.
  { intros v He1. unfold reg_value at 1.
    rewrite regmap_update_bits_frame by (assumption || discriminate).
    fold (reg_value (snd (regmap_update_bits SX9324_GNRL_CTRL_1
                            SX9324_PHEN 33 w)) SX9324_GNRL_CTRL_1).
    rewrite regmap_update_bits_field by assumption. reflexivity. }
  destruct Ht as [-> | [-> | ->]]; cbn [Z.eqb orb SX9324_ACTIVE SX9324_DOZE
    SX9324_SLEEP Pos.eqb]; cbv zeta; cbn [fst snd]; intros He.
  - apply Z.lor_eq_0_iff in He. destruct He as [He1 He2].
    split; [apply (Hphen 0 He1)|]. split; [|discriminate].
    intros _. rewrite regmap_update_bits_field by assumption. reflexivity.
  - apply Z.lor_eq_0_iff in He. destruct He as [He1 He2].
    split; [apply (Hphen 69 He1)|]. split; [discriminate|].
    intros _. rewrite regmap_update_bits_field by assumption. reflexivity.
  - split; [|split; discriminate].
    rewrite regmap_update_bits_field by assumption. reflexivity.
Qed.

(** C4.  From every register state: if [sx9324_set_mode] of Active,
    Doze or Sleep succeeds and the [sx9324_get_mode] that follows
    succeeds, the mode read back is the mode that was set, whatever the
    mode before; and both calls do succeed when no register access
    fails. *)
Theorem set_mode_get_mode_round_trip (target old : Z) (w : world) :
  target = SX9324_ACTIVE \/ target = SX9324_DOZE \/ target = SX9324_SLEEP ->
  let '(error1, w1) := sx9324_set_mode target w in
  let '(error2, mode, w2) := sx9324_get_mode old w1 in
  (error1 = 0 -> error2 = 0 -> mode = target)
  /\ (Forall (eq 0) (faults w) -> error1 = 0 /\ error2 = 0 /\ mode = target).
Proof.
  intros Ht.
  pose proof (set_mode_fields target w Ht) as Hf.
  assert (Forall (eq 0) (faults w) ->
          fst (sx9324_set_mode target w) = 0
          /\ Forall (eq 0) (faults (snd (sx9324_set_mode target w)))) as Hok.
  { destruct ctrl_regs_accessible as (R0 & W0 & R1 & W1).
    intros Hz. rewrite sx9324_set_mode_run.
    destruct Ht as [-> | [-> | ->]]; cbn [Z.eqb orb SX9324_ACTIVE SX9324_DOZE
      SX9324_SLEEP Pos.eqb]; cbv zeta; cbn [fst snd].
    - destruct (regmap_update_bits_no_fault SX9324_GNRL_CTRL_1 SX9324_PHEN
                  33 w R1 W1 Hz) as [E1 Hz1].
      destruct (regmap_update_bits_no_fault SX9324_GNRL_CTRL_0
                  SX9324_DOZEPERIOD 0 _ R0 W0 Hz1) as [E2 Hz2].
      rewrite E1, E2. split; [reflexivity | exact Hz2].
    - destruct (regmap_update_bits_no_fault SX9324_GNRL_CTRL_1 SX9324_PHEN
                  33 w R1 W1 Hz) as [E1 Hz1].
      destruct (regmap_update_bits_no_fault SX9324_GNRL_CTRL_0
                  SX9324_DOZEPERIOD 69 _ R0 W0 Hz1) as [E2 Hz2].
      rewrite E1, E2. split; [reflexivity | exact Hz2].
    - apply regmap_update_bits_no_fault; assumption. }
  destruct (sx9324_set_mode target w) as [error1 w1]. cbn [fst snd] in *.
  pose proof (get_mode_of_fields old w1) as Hg.
  pose proof (get_mode_no_fault old w1) as Hn.
  destruct (sx9324_get_mode old w1) as [[error2 mode] w2]. cbn [fst snd] in *.
  assert (error1 = 0 -> error2 = 0 -> mode = target) as Hmain.
  { intros E1 E2. specialize (Hf E1). cbv zeta in Hf.
    destruct Hf as (Hp & Ha & Hd). rewrite (Hg E2), Hp.
    destruct Ht as [-> | [-> | ->]].
    - rewrite (Ha eq_refl). reflexivity.
    - rewrite (Hd eq_refl). reflexivity.
    - reflexivity. }
  split; [exact Hmain|].
  intros Hz. destruct (Hok Hz) as [E1 Hz1]. specialize (Hn Hz1).
  auto.
Qed.

Lemma set_mode_get_mode_round_trip_witness :
  let w := World (fun r => if r =? SX9324_GNRL_CTRL_0 then 0x0a else 0xf0)
                 [] [] [] in
  let '(error1, w1) := sx9324_set_mode SX9324_DOZE w in
  let '(error2, mode, w2) := sx9324_get_mode SX9324_SLEEP w1 in
  (error1 = 0 -> error2 = 0 -> mode = SX9324_DOZE)
  /\ (Forall (eq 0) (faults w) ->
      error1 = 0 /\ error2 = 0 /\ mode = SX9324_DOZE).
Proof.
  apply (set_mode_get_mode_round_trip SX9324_DOZE SX9324_SLEEP).
  right; left; reflexivity.
Defined.

(** Every [regmap_update_bits] on a register of the chip starts with a
    bus read of that register. *)
Lemma regmap_update_bits_attempt r mask val w :
  sx9324_readable_reg r = true -> sx9324_writeable_reg r = true ->
  exists ev, trace (snd (regmap_update_bits r mask val w)) =
             ev ++ BusRead r (hd 0 (faults w)) :: trace w.
Proof.
  intros Hr Hw. rewrite regmap_update_bits_run by assumption.
  destruct (hd 0 (faults w) =? 0); [|exists []; reflexivity].
  cbv zeta. destruct (_ =? reg_value w r); [exists []; reflexivity|].
  eexists [_]. reflexivity.
Qed.

(** C5.  For a target of Active or Doze, [sx9324_set_mode] is the update
    of the phase-enable field followed by the update of the doze-period
    field, from the world the first one left and whatever its outcome:
    both start their bus access, the result is the bitwise OR of the two
    outcomes, and it is a failure exactly when one of the two is.  For a
    mode value other than Active, Doze and Sleep the result is
    [-EINVAL] and the world, its trace included, is the one before the
    call. *)
Theorem set_mode_combines_errors (mode : Z) (w : world) :
  (mode = SX9324_ACTIVE \/ mode = SX9324_DOZE ->
   let '(error1, w1) :=
     regmap_update_bits SX9324_GNRL_CTRL_1 SX9324_PHEN 0x21 w in
   let '(error2, w2) :=
     regmap_update_bits SX9324_GNRL_CTRL_0 SX9324_DOZEPERIOD
       (if mode =? SX9324_ACTIVE then 0 else 0x45) w1 in
   sx9324_set_mode mode w = (Z.lor error1 error2, w2)
   /\ (Z.lor error1 error2 <> 0 <-> error1 <> 0 \/ error2 <> 0)
   /\ (exists ev, trace w1 =
         ev ++ BusRead SX9324_GNRL_CTRL_1 (hd 0 (faults w)) :: trace w)
   /\ (exists ev, trace w2 =
         ev ++ BusRead SX9324_GNRL_CTRL_0 (hd 0 (faults w1)) :: trace w1))
  /\ (mode <> SX9324_ACTIVE -> mode <> SX9324_DOZE -> mode <> SX9324_SLEEP ->
      sx9324_set_mode mode w = (- EINVAL, w)).
Proof.
  destruct ctrl_regs_accessible as (R0 & W0 & R1 & W1).
  split.
  - intros Hm.
    pose proof (regmap_update_bits_attempt SX9324_GNRL_CTRL_1 SX9324_PHEN
                  0x21 w R1 W1) as Ha1.
    rewrite sx9324_set_mode_run.
    replace ((mode =? SX9324_ACTIVE) || (mode =? SX9324_DOZE)) with true
      by (destruct Hm as [-> | ->]; reflexivity).
    cbv zeta.
    destruct (regmap_update_bits SX9324_GNRL_CTRL_1 SX9324_PHEN 33 w)
      as [error1 w1].
    cbn [fst snd] in *.
    pose proof (regmap_update_bits_attempt SX9324_GNRL_CTRL_0
                  SX9324_DOZEPERIOD
                  (if mode =? SX9324_ACTIVE then 0 else 0x45) w1 R0 W0) as Ha2.
    destruct (regmap_update_bits SX9324_GNRL_CTRL_0 _ _ w1) as [error2 w2].
    cbn [fst snd] in *.
    split; [reflexivity|]. split; [apply lor_nonzero|]. split; assumption.
  - intros Ha Hd Hs. rewrite sx9324_set_mode_run.
    apply Z.eqb_neq in Ha, Hd, Hs. rewrite Ha, Hd, Hs. reflexivity.
Qed.

Lemma set_mode_combines_errors_witness :
  let w := World (fun _ => 0xff) [- EIO; 0; 0] [] [] in
  sx9324_set_mode SX9324_ACTIVE w =
    (- EIO,
     World (fun r => if r =? SX9324_GNRL_CTRL_0 then 0x9f else 0xff) [] []
       [BusWrite SX9324_GNRL_CTRL_0 0x9f 0; BusRead SX9324_GNRL_CTRL_0 0;
        BusRead SX9324_GNRL_CTRL_1 (- EIO)])
  /\ sx9324_set_mode 7 w = (- EINVAL, w).
Proof.
  set (w := World (fun _ => 0xff) [- EIO; 0; 0] [] []).
  destruct (set_mode_combines_errors SX9324_ACTIVE w) as [H _].
  destruct (set_mode_combines_errors 7 w) as [_ H'].
  split.
  - specialize (H (or_introl eq_refl)). destruct H as [H _]. exact H.
  - apply H'; discriminate.
Defined.

(** C10.  Whatever the mode requested and whatever the outcome of the
    bus accesses, [sx9324_set_mode] leaves every register other than
    the phase-enable register and the scan-timing register as it was;
    in the phase-enable register only the bits 3..0 can change, in the
    scan-timing register only the bits 6..5; the scan-timing register
    is not changed at all for a mode other than Active and Doze, and no
    register is for a mode that is none of the three. *)
Theorem set_mode_frame (mode : Z) (w : world) :
  let w' := snd (sx9324_set_mode mode w) in
  (forall r, r <> SX9324_GNRL_CTRL_1 -> r <> SX9324_GNRL_CTRL_0 ->
             regs w' r = regs w r)
  /\ (forall n, ~ (0 <= n <= 3) ->
        Z.testbit (reg_value w' SX9324_GNRL_CTRL_1) n =
        Z.testbit (reg_value w SX9324_GNRL_CTRL_1) n)
  /\ (forall n, ~ (5 <= n <= 6) ->
        Z.testbit (reg_value w' SX9324_GNRL_CTRL_0) n =
        Z.testbit (reg_value w SX9324_GNRL_CTRL_0) n)
  /\ (mode <> SX9324_ACTIVE -> mode <> SX9324_DOZE ->
      regs w' SX9324_GNRL_CTRL_0 = regs w SX9324_GNRL_CTRL_0)
  /\ (mode <> SX9324_ACTIVE -> mode <> SX9324_DOZE -> mode <> SX9324_SLEEP ->
      forall r, regs w' r = regs w r).
Proof.
  destruct ctrl_regs_accessible as (R0 & W0 & R1 & W1).
  cbv zeta. rewrite sx9324_set_mode_run.
  destruct ((mode =? SX9324_ACTIVE) || (mode =? SX9324_DOZE)) eqn:Ead.
  - cbv zeta. cbn [snd].
    set (v := if mode =? SX9324_ACTIVE then 0 else 69).
    set (w1 := snd (regmap_update_bits SX9324_GNRL_CTRL_1 SX9324_PHEN 33 w)).
    split; [|split; [|split; [|split]]].
    + intros r H1 H0.
      rewrite regmap_update_bits_frame by assumption.
      apply regmap_update_bits_frame; assumption.
    + intros n Hn. unfold reg_value at 1.
      rewrite regmap_update_bits_frame by (assumption || discriminate).
      apply regmap_update_bits_outside; [assumption..|].
      apply PHEN_bits, Hn.
    + intros n Hn.
      rewrite regmap_update_bits_outside
        by (assumption || apply DOZEPERIOD_bits, Hn).
      unfold reg_value, w1.
      rewrite regmap_update_bits_frame by (assumption || discriminate).
      reflexivity.
    + intros Ha Hd. apply Z.eqb_neq in Ha, Hd. rewrite Ha, Hd in Ead.
      discriminate.
    + intros Ha Hd. apply Z.eqb_neq in Ha, Hd. rewrite Ha, Hd in Ead.
      discriminate.
  - destruct (mode =? SX9324_SLEEP) eqn:Es.
    + split; [|split; [|split; [|split]]].
      * intros r H1 H0. apply regmap_update_bits_frame; assumption.
      * intros n Hn.
        apply regmap_update_bits_outside; [assumption..|].
        apply PHEN_bits, Hn.
      * intros n Hn. unfold reg_value.
        rewrite regmap_update_bits_frame by (assumption || discriminate).
        reflexivity.
      * intros _ _.
        apply regmap_update_bits_frame; (assumption || discriminate).
      * intros _ _ Hs. apply Z.eqb_eq in Es. contradiction.
    + cbn [snd]. repeat split; reflexivity.
Qed.

(** ** Power rails *)

Lemma enable_rail_run r on d w :
  enable_rail r on d w =
    if Bool.eqb (rail_enabled r d) on then (0, d, w)
    else
      let err := hd 0 (faults w) in
      (err, if err =? 0 then set_rail_enabled r on d else d,
       World (regs w) (tl (faults w)) (nirq_levels w)
             ((if on then RegulatorEnable r err else RegulatorDisable r err)
                :: trace w)).
Proof.
  destruct r; cbn [enable_rail rail_enabled set_rail_enabled];
    [unfold sx9324_enable_pullup | unfold sx9324_enable_vdd];
    (destruct (Bool.eqb _ on); cbn [negb]; [reflexivity|]);
    unfold bind, regulator_enable, regulator_disable, bind, next_fault, emit,
      ret;
    destruct on; cbn [regs faults nirq_levels trace]; cbv zeta;
    destruct (hd 0 (faults w) =? 0); reflexivity.
Qed.

(** C8 (as amended).  For each rail and each requested state [on],
    [enable_rail] succeeds without any effect when the shadow flag of
    the rail equals [on]; otherwise it calls the regulator once and sets
    the shadow flag to [on] only when that call succeeds.  A second call
    with the same [on] does nothing when the first one succeeded; when
    the first one failed it calls the regulator again.  So two calls
    make at most two regulator calls, at most one of them successful,
    and at most one call when the first returns success. *)
Theorem enable_rail_idempotent (r : rail) (on : bool) (d : sx9324_data)
    (w : world) :
  let '(error1, d1, w1) := enable_rail r on d w in
  let '(error2, d2, w2) := enable_rail r on d1 w1 in
  (rail_enabled r d = on -> error1 = 0 /\ d1 = d /\ w1 = w)
  /\ (rail_enabled r d <> on ->
      error1 = hd 0 (faults w)
      /\ trace w1 =
           (if on then RegulatorEnable r error1 else RegulatorDisable r error1)
             :: trace w
      /\ d1 = (if error1 =? 0 then set_rail_enabled r on d else d))
  /\ (error1 = 0 -> rail_enabled r d1 = on)
  /\ (error1 = 0 -> error2 = 0 /\ d2 = d1 /\ w2 = w1)
  /\ (error1 = 0 ->
      (rail_transactions (trace w2) <= rail_transactions (trace w) + 1)%nat)
  /\ (rail_transactions (trace w2) <= rail_transactions (trace w) + 2)%nat
  /\ (rail_successes (trace w2) <= rail_successes (trace w) + 1)%nat.
Proof.
  rewrite enable_rail_run.
  destruct (Bool.eqb (rail_enabled r d) on) eqn:Eq1.
  - apply eqb_prop in Eq1. rewrite enable_rail_run.
    rewrite Eq1, eqb_reflx.
    repeat split; auto; try lia; try contradiction.
  - apply eqb_false_iff in Eq1. cbv zeta.
    destruct (hd 0 (faults w) =? 0) eqn:E1.
    + apply Z.eqb_eq in E1. rewrite enable_rail_run.
      assert (rail_enabled r (set_rail_enabled r on d) = on) as Hs
        by (destruct r; reflexivity).
      rewrite Hs, eqb_reflx.
      repeat split; auto; try contradiction; cbn [trace];
        destruct on; cbn [rail_transactions rail_successes];
        rewrite ?E1; cbn [Z.eqb]; solve [reflexivity | lia].
    + apply Z.eqb_neq in E1. rewrite enable_rail_run.
      apply eqb_false_iff in Eq1. rewrite Eq1. cbv zeta.
      cbn [faults trace]. apply eqb_false_iff in Eq1.
      repeat split; auto; try contradiction; cbn [trace];
        try (apply Z.eqb_neq in E1; rewrite E1; reflexivity).
      * destruct on; cbn [rail_transactions]; lia.
      * apply Z.eqb_neq in E1.
        destruct on; cbn [rail_successes]; rewrite E1;
          destruct (hd 0 (tl (faults w)) =? 0); lia.
Qed.

Lemma enable_rail_idempotent_witness :
  let d := DrvData false false [] in
  let w := World (fun _ => 0) [] [] [] in
  let '(error1, d1, w1) := enable_rail Vdd true d w in
  let '(error2, d2, w2) := enable_rail Vdd true d1 w1 in
  error1 = 0 /\ error2 = 0 /\ rail_enabled Vdd d2 = true
  /\ trace w2 = [RegulatorEnable Vdd 0].
Proof.
  pose proof (enable_rail_idempotent Vdd true (DrvData false false [])
                (World (fun _ => 0) [] [] [])) as H.
  cbv zeta.
  destruct (enable_rail Vdd true _ _) as [[error1 d1] w1] eqn:E1.
  destruct (enable_rail Vdd true d1 w1) as [[error2 d2] w2] eqn:E2.
  destruct H as (_ & H2 & H3 & H4 & _).
  destruct (H2 ltac:(discriminate)) as (He & Ht & Hd).
  cbn in He. destruct (H4 He) as (He2 & Hd2 & Hw2).
  subst error1. subst w2 d2. repeat split; auto.
Defined.

(** The claim C8 as written fails: when the regulator call of the first
    of two identical calls fails, the second call makes the regulator
    call again, so the two calls make two rail transactions. *)
Lemma enable_rail_twice_two_transactions :
  let d := DrvData false false [] in
  let w := World (fun _ => 0) [- EIO] [] [] in
  let '(error1, d1, w1) := enable_rail Pullup true d w in
  let '(error2, d2, w2) := enable_rail Pullup true d1 w1 in
  error1 = - EIO /\ error2 = 0
  /\ trace w2 = [RegulatorEnable Pullup 0; RegulatorEnable Pullup (- EIO)]
  /\ rail_transactions (trace w2) = 2%nat
  /\ ~ (rail_transactions (trace w2) <= rail_transactions (trace w) + 1)%nat.
Proof.
  cbv zeta. vm_compute. repeat split; try reflexivity. lia.
Qed.

(** ** Software defaults *)

Lemma defaults_world_0 tbl w : defaults_world 0 tbl w = w.
Proof. destruct w. reflexivity. Qed.

Lemma defaults_world_S k e tbl w :
  hd 0 (faults w) = 0 ->
  defaults_world (S k) (e :: tbl) w =
  defaults_world k tbl (after_write (reg e) (def e) w).
Proof.
  intros H0. unfold defaults_world, after_write, default_write_events.
  cbn [take regs faults nirq_levels trace map rev written_defaults fold_left].
  rewrite H0. cbn [Z.eqb]. rewrite <- app_assoc. cbn [app].
  f_equal. destruct (faults w); [destruct k|]; reflexivity.
Qed.

Lemma nth_tl (l : list Z) n : nth n (tl l) 0 = nth (S n) l 0.
Proof. destruct l; [destruct n|]; reflexivity. Qed.

(** The loop writes the entries in order until a write fails: when the
    first [k] writes succeed and the next one fails, it stops there. *)
Lemma reset_software_default_from_fail tbl :
  Forall (fun e => sx9324_writeable_reg (reg e) = true) tbl ->
  forall k ek w,
    tbl !! k = Some ek ->
    (forall n, (n < k)%nat -> nth n (faults w) 0 = 0) ->
    nth k (faults w) 0 <> 0 ->
    reset_software_default_from tbl 0 w =
      (nth k (faults w) 0,
       snd (pr_err (MsgDefaultWriteFailed (reg ek) (nth k (faults w) 0))
              (after_write (reg ek) (def ek) (defaults_world k tbl w)))).
Proof.
  induction 1 as [|e tbl He Htbl IH]; intros k ek w Hk Hz Hf.
  - discriminate.
  - cbn [reset_software_default_from]. unfold bind at 1.
    rewrite regmap_write_run by exact He.
    destruct k as [|k].
    + injection Hk as ->. cbn [nth] in Hf.
      replace (nth 0 (faults w) 0) with (hd 0 (faults w))
        by (destruct (faults w); reflexivity).
      replace (hd 0 (faults w)) with (nth 0 (faults w) 0) in Hf
        by (destruct (faults w); reflexivity).
      assert (hd 0 (faults w) <> 0) as Hf'
        by (destruct (faults w); exact Hf).
      apply Z.eqb_neq in Hf'. rewrite Hf'.
      rewrite defaults_world_0. reflexivity.
    + assert (hd 0 (faults w) = 0) as H0.
      { specialize (Hz 0%nat ltac:(lia)). destruct (faults w); exact Hz. }
      rewrite H0. cbn [Z.eqb].
      rewrite (IH k ek (after_write (reg e) (def e) w)).
      * cbn [faults after_write]. rewrite nth_tl.
        rewrite <- defaults_world_S by exact H0. reflexivity.
      * exact Hk.
      * intros n Hn. cbn [faults after_write]. rewrite nth_tl.
        apply Hz. lia.
      * cbn [faults after_write]. rewrite nth_tl. exact Hf.
Qed.

Lemma reset_software_default_from_ok tbl :
  Forall (fun e => sx9324_writeable_reg (reg e) = true) tbl ->
  forall w,
    (forall n, (n < length tbl)%nat -> nth n (faults w) 0 = 0) ->
    reset_software_default_from tbl 0 w =
      (0, defaults_world (length tbl) tbl w).
Proof.
  induction 1 as [|e tbl He Htbl IH]; intros w Hz.
  - cbn. rewrite defaults_world_0. reflexivity.
  - cbn [reset_software_default_from length]. unfold bind at 1.
    rewrite regmap_write_run by exact He.
    assert (hd 0 (faults w) = 0) as H0.
    { specialize (Hz 0%nat ltac:(cbn; lia)). destruct (faults w); exact Hz. }
    rewrite H0. cbn [Z.eqb].
    rewrite IH.
    + rewrite <- defaults_world_S by exact H0. reflexivity.
    + intros n Hn. cbn [faults after_write]. rewrite nth_tl.
      apply Hz. cbn. lia.
Qed.

Lemma reg_defaults_writeable :
  Forall (fun e => sx9324_writeable_reg (reg e) = true) sx9324_reg_defaults.
Proof. repeat constructor. Qed.

(** C9.  [sx9324_reset_software_default] writes the entries of the
    table in table order.  When the writes of the first [k] entries
    succeed and the write of entry [k] fails, it stops there: it returns
    the error of that write, the trace ends with that failed write and
    the message that names the address of entry [k], after the [k]
    successful writes in table order; the registers are those after the
    first [k] writes, each of these [k] registers holding its default
    value, and nothing is written back.  When all four writes succeed it
    returns success with the four entries written. *)
Theorem reset_software_default_stops_at_first_failure (w : world) (k : nat) :
  (forall n, (n < k)%nat -> nth n (faults w) 0 = 0) ->
  let '(error, w') := sx9324_reset_software_default w in
  (forall ek, sx9324_reg_defaults !! k = Some ek ->
     nth k (faults w) 0 <> 0 ->
     error = nth k (faults w) 0
     /\ trace w' =
          PrErr (MsgDefaultWriteFailed (reg ek) error)
            :: BusWrite (reg ek) (byte_of (def ek)) error
            :: default_write_events (take k sx9324_reg_defaults) ++ trace w
     /\ (forall r, regs w' r =
                   written_defaults (take k sx9324_reg_defaults) (regs w) r)
     /\ (forall j ej, (j < k)%nat -> sx9324_reg_defaults !! j = Some ej ->
           reg_value w' (reg ej) = def ej))
  /\ (k = length sx9324_reg_defaults ->
      error = 0
      /\ trace w' = default_write_events sx9324_reg_defaults ++ trace w
      /\ (forall r, regs w' r = written_defaults sx9324_reg_defaults (regs w) r)
      /\ (forall ej, In ej sx9324_reg_defaults ->
            reg_value w' (reg ej) = def ej)).
Proof.
  intros Hz. unfold sx9324_reset_software_default.
  destruct (reset_software_default_from sx9324_reg_defaults 0 w)
    as [error w'] eqn:Erun.
  split.
  - intros ek Hk Hf.
    rewrite (reset_software_default_from_fail _ reg_defaults_writeable
               k ek w Hk Hz Hf) in Erun.
    injection Erun as <- <-.
    assert ((nth k (faults w) 0 =? 0) = false) as Hf' by (apply Z.eqb_neq, Hf).
    assert (hd 0 (drop k (faults w)) = nth k (faults w) 0) as Hhd.
    { clear. revert k. induction (faults w) as [|a l IH]; intros [|k];
        try reflexivity. cbn. apply IH. }
    split; [reflexivity|]. split; [|split].
    + cbn. rewrite Hhd. reflexivity.
    + intros r. cbn. rewrite Hhd, Hf'. reflexivity.
    + intros j ej Hj Hej. unfold reg_value. cbn. rewrite Hhd, Hf'.
      destruct k as [|[|[|[|k]]]]; [lia| | | |discriminate Hk];
        destruct j as [|[|[|j]]]; try lia;
        injection Hej as <-; reflexivity.
  - intros ->.
    rewrite (reset_software_default_from_ok _ reg_defaults_writeable w Hz)
      in Erun.
    injection Erun as <- <-.
    split; [reflexivity|]. split; [reflexivity|]. split; [reflexivity|].
    intros ej [<- | [<- | [<- | [<- | []]]]]; reflexivity.
Qed.

Lemma reset_software_default_stops_at_first_failure_witness :
  let w := World (fun _ => 0) [0; 0; - EIO; 0] [] [] in
  sx9324_reset_software_default w =
    (- EIO,
     World (fun r => if r =? SX9324_GNRL_CTRL_0 then 0x45
                     else if r =? SX9324_IRQ_MSK then 0x60 else 0)
           [0] []
           [PrErr (MsgDefaultWriteFailed SX9324_AFE_PH_0 (- EIO));
            BusWrite SX9324_AFE_PH_0 0x29 (- EIO);
            BusWrite SX9324_GNRL_CTRL_0 0x45 0;
            BusWrite SX9324_IRQ_MSK 0x60 0])
  /\ fst (sx9324_reset_software_default w) = - EIO
  /\ reg_value (snd (sx9324_reset_software_default w)) SX9324_IRQ_MSK = 0x60.
Proof.
  set (w := World (fun _ => 0) [0; 0; - EIO; 0] [] []).
  split; [reflexivity|].
  assert (forall n, (n < 2)%nat -> nth n (faults w) 0 = 0) as Hz.
  { intros [|[|n]] Hn; [reflexivity | reflexivity | lia]. }
  pose proof (reset_software_default_stops_at_first_failure w 2 Hz) as H.
  destruct (sx9324_reset_software_default w) as [error w'].
  destruct H as [H _].
  destruct (H (RegDefault SX9324_AFE_PH_0 0x29) eq_refl ltac:(discriminate))
    as (He & _ & _ & Hj).
  split; [exact He|].
  apply (Hj 0%nat (RegDefault SX9324_IRQ_MSK 0x60)); [lia | reflexivity].
Defined.

(** ** Reset *)

Lemma reset_check_nirq_run w :
  reset_check_nirq w =
    let w1 := snd (gpiod_get_value w) in
    if level_before w =? 0 then
      let w2 := after_read SX9324_IRQ_SRC w1 in
      if hd 0 (faults w) =? 0 then
        let w3 := snd (gpiod_get_value w2) in
        if level_after w =? 1 then (0, w3)
        else (- ENODEV, snd (pr_err MsgResetFailed w3))
      else (hd 0 (faults w),
            snd (pr_err (MsgChipNotReady (hd 0 (faults w))) w2))
    else (- ENODEV, snd (pr_err MsgInitFailed w1)).
Proof.
  unfold reset_check_nirq, bind at 1, gpiod_get_value at 1, level_before.
  cbv zeta. rewrite (Z.eqb_sym 0).
  destruct (hd 1 (nirq_levels w) =? 0); [|reflexivity].
  unfold bind at 1. rewrite regmap_read_run by reflexivity.
  cbn [faults]. destruct (hd 0 (faults w) =? 0); [|reflexivity].
  cbn [negb]. unfold bind at 1, gpiod_get_value at 1, level_after.
  cbn [nirq_levels after_read]. rewrite (Z.eqb_sym 1).
  destruct (hd 1 (tl (nirq_levels w)) =? 1); reflexivity.
Qed.

Lemma sx9324_reset_run src w :
  sx9324_reset src w =
    match src with
    | POWER_UP_RESET => reset_check_nirq (snd (udelay 1000 w))
    | SOFTWARE_RESET =>
        if hd 0 (faults w) =? 0
        then reset_check_nirq (after_write SX9324_RESET 0xde w)
        else (hd 0 (faults w),
              snd (pr_err (MsgSoftwareResetFailed (hd 0 (faults w)))
                     (after_write SX9324_RESET 0xde w)))
    end.
Proof.
  destruct src; cbn [sx9324_reset]; unfold bind at 1; [reflexivity|].
  rewrite regmap_write_run by reflexivity.
  destruct (hd 0 (faults w) =? 0); reflexivity.
Qed.

(** C2 (as amended).  A software reset whose command write fails
    returns that error without reading the line.  Otherwise, for both
    resets: when the line reads a nonzero level before the status read,
    the call returns [-ENODEV] and makes no register access after the
    reset command; when it reads [0] and the status read fails, the call
    returns the error of the read; when the level read after a
    successful status read is not [1], the call returns [-ENODEV]; and
    the call succeeds exactly when the line reads [0] before the status
    read, the read succeeds, and the line reads [1] after it. *)
Theorem reset_readiness (src : sx9324_reset_source) (w : world) :
  let '(error, w') := sx9324_reset src w in
  (command_fault src w <> 0 ->
     error = command_fault src w /\ nirq_levels w' = nirq_levels w)
  /\ (command_fault src w = 0 ->
      (level_before w <> 0 ->
         error = - ENODEV
         /\ bus_transactions (trace w') =
            (bus_transactions (trace w) + command_transfers src)%nat)
      /\ (level_before w = 0 -> status_read_fault src w <> 0 ->
          error = status_read_fault src w)
      /\ (level_before w = 0 -> status_read_fault src w = 0 ->
          level_after w <> 1 -> error = - ENODEV)
      /\ (error = 0 <->
          level_before w = 0 /\ status_read_fault src w = 0
          /\ level_after w = 1)).
Proof.
  rewrite sx9324_reset_run.
  assert (- ENODEV <> 0) as Hnodev by discriminate.
  destruct src; cbn [command_fault status_read_fault command_transfers].
  - rewrite reset_check_nirq_run. cbv zeta.
    change (level_before (snd (udelay 1000 w))) with (level_before w).
    change (level_after (snd (udelay 1000 w))) with (level_after w).
    change (faults (snd (udelay 1000 w))) with (faults w).
    destruct (level_before w =? 0) eqn:E1;
      [apply Z.eqb_eq in E1 | apply Z.eqb_neq in E1];
      [destruct (hd 0 (faults w) =? 0) eqn:Er;
       [apply Z.eqb_eq in Er | apply Z.eqb_neq in Er];
       [destruct (level_after w =? 1) eqn:E2;
        [apply Z.eqb_eq in E2 | apply Z.eqb_neq in E2]|]|];
      (split; [intros H; contradiction|]; intros _;
       repeat split; try tauto; try congruence; try intuition congruence).
    cbn. lia.
  - destruct (hd 0 (faults w) =? 0) eqn:Ec;
      [apply Z.eqb_eq in Ec | apply Z.eqb_neq in Ec].
    + rewrite reset_check_nirq_run. cbv zeta.
      change (level_before (after_write SX9324_RESET 222 w))
        with (level_before w).
      change (level_after (after_write SX9324_RESET 222 w))
        with (level_after w).
      change (faults (after_write SX9324_RESET 222 w)) with (tl (faults w)).
      destruct (level_before w =? 0) eqn:E1;
        [apply Z.eqb_eq in E1 | apply Z.eqb_neq in E1];
        [destruct (hd 0 (tl (faults w)) =? 0) eqn:Er;
         [apply Z.eqb_eq in Er | apply Z.eqb_neq in Er];
         [destruct (level_after w =? 1) eqn:E2;
          [apply Z.eqb_eq in E2 | apply Z.eqb_neq in E2]|]|];
        (split; [intros H; contradiction|]; intros _;
         repeat split; try tauto; try congruence; try intuition congruence).
      cbn. lia.
    + split; [|intros H; contradiction].
      intros _. split; reflexivity.
Qed.

Lemma reset_readiness_witness :
  let w := World (fun _ => 0) [] [0; 1] [] in
  sx9324_reset SOFTWARE_RESET w =
    (0, World (fun r => if r =? SX9324_RESET then 0xde else 0) [] []
          [GpioGet 1; BusRead SX9324_IRQ_SRC 0; GpioGet 0;
           BusWrite SX9324_RESET 0xde 0])
  /\ fst (sx9324_reset SOFTWARE_RESET w) = 0.
Proof.
  set (w := World (fun _ => 0) [] [0; 1] []).
  split; [reflexivity|].
  pose proof (reset_readiness SOFTWARE_RESET w) as H.
  destruct (sx9324_reset SOFTWARE_RESET w) as [error w'].
  destruct H as [_ H]. destruct (H eq_refl) as (_ & _ & _ & Hiff).
  apply Hiff. repeat split; reflexivity.
Defined.

(** The claim C2 as written fails, whichever of the two levels of the
    line is the asserted one: a power-up reset succeeds when the line
    reads [0] before the status read and [1] after it, so one of the two
    readings of a successful reset is of the asserted level. *)
Lemma reset_readiness_not_as_stated :
  ~ exists asserted : Z -> bool,
      asserted 0 <> asserted 1 /\ reset_readiness_as_stated asserted.
Proof.
  intros (asserted & Hne & Hclaim).
  specialize (Hclaim POWER_UP_RESET (World (fun _ => 0) [] [0; 1] [])
                eq_refl).
  cbn in Hclaim. destruct Hclaim as (_ & _ & H).
  destruct (H eq_refl) as [H0 H1]. congruence.
Qed.

(** ** Phase data readback *)

Lemma reg_value_after_read r w r' :
  reg_value (after_read r w) r' = reg_value w r'.
Proof. reflexivity. Qed.

Lemma regs_after_write r v w r' :
  r' <> r -> regs (after_write r v w) r' = regs w r'.
Proof.
  intros Hne. unfold after_write; cbn [regs].
  destruct (hd 0 (faults w) =? 0); [|reflexivity].
  apply Z.eqb_neq in Hne. rewrite Hne. reflexivity.
Qed.

Lemma reg_value_after_write r v w r' :
  r' <> r -> reg_value (after_write r v w) r' = reg_value w r'.
Proof. intros Hne. unfold reg_value. rewrite regs_after_write; auto. Qed.

Lemma phase_bit val i :
  (Z.land (Z.shiftr val (Z.of_nat i)) 1 =? 0) =
  negb (Z.testbit val (Z.of_nat i)).
Proof.
  rewrite land_shiftr_1 by lia. destruct (Z.testbit val (Z.of_nat i));
    reflexivity.
Qed.

Lemma update_phase_lookup_ne i j f d :
  i <> j -> phdata (update_phase i f d) !! j = phdata d !! j.
Proof. intros Hne. apply list_lookup_alter_ne. exact Hne. Qed.

Lemma update_phase_lookup_eq i f d :
  phdata (update_phase i f d) !! i = f <$> phdata d !! i.
Proof. apply list_lookup_alter_eq. Qed.

Ltac read_step :=
  unfold bind at 1; rewrite regmap_read_run by reflexivity; cbv beta iota.

(** A pair of reads both succeeded. *)
Ltac both_ok E :=
  apply Z.eqb_eq, Z.lor_eq_0_iff in E;
  let E1 := fresh "E" in let E2 := fresh "E" in
  destruct E as [E1 E2]; cbn [faults after_read after_write] in E1, E2 |- *;
  rewrite ?E1, ?E2; cbn [Z.eqb negb Z.lor].

Lemma read_phase_spec val stat0 stat1 stat2 i d w :
  let '(error, d1, w1) := read_phase val stat0 stat1 stat2 i d w in
  (forall r, r <> SX9324_PHASE_SEL -> regs w1 r = regs w r)
  /\ (forall j, j <> i -> phdata d1 !! j = phdata d !! j)
  /\ ((error = 0 /\ Z.testbit val (Z.of_nat i) = false /\ d1 = d)
      \/ (error = 0 /\ Z.testbit val (Z.of_nat i) = true
          /\ phdata d1 !! i =
             (fun _ => fresh_entry w stat0 stat1 stat2 i) <$> phdata d !! i)
      \/ (error <> 0 /\ Z.testbit val (Z.of_nat i) = true
          /\ forall x', phdata d1 !! i = Some x' ->
               exists x, phdata d !! i = Some x /\ given_up x x')).
Proof.
  unfold read_phase. rewrite phase_bit.
  destruct (Z.testbit val (Z.of_nat i)) eqn:Eb; cbn [negb].
  2: { split; [reflexivity|]. split; [reflexivity|]. left. auto. }
  unfold bind at 1. rewrite regmap_write_run by reflexivity.
  set (w0 := after_write SX9324_PHASE_SEL (Z.of_nat i) w).
  assert (forall r, r <> SX9324_PHASE_SEL -> regs w0 r = regs w r) as Hw0
    by (intros r Hr; apply regs_after_write, Hr).
  assert (forall r, r <> SX9324_PHASE_SEL -> reg_value w0 r = reg_value w r)
    as Hv0 by (intros r Hr; apply reg_value_after_write, Hr).
  assert (forall x' : sx9324_phase_data, phdata d !! i = Some x' ->
            exists x, phdata d !! i = Some x /\ given_up x x') as Hsame
    by (intros x' Hx; exists x'; split; [exact Hx | repeat split]).
  destruct (hd 0 (faults w) =? 0) eqn:Ew; cbn [negb];
    [clear Ew | apply Z.eqb_neq in Ew].
  2: { split; [exact Hw0|]. split; [reflexivity|]. right; right. auto. }
  read_step. read_step. cbv zeta.
  destruct (Z.lor _ _ =? 0) eqn:Hu; cbn [negb]; [|apply Z.eqb_neq in Hu].
  2: { split; [exact Hw0|]. split; [reflexivity|]. right; right. auto. }
  both_ok Hu.
  read_step. read_step.
  destruct (Z.lor _ _ =? 0) eqn:Ha; cbn [negb]; [|apply Z.eqb_neq in Ha].
  2: { split; [exact Hw0|].
       split; [intros j Hj; apply update_phase_lookup_ne; auto|].
       right; right. split; [exact Ha|]. split; [reflexivity|].
       intros x'. rewrite update_phase_lookup_eq.
       destruct (phdata d !! i) as [x|]; [|discriminate].
       intros [= <-]. exists x. split; [reflexivity | repeat split]. }
  both_ok Ha.
  read_step. read_step.
  destruct (Z.lor _ _ =? 0) eqn:Hdf; cbn [negb]; [|apply Z.eqb_neq in Hdf].
  2: { split; [exact Hw0|].
       split; [intros j Hj; rewrite !update_phase_lookup_ne; auto|].
       right; right. split; [exact Hdf|]. split; [reflexivity|].
       intros x'. rewrite !update_phase_lookup_eq.
       destruct (phdata d !! i) as [x|]; [|discriminate].
       intros [= <-]. exists x. split; [reflexivity | repeat split]. }
  both_ok Hdf.
  split; [exact Hw0|].
  split; [intros j Hj; rewrite !update_phase_lookup_ne; auto|].
  right; left. split; [reflexivity|]. split; [reflexivity|].
  rewrite !update_phase_lookup_eq.
  rewrite !reg_value_after_read, !Hv0 by discriminate.
  destruct (phdata d !! i) as [x|]; reflexivity.
Qed.

Lemma fresh_entry_ext w w' stat0 stat1 stat2 i :
  (forall r, r <> SX9324_PHASE_SEL -> regs w' r = regs w r) ->
  fresh_entry w' stat0 stat1 stat2 i = fresh_entry w stat0 stat1 stat2 i.
Proof.
  intros H. unfold fresh_entry, reg_value.
  rewrite !H by discriminate. reflexivity.
Qed.

(** The loop over the phases: what it leaves in the entries, from the
    data [d] and the world [w] it starts with. *)
Lemma read_phases_spec phases val stat0 stat1 stat2 :
  NoDup phases ->
  forall error d w,
    let '(error', d', w') :=
      read_phases phases val stat0 stat1 stat2 error d w in
    (forall r, r <> SX9324_PHASE_SEL -> regs w' r = regs w r)
    /\ (forall j, j ∉ phases -> phdata d' !! j = phdata d !! j)
    /\ (error <> 0 -> error' = error /\ d' = d)
    /\ (forall j x', phdata d' !! j = Some x' -> is_valid x' = true ->
          (exists x, phdata d !! j = Some x /\ is_valid x = true)
          \/ (Z.testbit val (Z.of_nat j) = true
              /\ x' = fresh_entry w stat0 stat1 stat2 j))
    /\ (exists k : nat,
          forall j x', phdata d' !! j = Some x' -> is_valid x' = false ->
            phdata d !! j = Some x'
            \/ (j = k /\ error' <> 0 /\ Z.testbit val (Z.of_nat j) = true
                /\ exists x, phdata d !! j = Some x /\ given_up x x')).
Proof.
  induction phases as [|i rest IH]; intros Hnd error d w.
  - cbn. split; [reflexivity|]. split; [reflexivity|]. split; [auto|].
    split; [eauto|]. exists 0%nat. auto.
  - apply NoDup_cons in Hnd. destruct Hnd as [Hi Hnd].
    cbn [read_phases].
    destruct (error =? 0) eqn:Ee;
      [apply Z.eqb_eq in Ee | apply Z.eqb_neq in Ee].
    2: { cbn. split; [reflexivity|]. split; [reflexivity|]. split; [auto|].
         split; [eauto|]. exists 0%nat. auto. }
    unfold bind at 1.
    pose proof (read_phase_spec val stat0 stat1 stat2 i d w) as Hstep.
    destruct (read_phase val stat0 stat1 stat2 i d w) as [[e1 d1] w1].
    specialize (IH Hnd e1 d1 w1).
    destruct (read_phases rest val stat0 stat1 stat2 e1 d1 w1)
      as [[e' d'] w'].
    destruct Hstep as (Hw1 & Hother & Hcase).
    destruct IH as (Hw' & Hrest & Hstop & Hvalid & k' & Hinvalid).
    assert (forall r, r <> SX9324_PHASE_SEL -> regs w' r = regs w r) as Hw
      by (intros r Hr; rewrite Hw', Hw1; auto).
    split; [exact Hw|]. split; [|split; [intros; contradiction|]; split].
    + intros j Hj. apply not_elem_of_cons in Hj. destruct Hj as [Hji Hj].
      rewrite Hrest, Hother; auto.
    + (* valid entries *)
      intros j x' Hj Hv.
      destruct (decide (j = i)) as [-> | Hne].
      * rewrite Hrest in Hj by exact Hi.
        destruct Hcase as [(_ & _ & ->) | [(_ & Hbit & Hd1) | (_ & _ & Hd1)]].
        -- left. eauto.
        -- right. split; [exact Hbit|].
           rewrite Hj in Hd1.
           destruct (phdata d !! i); [|discriminate].
           injection Hd1 as <-. reflexivity.
        -- left. destruct (Hd1 x' Hj) as (x & Hx & Hg & _).
           exists x. split; [exact Hx | congruence].
      * destruct (Hvalid j x' Hj Hv) as [(x1 & Hx1 & Hv1) | (Hbit & Hfresh)].
        -- left. exists x1. rewrite <- Hother by exact Hne. auto.
        -- right. split; [exact Hbit|].
           rewrite Hfresh. apply fresh_entry_ext, Hw1.
    + (* invalid entries *)
      destruct (Z.eq_dec e1 0) as [He1 | He1].
      * exists k'. intros j x' Hj Hv.
        destruct (decide (j = i)) as [-> | Hne].
        -- rewrite Hrest in Hj by exact Hi.
           destruct Hcase as [(_ & _ & ->) | [(_ & _ & Hd1) | (Hne1 & _)]].
           ++ left. exact Hj.
           ++ rewrite Hj in Hd1.
              destruct (phdata d !! i); [|discriminate].
              injection Hd1 as ->. discriminate.
           ++ contradiction.
        -- rewrite <- (Hother j Hne).
           destruct (Hinvalid j x' Hj Hv) as [Hx1 | H]; [left | right]; auto.
      * destruct (Hstop He1) as [-> ->].
        exists i. intros j x' Hj Hv.
        destruct (decide (j = i)) as [-> | Hne].
        -- destruct Hcase as [(Hz & _) | [(Hz & _) | (_ & Hbit & Hd1)]];
             try contradiction.
           right. split; [reflexivity|]. split; [exact He1|].
           split; [exact Hbit|]. apply Hd1, Hj.
        -- left. rewrite <- Hother by exact Hne. exact Hj.
Qed.

Lemma invalidate_phases_lookup d j :
  (j < SX9324_PHASES)%nat ->
  phdata (invalidate_phases d) !! j = set_is_valid false <$> phdata d !! j.
Proof.
  intros Hj. unfold invalidate_phases. cbn [seq fold_left PH0 SX9324_PHASES].
  unfold SX9324_PHASES in Hj.
  destruct j as [|[|[|[|j]]]]; [| | | |lia];
    repeat first [ rewrite update_phase_lookup_eq
                 | rewrite update_phase_lookup_ne by discriminate ];
    reflexivity.
Qed.

(** After the entries are invalidated and nothing else is done to them,
    each is its former self with the validity flag cleared. *)
Lemma invalidated_entry d i x x' :
  (i < SX9324_PHASES)%nat ->
  phdata d !! i = Some x -> phdata (invalidate_phases d) !! i = Some x' ->
  x' = set_is_valid false x /\ is_valid x' = false.
Proof.
  intros Hi Hx Hx'. rewrite invalidate_phases_lookup, Hx in Hx' by exact Hi.
  injection Hx' as <-. split; reflexivity.
Qed.

Lemma nth_1_tl (l : list Z) : nth 1 l 0 = hd 0 (tl l).
Proof. destruct l as [|a [|b l]]; reflexivity. Qed.
Lemma nth_2_tl (l : list Z) : nth 2 l 0 = hd 0 (tl (tl l)).
Proof. destruct l as [|a [|b [|c l]]]; reflexivity. Qed.
Lemma nth_3_tl (l : list Z) : nth 3 l 0 = hd 0 (tl (tl (tl l))).
Proof. destruct l as [|a [|b [|c [|e l]]]]; reflexivity. Qed.

(** C1 (as amended).  For every call of [sx9324_read_phdata], whatever
    it returns: an entry that is valid afterwards belongs to a phase
    whose bit is set in the enable value read in this call, and all its
    fields come from the reads of this call; an entry that is invalid
    afterwards is its former self with the validity flag cleared, so its
    measurement fields are untouched (not reset: they keep what an
    earlier call left), except for the one phase at which a register
    access failed, of which only the difference and the flags are known
    to be untouched; when the read of the enable register or a status
    read fails, and when no phase is enabled, all four entries are
    invalid and otherwise untouched. *)
Theorem read_phdata_snapshot_invariant (d : sx9324_data) (w : world) :
  let val := reg_value w SX9324_GNRL_CTRL_1 in
  let '(error, d', w') := sx9324_read_phdata d w in
  (forall i x', (i < SX9324_PHASES)%nat ->
     phdata d' !! i = Some x' -> is_valid x' = true ->
     hd 0 (faults w) = 0 /\ Z.testbit val (Z.of_nat i) = true
     /\ x' = fresh_entry w (reg_value w SX9324_STAT_0)
               (reg_value w SX9324_STAT_1) (reg_value w SX9324_STAT_2) i)
  /\ (exists k : nat, forall i x x', (i < SX9324_PHASES)%nat ->
        phdata d !! i = Some x -> phdata d' !! i = Some x' ->
        is_valid x' = false ->
        x' = set_is_valid false x
        \/ (i = k /\ error <> 0 /\ Z.testbit val (Z.of_nat i) = true
            /\ proxdiff x' = proxdiff x /\ stat x' = stat x))
  /\ (error = 0 -> forall i x x', (i < SX9324_PHASES)%nat ->
        phdata d !! i = Some x -> phdata d' !! i = Some x' ->
        is_valid x' = false ->
        x' = set_is_valid false x /\ measurements_untouched x x')
  /\ (early_failure w ->
      error <> 0
      /\ forall i x x', (i < SX9324_PHASES)%nat ->
           phdata d !! i = Some x -> phdata d' !! i = Some x' ->
           x' = set_is_valid false x)
  /\ (hd 0 (faults w) = 0 -> Z.land val SX9324_PHEN = 0 ->
      error = 0
      /\ forall i x x', (i < SX9324_PHASES)%nat ->
           phdata d !! i = Some x -> phdata d' !! i = Some x' ->
           x' = set_is_valid false x).
Proof.
  cbv zeta.
  pose (Post := fun (error : Z) (d' : sx9324_data) =>
    (forall i x', (i < SX9324_PHASES)%nat ->
       phdata d' !! i = Some x' -> is_valid x' = true ->
       hd 0 (faults w) = 0
       /\ Z.testbit (reg_value w SX9324_GNRL_CTRL_1) (Z.of_nat i) = true
       /\ x' = fresh_entry w (reg_value w SX9324_STAT_0)
                 (reg_value w SX9324_STAT_1) (reg_value w SX9324_STAT_2) i)
    /\ (exists k : nat, forall i x x', (i < SX9324_PHASES)%nat ->
          phdata d !! i = Some x -> phdata d' !! i = Some x' ->
          is_valid x' = false ->
          x' = set_is_valid false x
          \/ (i = k /\ error <> 0
              /\ Z.testbit (reg_value w SX9324_GNRL_CTRL_1) (Z.of_nat i) = true
              /\ proxdiff x' = proxdiff x /\ stat x' = stat x))
    /\ (error = 0 -> forall i x x', (i < SX9324_PHASES)%nat ->
          phdata d !! i = Some x -> phdata d' !! i = Some x' ->
          is_valid x' = false ->
          x' = set_is_valid false x /\ measurements_untouched x x')
    /\ (early_failure w ->
        error <> 0
        /\ forall i x x', (i < SX9324_PHASES)%nat ->
             phdata d !! i = Some x -> phdata d' !! i = Some x' ->
             x' = set_is_valid false x)
    /\ (hd 0 (faults w) = 0 ->
        Z.land (reg_value w SX9324_GNRL_CTRL_1) SX9324_PHEN = 0 ->
        error = 0
        /\ forall i x x', (i < SX9324_PHASES)%nat ->
             phdata d !! i = Some x -> phdata d' !! i = Some x' ->
             x' = set_is_valid false x)).
  change (let '(error, d', _) := sx9324_read_phdata d w in Post error d').
  assert (forall error,
    (early_failure w -> error <> 0) ->
    (hd 0 (faults w) = 0 ->
     Z.land (reg_value w SX9324_GNRL_CTRL_1) SX9324_PHEN = 0 -> error = 0) ->
    Post error (invalidate_phases d)) as Hall_invalid.
  { intros error Hearly Hempty. unfold Post.
    assert (forall i x x', (i < SX9324_PHASES)%nat ->
              phdata d !! i = Some x ->
              phdata (invalidate_phases d) !! i = Some x' ->
              x' = set_is_valid false x) as Hinv
      by (intros i x x' Hi Hx Hx'; eapply invalidated_entry; eauto).
    split; [|split; [|split; [|split]]].
    - intros i x' Hi Hx' Hv. exfalso.
      rewrite invalidate_phases_lookup in Hx' by exact Hi.
      destruct (phdata d !! i); [|discriminate].
      injection Hx' as <-. discriminate.
    - exists 0%nat. intros i x x' Hi Hx Hx' _. left. eauto.
    - intros _ i x x' Hi Hx Hx' _.
      rewrite (Hinv i x x' Hi Hx Hx'). repeat split.
    - intros He. split; [auto | exact Hinv].
    - intros H0 Hp. split; [auto | exact Hinv]. }
  unfold sx9324_read_phdata. cbv zeta. read_step.
  destruct (hd 0 (faults w) =? 0) eqn:E0; cbn [negb];
    [apply Z.eqb_eq in E0 | apply Z.eqb_neq in E0].
  2: { apply Hall_invalid; [auto | intros; contradiction]. }
  unfold bind at 1, mutex_lock at 1, emit at 1. cbv beta iota.
  unfold bind at 1.
  destruct (Z.land (reg_value w SX9324_GNRL_CTRL_1) SX9324_PHEN =? 0) eqn:Ep;
    cbn [negb]; [apply Z.eqb_eq in Ep | apply Z.eqb_neq in Ep].
  { unfold ret at 1. unfold bind at 1, mutex_unlock, emit, ret.
    cbv beta iota. rewrite E0. apply Hall_invalid.
    - intros [H | [H _]]; contradiction.
    - reflexivity. }
  read_step. read_step. read_step.
  unfold reg_value. cbn [faults after_read regs].
  fold (reg_value w SX9324_STAT_0) (reg_value w SX9324_STAT_1)
       (reg_value w SX9324_STAT_2) (reg_value w SX9324_GNRL_CTRL_1).
  match goal with
  | |- context [read_phases ?p ?v ?s0 ?s1 ?s2 ?e ?d0 ?w0] =>
      set (w5 := w0);
      pose proof (read_phases_spec p v s0 s1 s2 (NoDup_seq _ _) e d0 w5)
        as Hloop;
      destruct (read_phases p v s0 s1 s2 e d0 w5) as [[error d'] w']
  end.
  unfold bind at 1, mutex_unlock, emit, ret. cbv beta iota.
  destruct Hloop as (_ & _ & Hstop & Hvalid & k & Hinvalid).
  destruct (Z.eq_dec
    (Z.lor (Z.lor (hd 0 (tl (faults w))) (hd 0 (tl (tl (faults w)))))
           (hd 0 (tl (tl (tl (faults w)))))) 0) as [Hs | Hs].
  2: { destruct (Hstop Hs) as [-> ->].
       apply Hall_invalid; [auto | intros; contradiction]. }
  clear Hstop.
  apply Z.lor_eq_0_iff in Hs. destruct Hs as [Hs Hs2].
  apply Z.lor_eq_0_iff in Hs. destruct Hs as [Hs0 Hs1].
  rewrite Hs0, Hs1, Hs2 in *. cbn [Z.eqb] in *.
  assert (forall j, fresh_entry w5 (reg_value w SX9324_STAT_0)
                      (reg_value w SX9324_STAT_1) (reg_value w SX9324_STAT_2) j
                    = fresh_entry w (reg_value w SX9324_STAT_0)
                      (reg_value w SX9324_STAT_1) (reg_value w SX9324_STAT_2) j)
    as Hfresh by (intros j; apply fresh_entry_ext; reflexivity).
  unfold Post. split; [|split; [|split; [|split]]].
  - intros i x' Hi Hx' Hv.
    destruct (Hvalid i x' Hx' Hv) as [(x & Hx & Hvx) | (Hbit & Hx)].
    + exfalso. rewrite invalidate_phases_lookup in Hx by exact Hi.
      destruct (phdata d !! i); [|discriminate].
      injection Hx as <-. discriminate.
    + rewrite Hfresh in Hx. auto.
  - exists k. intros i x x' Hi Hx Hx' Hv.
    destruct (Hinvalid i x' Hx' Hv) as [H | (Hk & He & Hbit & x0 & Hx0 & Hg)].
    + left. eapply invalidated_entry; eauto.
    + right. destruct (invalidated_entry d i x x0 Hi Hx Hx0) as [-> _].
      destruct Hg as (_ & Hgd & Hgs). auto.
  - intros He i x x' Hi Hx Hx' Hv.
    destruct (Hinvalid i x' Hx' Hv) as [H | (_ & Hne & _)];
      [|contradiction].
    destruct (invalidated_entry d i x x' Hi Hx H) as [-> _].
    repeat split.
  - intros [H | (_ & H)]; [contradiction|].
    rewrite nth_1_tl, nth_2_tl, nth_3_tl in H.
    destruct H as [H | [H | H]]; contradiction.
  - intros _ Hp. contradiction.
Qed.

(** The measurement fields of a completed readback are the
    two's-complement values of the byte pairs of the register file. *)
Lemma fresh_entry_signed16 w stat0 stat1 stat2 i :
  let x := fresh_entry w stat0 stat1 stat2 i in
  proxuseful x = twos_complement16 (256 * reg_value w SX9324_USE_MSB
                                    + reg_value w SX9324_USE_LSB)
  /\ proxavg x = twos_complement16 (256 * reg_value w SX9324_AVG_MSB
                                    + reg_value w SX9324_AVG_LSB)
  /\ proxdiff x = twos_complement16 (256 * reg_value w SX9324_DIFF_MSB
                                     + reg_value w SX9324_DIFF_LSB).
Proof.
  assert (forall r1 r2,
    prox_value (reg_value w r1) (reg_value w r2) =
    twos_complement16 (256 * reg_value w r1 + reg_value w r2)) as H.
  { intros r1 r2. unfold prox_value.
    pose proof (reg_value_range w r1). pose proof (reg_value_range w r2).
    rewrite byte_pair_value by lia. apply twos_complement16_wrap. lia. }
  cbv zeta. cbn [fresh_entry proxuseful proxavg proxdiff].
  rewrite !H. repeat split.
Qed.

(** A failure at a later phase leaves the entries of the phases
    completed before it valid: here the phases 0 and 2 are enabled and
    the selection of phase 2 fails. *)
Example read_phdata_late_failure :
  let zero := PhaseData false 0 0 0 (PhaseStat 0 0 0 0 0 0) in
  let d := DrvData true true [zero; zero; zero; zero] in
  let w := World (fun r => if r =? SX9324_GNRL_CTRL_1 then 0x05 else 0)
                 [0; 0; 0; 0; 0; 0; 0; 0; 0; 0; 0; - EIO] [] [] in
  let '(error, d', w') := sx9324_read_phdata d w in
  error = - EIO
  /\ is_valid <$> phdata d' = [true; false; false; false].
Proof.
  cbv zeta. set (r := sx9324_read_phdata _ _). vm_compute in r. subst r.
  split; reflexivity.
Qed.

Lemma read_phdata_snapshot_invariant_witness :
  let zero := PhaseData false 0 0 0 (PhaseStat 0 0 0 0 0 0) in
  let stale := PhaseData true 7 8 9 (PhaseStat 1 1 1 1 1 1) in
  let d := DrvData true true [zero; stale; zero; zero] in
  let w := World (fun r => if r =? SX9324_GNRL_CTRL_1 then 0x05
                           else if r =? SX9324_USE_MSB then 0xff
                           else if r =? SX9324_USE_LSB then 0xfe
                           else if r =? SX9324_STAT_0 then 0x41
                           else 0) [] [] [] in
  fst (fst (sx9324_read_phdata d w)) = 0
  /\ phdata (snd (fst (sx9324_read_phdata d w))) !! 1%nat =
     Some (PhaseData false 7 8 9 (PhaseStat 1 1 1 1 1 1))
  /\ forall x',
       phdata (snd (fst (sx9324_read_phdata d w))) !! 2%nat = Some x' ->
       is_valid x' = true ->
       proxuseful x' = -2 /\ steady (stat x') = 1 /\ prox (stat x') = 0.
Proof.
  cbv zeta.
  set (d := DrvData true true _). set (w := World _ [] [] []).
  pose proof (read_phdata_snapshot_invariant d w) as H. cbv zeta in H.
  destruct (sx9324_read_phdata d w) as [[error d'] w'] eqn:Erun.
  cbn [fst snd]. destruct H as (Hvalid & _ & Hinvalid & _).
  assert (error = 0) as He by (vm_compute in Erun; congruence).
  split; [exact He|]. split.
  - assert (exists x', phdata d' !! 1%nat = Some x' /\ is_valid x' = false)
      as (x' & Hx' & Hv)
      by (vm_compute in Erun; injection Erun as _ <- _; eexists; split;
          reflexivity).
    rewrite Hx'. f_equal.
    apply (Hinvalid He 1%nat (PhaseData true 7 8 9 (PhaseStat 1 1 1 1 1 1)) x');
      [unfold SX9324_PHASES; lia | reflexivity | exact Hx' | exact Hv].
  - intros x' Hx' Hv.
    destruct (Hvalid 2%nat x' ltac:(unfold SX9324_PHASES; lia) Hx' Hv)
      as (_ & _ & ->).
    repeat split; reflexivity.
Defined.

(** The claim C1 as written fails: after an acquisition from zeroed
    data in which the read of the useful value of phase 0 succeeds and
    the next read fails, the entry of phase 0 is invalid and its useful
    field is [0x1234], neither what it was nor zero. *)
Lemma read_phdata_invalid_entry_touched :
  let zero := PhaseData false 0 0 0 (PhaseStat 0 0 0 0 0 0) in
  let d := DrvData true true [zero; zero; zero; zero] in
  let w := World (fun r => if r =? SX9324_GNRL_CTRL_1 then 0x01
                           else if r =? SX9324_USE_MSB then 0x12
                           else if r =? SX9324_USE_LSB then 0x34
                           else 0)
                 [0; 0; 0; 0; 0; 0; 0; - EIO] [] [] in
  let '(error, d', w') := sx9324_read_phdata d w in
  error = - EIO
  /\ phdata d' !! 0%nat =
     Some (PhaseData false 0x1234 0 0 (PhaseStat 0 0 0 0 0 0))
  /\ ~ (forall i x x', (i < SX9324_PHASES)%nat ->
          phdata d !! i = Some x -> phdata d' !! i = Some x' ->
          is_valid x' = false -> measurements_untouched x x').
Proof.
  cbv zeta. set (r := sx9324_read_phdata _ _). vm_compute in r. subst r.
  cbv beta iota.
  split; [reflexivity|]. split; [reflexivity|].
  intros H.
  destruct (H 0%nat (PhaseData false 0 0 0 (PhaseStat 0 0 0 0 0 0))
              (PhaseData false 0x1234 0 0 (PhaseStat 0 0 0 0 0 0))
              ltac:(unfold SX9324_PHASES; lia) eq_refl eq_refl eq_refl)
    as (Hu & _).
  discriminate Hu.
Qed.

(** ** Phase data readback: the call as a whole *)

Lemma sx9324_read_phdata_run d w :
  sx9324_read_phdata d w =
    if hd 0 (faults w) =? 0 then
      let val := reg_value w SX9324_GNRL_CTRL_1 in
      let w1 := snd (mutex_lock (after_read SX9324_GNRL_CTRL_1 w)) in
      if Z.land val SX9324_PHEN =? 0
      then (0, invalidate_phases d, snd (mutex_unlock w1))
      else
        let e0 := hd 0 (tl (faults w)) in
        let e1 := hd 0 (tl (tl (faults w))) in
        let e2 := hd 0 (tl (tl (tl (faults w)))) in
        let r :=
          read_phases (seq PH0 SX9324_PHASES) val
            (if e0 =? 0 then reg_value w SX9324_STAT_0 else 0)
            (if e1 =? 0 then reg_value w SX9324_STAT_1 else 0)
            (if e2 =? 0 then reg_value w SX9324_STAT_2 else 0)
            (Z.lor (Z.lor e0 e1) e2) (invalidate_phases d)
            (after_read SX9324_STAT_2
               (after_read SX9324_STAT_1 (after_read SX9324_STAT_0 w1))) in
        (fst (fst r), snd (fst r), snd (mutex_unlock (snd r)))
    else (hd 0 (faults w), invalidate_phases d,
          after_read SX9324_GNRL_CTRL_1 w).
Proof.
  unfold sx9324_read_phdata. cbv zeta. read_step.
  destruct (hd 0 (faults w) =? 0) eqn:E0; cbn [negb]; [|reflexivity].
  apply Z.eqb_eq in E0.
  unfold bind at 1, mutex_lock at 1, emit at 1. cbv beta iota.
  unfold bind at 1.
  destruct (Z.land (reg_value w SX9324_GNRL_CTRL_1) SX9324_PHEN =? 0);
    cbn [negb].
  - unfold ret at 1. unfold bind at 1, mutex_unlock, emit, ret.
    cbv beta iota. rewrite E0. reflexivity.
  - read_step. read_step. read_step.
    unfold reg_value. cbn [faults after_read regs].
    fold (reg_value w SX9324_STAT_0) (reg_value w SX9324_STAT_1)
         (reg_value w SX9324_STAT_2) (reg_value w SX9324_GNRL_CTRL_1).
    unfold mutex_lock, emit.
    cbn [snd regs faults nirq_levels trace after_read].
    match goal with
    | |- context [read_phases ?p ?v ?s0 ?s1 ?s2 ?e ?d0 ?w0] =>
        destruct (read_phases p v s0 s1 s2 e d0 w0) as [[error d'] w']
    end.
    reflexivity.
Qed.

(** A loop that ends with success has read every enabled phase of its
    list and left the other entries alone. *)
Lemma read_phases_success phases val stat0 stat1 stat2 :
  NoDup phases ->
  forall d w,
    fst (fst (read_phases phases val stat0 stat1 stat2 0 d w)) = 0 ->
    forall j,
      phdata (snd (fst (read_phases phases val stat0 stat1 stat2 0 d w))) !! j
      = if bool_decide (j ∈ phases) && Z.testbit val (Z.of_nat j)
        then (fun _ => fresh_entry w stat0 stat1 stat2 j) <$> phdata d !! j
        else phdata d !! j.
Proof.
  induction phases as [|i rest IH]; intros Hnd d w.
  - cbn. intros _ j. reflexivity.
  - apply NoDup_cons in Hnd. destruct Hnd as [Hi Hnd].
    cbn [read_phases Z.eqb]. unfold bind at 1 2.
    pose proof (read_phase_spec val stat0 stat1 stat2 i d w) as Hstep.
    destruct (read_phase val stat0 stat1 stat2 i d w) as [[e1 d1] w1].
    destruct Hstep as (Hw1 & Hother & Hcase).
    pose proof (read_phases_spec rest val stat0 stat1 stat2 Hnd e1 d1 w1)
      as Hspec.
    specialize (IH Hnd d1 w1).
    destruct (Z.eq_dec e1 0) as [-> | Hne].
    + destruct (read_phases rest val stat0 stat1 stat2 0 d1 w1)
        as [[e' d'] w'].
      cbn [fst snd] in *. intros He' j. rewrite (IH He' j).
      destruct (decide (j = i)) as [-> | Hji].
      * rewrite (bool_decide_eq_false_2 _ Hi). cbn [andb].
        rewrite (bool_decide_eq_true_2 (i ∈ i :: rest))
          by (apply elem_of_cons; left; reflexivity).
        cbn [andb].
        destruct Hcase as [(_ & Hb & ->) | [(_ & Hb & Hd1) | (Hz & _)]].
        -- rewrite Hb. reflexivity.
        -- rewrite Hb. exact Hd1.
        -- contradiction.
      * rewrite (Hother j Hji).
        replace (bool_decide (j ∈ i :: rest)) with (bool_decide (j ∈ rest)).
        2: { apply bool_decide_ext. rewrite elem_of_cons. tauto. }
        rewrite (fresh_entry_ext w w1) by exact Hw1. reflexivity.
    + destruct (read_phases rest val stat0 stat1 stat2 e1 d1 w1)
        as [[e' d'] w'].
      destruct Hspec as (_ & _ & Hstop & _).
      destruct (Hstop Hne) as [-> ->]. cbn [fst]. intros; contradiction.
Qed.

(** The entries after a successful acquisition. *)
Lemma read_phdata_success_entries (d : sx9324_data) (w : world) :
  fst (fst (sx9324_read_phdata d w)) = 0 ->
  let val := reg_value w SX9324_GNRL_CTRL_1 in
  let d' := snd (fst (sx9324_read_phdata d w)) in
  forall i x, (i < SX9324_PHASES)%nat -> phdata d !! i = Some x ->
    phdata d' !! i =
      Some (if Z.testbit val (Z.of_nat i)
            then fresh_entry w (reg_value w SX9324_STAT_0)
                   (reg_value w SX9324_STAT_1) (reg_value w SX9324_STAT_2) i
            else set_is_valid false x)
    /\ (forall x', phdata d' !! i = Some x' ->
          is_valid x' = Z.testbit val (Z.of_nat i)).
Proof.
  rewrite sx9324_read_phdata_run. cbv zeta.
  assert (forall i x,
    (i < SX9324_PHASES)%nat -> phdata d !! i = Some x ->
    forall (d' : sx9324_data) (b : bool) (y : sx9324_phase_data),
      is_valid y = true ->
      phdata d' !! i = Some (if b then y else set_is_valid false x) ->
      phdata d' !! i = Some (if b then y else set_is_valid false x)
      /\ (forall x', phdata d' !! i = Some x' -> is_valid x' = b)) as Hfin.
  { intros i x Hi Hx d' b y Hy Hd'. split; [exact Hd'|].
    intros x'. rewrite Hd'. intros [= <-]. destruct b; [exact Hy | reflexivity]. }
  destruct (hd 0 (faults w) =? 0) eqn:E0;
    [|apply Z.eqb_neq in E0; cbn [fst]; intros; contradiction].
  destruct (Z.land (reg_value w SX9324_GNRL_CTRL_1) SX9324_PHEN =? 0) eqn:Ep.
  - apply Z.eqb_eq in Ep. cbn [fst snd]. intros _ i x Hi Hx.
    assert (Z.testbit (reg_value w SX9324_GNRL_CTRL_1) (Z.of_nat i) = false)
      as Hb.
    { assert (Z.testbit (Z.land (reg_value w SX9324_GNRL_CTRL_1) SX9324_PHEN)
                (Z.of_nat i) = false) as H by (rewrite Ep; apply Z.bits_0).
      rewrite Z.land_spec in H. change SX9324_PHEN with (Z.ones 4) in H.
      unfold SX9324_PHASES in Hi.
      rewrite Z.ones_spec_low, andb_true_r in H by lia. exact H. }
    rewrite Hb.
    apply (Hfin i x Hi Hx _ false (set_is_valid true x) eq_refl).
    rewrite invalidate_phases_lookup, Hx by exact Hi. reflexivity.
  - cbn [fst snd]. intros Hok i x Hi Hx.
    set (e := Z.lor _ _) in *.
    assert (e = 0) as He.
    { destruct (Z.eq_dec e 0) as [H | H]; [exact H|]. exfalso.
      match type of Hok with
      | fst (fst (read_phases ?p ?v ?s0 ?s1 ?s2 _ ?d0 ?w0)) = 0 =>
          pose proof (read_phases_spec p v s0 s1 s2 (NoDup_seq _ _) e d0 w0)
            as Hs;
          destruct (read_phases p v s0 s1 s2 e d0 w0) as [[e' d'] w']
      end.
      destruct Hs as (_ & _ & Hstop & _). destruct (Hstop H) as [-> _].
      cbn [fst] in Hok. contradiction. }
    subst e. rewrite He in *.
    apply Z.lor_eq_0_iff in He. destruct He as [He He2].
    apply Z.lor_eq_0_iff in He. destruct He as [He0 He1].
    rewrite He0, He1, He2 in *. cbn [Z.eqb] in *.
    pose proof (read_phases_success _ _ _ _ _ (NoDup_seq _ _) _ _ Hok i)
      as Hloop.
    rewrite bool_decide_eq_true_2 in Hloop
      by (apply elem_of_seq; unfold PH0; lia).
    cbn [andb] in Hloop.
    rewrite invalidate_phases_lookup, Hx in Hloop by exact Hi.
    rewrite (fresh_entry_ext w) in Hloop by reflexivity.
    apply (Hfin i x Hi Hx _
             (Z.testbit (reg_value w SX9324_GNRL_CTRL_1) (Z.of_nat i))
             (fresh_entry w (reg_value w SX9324_STAT_0)
                (reg_value w SX9324_STAT_1) (reg_value w SX9324_STAT_2) i)
             eq_refl).
    rewrite Hloop.
    destruct (Z.testbit (reg_value w SX9324_GNRL_CTRL_1) (Z.of_nat i));
      reflexivity.
Qed.

(** ** Signed reconstruction in the readback *)

Lemma prox_value_pair w msb lsb :
  prox_value (reg_value w msb) (reg_value w lsb) = pair_value w msb lsb.
Proof.
  unfold prox_value, pair_value.
  pose proof (reg_value_range w msb). pose proof (reg_value_range w lsb).
  apply twos_complement16_wrap. rewrite byte_pair_value by lia. lia.
Qed.

Lemma pair_value_range w msb lsb :
  -32768 <= pair_value w msb lsb <= 32767
  /\ (pair_value w msb lsb) mod 65536
     = 256 * reg_value w msb + reg_value w lsb.
Proof.
  rewrite <- prox_value_pair.
  pose proof (reg_value_range w msb). pose proof (reg_value_range w lsb).
  apply prox_value_byte_pair; lia.
Qed.

Lemma pair_value_ext w w' msb lsb :
  msb <> SX9324_PHASE_SEL -> lsb <> SX9324_PHASE_SEL ->
  (forall r, r <> SX9324_PHASE_SEL -> regs w' r = regs w r) ->
  pair_value w' msb lsb = pair_value w msb lsb.
Proof.
  intros Hm Hl H. unfold pair_value, reg_value. rewrite !H by assumption.
  reflexivity.
Qed.

Lemma stored_from_refl w x : stored_from w x x.
Proof. unfold stored_from. tauto. Qed.

Lemma stored_from_trans w w1 x x1 x' :
  (forall r, r <> SX9324_PHASE_SEL -> regs w1 r = regs w r) ->
  stored_from w x x1 -> stored_from w1 x1 x' -> stored_from w x x'.
Proof.
  intros Hw. unfold stored_from, measured.
  rewrite !(pair_value_ext w w1) by (assumption || discriminate).
  intros (Hu & Ha & Hd & Hv) (Hu' & Ha' & Hd' & Hv').
  repeat split; intuition congruence.
Qed.

(** The entries after assignments to the entry [i]. *)
Ltac entry_after i :=
  let j := fresh "j" in let x := fresh "x" in let Hx := fresh "Hx" in
  unfold ret; cbn [fst snd];
  intros j x Hx;
  destruct (decide (j = i)) as [-> | ?];
  [ rewrite !update_phase_lookup_eq, Hx; cbn [fmap option_fmap option_map];
    eexists; split; [reflexivity|];
    unfold stored_from, measured;
    cbn [set_proxuseful set_proxavg set_proxdiff set_stat set_is_valid
         proxuseful proxavg proxdiff is_valid];
    tauto
  | rewrite ?update_phase_lookup_ne by auto;
    exists x; split; [exact Hx | apply stored_from_refl] ].

(** One turn of the loop: every value it stores in a measurement field
    is the signed value of the register pair of that field. *)
Lemma read_phase_values val stat0 stat1 stat2 i d w :
  forall j x, phdata d !! j = Some x ->
    exists x',
      phdata (snd (fst (read_phase val stat0 stat1 stat2 i d w))) !! j
      = Some x'
      /\ stored_from w x x'.
Proof.
  assert (forall j x, phdata d !! j = Some x ->
            exists x', phdata d !! j = Some x' /\ stored_from w x x') as Hsame
    by (intros j x Hx; exists x; split; [exact Hx | apply stored_from_refl]).
  unfold read_phase. rewrite phase_bit.
  destruct (Z.testbit val (Z.of_nat i)); cbn [negb]; [|exact Hsame].
  unfold bind at 1. rewrite regmap_write_run by reflexivity.
  set (w0 := after_write SX9324_PHASE_SEL (Z.of_nat i) w).
  assert (forall r, r <> SX9324_PHASE_SEL -> reg_value w0 r = reg_value w r)
    as Hv0 by (intros r Hr; apply reg_value_after_write, Hr).
  destruct (hd 0 (faults w) =? 0); cbn [negb]; [|exact Hsame].
  read_step. read_step. cbv zeta.
  destruct (Z.lor _ _ =? 0) eqn:Hu; cbn [negb]; [|exact Hsame].
  both_ok Hu.
  read_step. read_step.
  rewrite !reg_value_after_read, !Hv0, !prox_value_pair by discriminate.
  destruct (Z.lor _ _ =? 0) eqn:Ha; cbn [negb]; [|entry_after i].
  both_ok Ha.
  read_step. read_step.
  rewrite !reg_value_after_read, !Hv0, !prox_value_pair by discriminate.
  destruct (Z.lor _ _ =? 0) eqn:Hdf; cbn [negb];
    [|entry_after i].
  both_ok Hdf.
  rewrite ?reg_value_after_read, ?prox_value_pair. entry_after i.
Qed.

(** The loop over the phases stores nothing else either. *)
Lemma read_phases_values phases val stat0 stat1 stat2 :
  forall error d w j x, phdata d !! j = Some x ->
    exists x',
      phdata (snd (fst (read_phases phases val stat0 stat1 stat2
                          error d w))) !! j = Some x'
      /\ stored_from w x x'.
Proof.
  induction phases as [|i rest IH]; intros error d w j x Hx.
  - exists x. split; [exact Hx | apply stored_from_refl].
  - cbn [read_phases]. destruct (error =? 0).
    2: { exists x. split; [exact Hx | apply stored_from_refl]. }
    unfold bind at 1.
    pose proof (read_phase_spec val stat0 stat1 stat2 i d w) as Hstep.
    destruct (read_phase_values val stat0 stat1 stat2 i d w j x Hx)
      as (x1 & Hx1 & H1).
    destruct (read_phase val stat0 stat1 stat2 i d w) as [[e1 d1] w1].
    cbn [fst snd] in Hx1. destruct Hstep as (Hw1 & _).
    destruct (IH e1 d1 w1 j x1 Hx1) as (x' & Hx' & H').
    exists x'. split; [exact Hx'|].
    exact (stored_from_trans w w1 x x1 x' Hw1 H1 H').
Qed.

(** The whole acquisition, from the entry as it was before the call. *)
Lemma read_phdata_values d w i x :
  (i < SX9324_PHASES)%nat -> phdata d !! i = Some x ->
  exists x',
    phdata (snd (fst (sx9324_read_phdata d w))) !! i = Some x'
    /\ stored_from w (set_is_valid false x) x'.
Proof.
  intros Hi Hx.
  assert (phdata (invalidate_phases d) !! i = Some (set_is_valid false x))
    as Hinv by (rewrite invalidate_phases_lookup, Hx by exact Hi; reflexivity).
  rewrite sx9324_read_phdata_run. cbv zeta.
  destruct (hd 0 (faults w) =? 0); cbn [fst snd].
  2: { eexists. split; [exact Hinv | apply stored_from_refl]. }
  destruct (Z.land (reg_value w SX9324_GNRL_CTRL_1) SX9324_PHEN =? 0);
    cbn [fst snd].
  { eexists. split; [exact Hinv | apply stored_from_refl]. }
  match goal with
  | |- context [read_phases ?p ?v ?s0 ?s1 ?s2 ?e ?d0 ?w0] =>
      destruct (read_phases_values p v s0 s1 s2 e d0 w0 i _ Hinv)
        as (x' & Hx' & H')
  end.
  exists x'. split; [exact Hx'|].
  eapply stored_from_trans; [|apply stored_from_refl|exact H'].
  reflexivity.
Qed.

(** C6.  Every value that [sx9324_read_phdata] stores in a measurement
    field is the two's-complement signed 16-bit reading of
    [(MSB << 8) | LSB] for the register pair of that field: after a call,
    whatever it returns, each of the fields useful, average and
    difference of an entry either is as before the call or is the signed
    value of its own pair (useful from USE_MSB/USE_LSB, average from
    AVG_MSB/AVG_LSB, difference from DIFF_MSB/DIFF_LSB); in an entry that
    is valid all three are the signed values of their pairs; and after a
    success the entry of every enabled phase is valid.  The signed value
    of a pair lies in [-32768 .. 32767] and is congruent to
    [256 * MSB + LSB] modulo [2 ^ 16], and the cast of the source,
    [(short)((msb << 8) | lsb)], is that reading for every pair of
    bytes.  In particular [0xFF, 0xFF] gives [-1], [0x00, 0x01] gives
    [1] and [0x80, 0x00] gives [-32768]. *)
Theorem read_phdata_values_signed16 (d : sx9324_data) (w : world) (i : nat)
    (x : sx9324_phase_data) :
  (i < SX9324_PHASES)%nat -> phdata d !! i = Some x ->
  let '(error, d', w') := sx9324_read_phdata d w in
  (exists x',
     phdata d' !! i = Some x'
     /\ (proxuseful x' = proxuseful x
         \/ proxuseful x' = pair_value w SX9324_USE_MSB SX9324_USE_LSB)
     /\ (proxavg x' = proxavg x
         \/ proxavg x' = pair_value w SX9324_AVG_MSB SX9324_AVG_LSB)
     /\ (proxdiff x' = proxdiff x
         \/ proxdiff x' = pair_value w SX9324_DIFF_MSB SX9324_DIFF_LSB)
     /\ (is_valid x' = true ->
         proxuseful x' = pair_value w SX9324_USE_MSB SX9324_USE_LSB
         /\ proxavg x' = pair_value w SX9324_AVG_MSB SX9324_AVG_LSB
         /\ proxdiff x' = pair_value w SX9324_DIFF_MSB SX9324_DIFF_LSB)
     /\ (error = 0 ->
         Z.testbit (reg_value w SX9324_GNRL_CTRL_1) (Z.of_nat i) = true ->
         is_valid x' = true))
  /\ (forall msb lsb,
        -32768 <= pair_value w msb lsb <= 32767
        /\ (pair_value w msb lsb) mod 65536
           = 256 * reg_value w msb + reg_value w lsb)
  /\ (forall msb lsb, 0 <= msb < 256 -> 0 <= lsb < 256 ->
        prox_value msb lsb = twos_complement16 (Z.lor (Z.shiftl msb 8) lsb))
  /\ prox_value 0xff 0xff = -1
  /\ prox_value 0x00 0x01 = 1
  /\ prox_value 0x80 0x00 = -32768.
Proof.
  intros Hi Hx.
  destruct (read_phdata_values d w i x Hi Hx) as (x' & Hx' & Hu & Ha & Hd & Hv).
  pose proof (read_phdata_success_entries d w) as Hok.
  destruct (sx9324_read_phdata d w) as [[error d'] w']. cbn [fst snd] in *.
  split; [|split; [|split]].
  - exists x'. split; [exact Hx'|].
    split; [exact Hu|]. split; [exact Ha|]. split; [exact Hd|]. split.
    + intros Hvalid. destruct (Hv Hvalid) as [H | H]; [discriminate H|].
      exact H.
    + intros He Hbit. destruct (Hok He i x Hi Hx) as [_ Hvalid].
      rewrite (Hvalid x' Hx'). exact Hbit.
  - intros msb lsb. apply pair_value_range.
  - intros msb lsb Hm Hl. apply prox_value_byte_pair; assumption.
  - repeat split; reflexivity.
Qed.

Lemma read_phdata_values_signed16_witness :
  let zero := PhaseData false 0 0 0 (PhaseStat 0 0 0 0 0 0) in
  let d := DrvData false false [zero; zero; zero; zero] in
  let w := World (fun r => if r =? SX9324_GNRL_CTRL_1 then 0x01
                           else if r =? SX9324_USE_MSB then 0xff
                           else if r =? SX9324_USE_LSB then 0xff
                           else if r =? SX9324_AVG_LSB then 0x01
                           else if r =? SX9324_DIFF_MSB then 0x80
                           else 0) [] [] [] in
  exists x',
    phdata (snd (fst (sx9324_read_phdata d w))) !! 0%nat = Some x'
    /\ is_valid x' = true
    /\ proxuseful x' = -1 /\ proxavg x' = 1 /\ proxdiff x' = -32768.
Proof.
  cbv zeta.
  match goal with
  | |- context [sx9324_read_phdata ?d ?w] =>
      pose proof (read_phdata_values_signed16 d w 0
                    (PhaseData false 0 0 0 (PhaseStat 0 0 0 0 0 0))
                    ltac:(unfold SX9324_PHASES; lia) eq_refl) as H;
      destruct (sx9324_read_phdata d w) as [[error d'] w'] eqn:E
  end.
  destruct H as ((x' & Hx' & _ & _ & _ & Hm & Hv) & _).
  assert (error = 0) as He by (vm_compute in E; congruence).
  exists x'. split; [exact Hx'|].
  specialize (Hv He eq_refl). split; [exact Hv|].
  destruct (Hm Hv) as (Hu & Ha & Hd).
  rewrite Hu, Ha, Hd. repeat split; reflexivity.
Defined.

(** * Further properties of the driver *)

(** ** Access policy of the register map *)

Ltac policy_to_Prop :=
  unfold sx9324_writeable_reg, sx9324_readable_reg, in_range;
  rewrite <- ?not_true_iff_false;
  rewrite ?orb_true_iff, ?andb_true_iff, ?Z.leb_le, ?Z.eqb_eq;
  unfold SX9324_IRQ_SRC, SX9324_IRQ_MSK, SX9324_IRQ_CFG_2, SX9324_GNRL_CTRL_0,
    SX9324_GNRL_CTRL_1, SX9324_I2C_ADDR, SX9324_CLK_SPRD, SX9324_AFE_CTRL_0,
    SX9324_AFE_CTRL_3, SX9324_AFE_CTRL_4, SX9324_AFE_CTRL_6,
    SX9324_AFE_CTRL_9, SX9324_PROX_CTRL_0, SX9324_PROX_CTRL_7,
    SX9324_ADV_CTRL_0, SX9324_ADV_CTRL_20, SX9324_PHASE_SEL,
    SX9324_OFFSET_MSB, SX9324_OFFSET_LSB, SX9324_SAR_LSB, SX9324_RESET,
    SX9324_WHO_AM_I, SX9324_REV.

(** X1.  The reset register is the only write-only register: a register
    is writeable and not readable exactly when it is [SX9324_RESET]. *)
Theorem write_only_is_reset (r : Z) :
  sx9324_writeable_reg r = true /\ sx9324_readable_reg r = false
  <-> r = SX9324_RESET.
Proof. policy_to_Prop. lia. Qed.

(** X2.  The read-only registers are the interrupt source, the four
    status registers, the useful, average and difference readback
    registers, the SAR readback registers and the two identification
    registers; and every register the policy accepts has an 8-bit
    address. *)
Theorem read_only_registers (r : Z) :
  (sx9324_readable_reg r = true /\ sx9324_writeable_reg r = false
   <-> SX9324_IRQ_SRC <= r <= SX9324_STAT_3
       \/ SX9324_USE_MSB <= r <= SX9324_DIFF_LSB
       \/ SX9324_SAR_MSB <= r <= SX9324_SAR_LSB
       \/ r = SX9324_WHO_AM_I \/ r = SX9324_REV)
  /\ (sx9324_readable_reg r = true \/ sx9324_writeable_reg r = true ->
      0 <= r <= 0xff).
Proof.
  split.
  - policy_to_Prop.
    unfold SX9324_STAT_3, SX9324_USE_MSB, SX9324_DIFF_LSB, SX9324_SAR_MSB.
    lia.
  - policy_to_Prop. lia.
Qed.

(** ** Software defaults: lookup and application *)

(** X3.  [sx9324_get_software_default], over any table: it reports
    absence exactly when no entry of the table has the address, and
    otherwise returns the value of the first entry that has it. *)
Theorem get_software_default_first_match (tbl : list reg_default) (r : Z) :
  (get_software_default_from tbl r = None <->
   forall e, In e tbl -> reg e <> r)
  /\ (forall v, get_software_default_from tbl r = Some v <->
        exists pre e post,
          tbl = pre ++ e :: post /\ reg e = r /\ def e = v
          /\ forall e', In e' pre -> reg e' <> r).
Proof.
  induction tbl as [|e tbl [IHn IHs]]; cbn [get_software_default_from].
  - split.
    + split; [intros _ e [] | reflexivity].
    + intros v. split; [discriminate|].
      intros (pre & e & post & H & _). destruct pre; discriminate.
  - destruct (Z.eqb_spec (reg e) r) as [Heq | Hne].
    + split.
      * split; [discriminate|]. intros H. exfalso.
        apply (H e); [left; reflexivity | exact Heq].
      * intros v. split.
        -- intros [= <-]. exists [], e, tbl.
           repeat split; auto.
        -- intros (pre & e0 & post & Ht & Hr & Hv & Hpre).
           destruct pre as [|p pre].
           ++ injection Ht as <- _. congruence.
           ++ injection Ht as <- _. exfalso.
              apply (Hpre e); [left; reflexivity | exact Heq].
    + split.
      * rewrite IHn. split.
        -- intros H e' [<- | Hin]; auto.
        -- intros H e' Hin. apply H. right. exact Hin.
      * intros v. rewrite IHs. split.
        -- intros (pre & e0 & post & Ht & Hr & Hv & Hpre).
           exists (e :: pre), e0, post. rewrite Ht.
           repeat split; auto. intros e' [<- | Hin]; auto.
        -- intros (pre & e0 & post & Ht & Hr & Hv & Hpre).
           destruct pre as [|p pre].
           ++ injection Ht as <- _. contradiction.
           ++ injection Ht as <- ->. exists pre, e0, post.
              repeat split; auto. intros e' Hin. apply Hpre. right. exact Hin.
Qed.

(** A successful application of the defaults means that the four writes
    succeeded. *)
Lemma reset_software_default_success w :
  fst (sx9324_reset_software_default w) = 0 ->
  sx9324_reset_software_default w =
    (0, defaults_world 4 sx9324_reg_defaults w).
Proof.
  intros Hok. unfold sx9324_reset_software_default in *.
  assert (forall k ek, sx9324_reg_defaults !! k = Some ek ->
            (forall n, (n < k)%nat -> nth n (faults w) 0 = 0) ->
            nth k (faults w) 0 = 0) as Hstep.
  { intros k ek Hk Hz.
    destruct (Z.eq_dec (nth k (faults w) 0) 0) as [H0 | Hne]; [exact H0|].
    rewrite (reset_software_default_from_fail _ reg_defaults_writeable
               k ek w Hk Hz Hne) in Hok.
    cbn [fst] in Hok. contradiction. }
  assert (nth 0 (faults w) 0 = 0) as H0
    by (eapply (Hstep 0%nat); [reflexivity | intros; lia]).
  assert (nth 1 (faults w) 0 = 0) as H1.
  { eapply (Hstep 1%nat); [reflexivity|].
    intros [|n] Hn; [exact H0 | lia]. }
  assert (nth 2 (faults w) 0 = 0) as H2.
  { eapply (Hstep 2%nat); [reflexivity|].
    intros [|[|n]] Hn; [exact H0 | exact H1 | lia]. }
  assert (nth 3 (faults w) 0 = 0) as H3.
  { eapply (Hstep 3%nat); [reflexivity|].
    intros [|[|[|n]]] Hn; [exact H0 | exact H1 | exact H2 | lia]. }
  apply (reset_software_default_from_ok _ reg_defaults_writeable).
  intros [|[|[|[|n]]]] Hn; cbn in Hn; auto; lia.
Qed.

(** X4.  After [sx9324_reset_software_default] returned success, every
    address for which [sx9324_get_software_default] knows a value holds
    that value, and every other register is as it was: the lookup and
    the application of the table agree. *)
Theorem software_defaults_applied (w : world) (r : Z) :
  fst (sx9324_reset_software_default w) = 0 ->
  let w' := snd (sx9324_reset_software_default w) in
  match sx9324_get_software_default r with
  | Some v => reg_value w' r = v
  | None => regs w' r = regs w r
  end.
Proof.
  intros Hok. rewrite (reset_software_default_success w Hok).
  cbv zeta. cbn [snd]. unfold reg_value.
  unfold sx9324_get_software_default, defaults_world.
  cbn [regs take sx9324_reg_defaults written_defaults fold_left
       get_software_default_from reg def].
  unfold write_default. cbn [reg def].
  rewrite !(Z.eqb_sym _ r).
  destruct (Z.eqb_spec r SX9324_IRQ_MSK) as [-> | H1]; [reflexivity|].
  destruct (Z.eqb_spec r SX9324_GNRL_CTRL_0) as [-> | H2]; [reflexivity|].
  destruct (Z.eqb_spec r SX9324_AFE_PH_0) as [-> | H3]; [reflexivity|].
  destruct (Z.eqb_spec r SX9324_GNRL_CTRL_1) as [-> | H4]; reflexivity.
Qed.

Lemma software_defaults_applied_witness :
  let w := World (fun _ => 0xaa) [] [] [] in
  reg_value (snd (sx9324_reset_software_default w)) SX9324_AFE_PH_0 = 0x29
  /\ regs (snd (sx9324_reset_software_default w)) SX9324_AFE_CTRL_0 = 0xaa.
Proof.
  cbv zeta. split.
  - apply (software_defaults_applied (World (fun _ => 0xaa) [] [] [])
             SX9324_AFE_PH_0). reflexivity.
  - apply (software_defaults_applied (World (fun _ => 0xaa) [] [] [])
             SX9324_AFE_CTRL_0). reflexivity.
Defined.

(** X5.  With the software defaults applied the chip is in doze mode:
    when [sx9324_reset_software_default] and the [sx9324_get_mode] that
    follows it both succeed, the mode read is Doze, whatever the
    registers held before. *)
Theorem software_defaults_give_doze (old : Z) (w : world) :
  let '(error1, w1) := sx9324_reset_software_default w in
  let '(error2, mode, w2) := sx9324_get_mode old w1 in
  error1 = 0 -> error2 = 0 -> mode = SX9324_DOZE.
Proof.
  pose proof (reset_software_default_success w) as Hrun.
  destruct (sx9324_reset_software_default w) as [error1 w1].
  pose proof (get_mode_of_fields old w1) as Hg.
  destruct (sx9324_get_mode old w1) as [[error2 mode] w2].
  cbn [fst snd] in *. intros -> ->.
  specialize (Hrun eq_refl). injection Hrun as ->.
  rewrite (Hg eq_refl). reflexivity.
Qed.

Lemma software_defaults_give_doze_witness :
  let w := World (fun _ => 0) [] [] [] in
  snd (fst (sx9324_get_mode SX9324_SLEEP
              (snd (sx9324_reset_software_default w)))) = SX9324_DOZE.
Proof.
  cbv zeta.
  pose proof (software_defaults_give_doze SX9324_SLEEP
                (World (fun _ => 0) [] [] [])) as H.
  destruct (sx9324_reset_software_default _) as [error1 w1] eqn:E1.
  cbn [snd].
  destruct (sx9324_get_mode SX9324_SLEEP w1) as [[error2 mode] w2] eqn:E2.
  cbn [fst snd]. apply H.
  - vm_compute in E1. congruence.
  - injection E1 as _ <-. vm_compute in E2. congruence.
Defined.


(** ** Operational mode: repeated requests *)

(** When the field already has the requested bits, the update is a read
    and nothing else. *)
Lemma regmap_update_bits_settled r mask val w :
  sx9324_readable_reg r = true -> sx9324_writeable_reg r = true ->
  Z.land (reg_value w r) mask = Z.land val mask ->
  regmap_update_bits r mask val w = (hd 0 (faults w), after_read r w).
Proof.
  intros Hr Hw Hf. rewrite regmap_update_bits_run by assumption.
  destruct (hd 0 (faults w) =? 0) eqn:E0; [|reflexivity].
  apply Z.eqb_eq in E0. rewrite E0. cbv zeta.
  rewrite <- Hf, Z.lor_ldiff_and, Z.eqb_refl. reflexivity.
Qed.

(** X6.  Repeating a mode request writes nothing: after a successful
    [sx9324_set_mode] of Active, Doze or Sleep, a second call with the
    same mode only reads the control registers, whatever the outcome of
    its reads, and leaves every register as it is. *)
Theorem set_mode_twice_writes_nothing (target : Z) (w : world) :
  target = SX9324_ACTIVE \/ target = SX9324_DOZE \/ target = SX9324_SLEEP ->
  fst (sx9324_set_mode target w) = 0 ->
  let w1 := snd (sx9324_set_mode target w) in
  let w2 := snd (sx9324_set_mode target w1) in
  (forall r, regs w2 r = regs w1 r)
  /\ exists reads,
       trace w2 = reads ++ trace w1
       /\ forallb is_bus_read reads = true
       /\ (length reads <= 2)%nat.
Proof.
  destruct ctrl_regs_accessible as (R0 & W0 & R1 & W1).
  intros Ht Hok. pose proof (set_mode_fields target w Ht Hok) as Hf.
  cbv zeta in *. set (w1 := snd (sx9324_set_mode target w)) in *.
  destruct Hf as (Hp & Ha & Hd).
  rewrite (sx9324_set_mode_run target w1).
  destruct Ht as [-> | [-> | ->]]; cbn [Z.eqb orb SX9324_ACTIVE SX9324_DOZE
    SX9324_SLEEP Pos.eqb] in *; cbv zeta.
  - rewrite (regmap_update_bits_settled SX9324_GNRL_CTRL_1 SX9324_PHEN 33 w1)
      by (assumption || (rewrite Hp; reflexivity)).
    cbn [fst snd].
    rewrite (regmap_update_bits_settled SX9324_GNRL_CTRL_0 SX9324_DOZEPERIOD
               0 (after_read SX9324_GNRL_CTRL_1 w1))
      by (assumption || (rewrite reg_value_after_read, (Ha eq_refl);
                         reflexivity)).
    cbn [fst snd]. split; [reflexivity|].
    eexists [_; _]. repeat split. cbn. lia.
  - rewrite (regmap_update_bits_settled SX9324_GNRL_CTRL_1 SX9324_PHEN 33 w1)
      by (assumption || (rewrite Hp; reflexivity)).
    cbn [fst snd].
    rewrite (regmap_update_bits_settled SX9324_GNRL_CTRL_0 SX9324_DOZEPERIOD
               69 (after_read SX9324_GNRL_CTRL_1 w1))
      by (assumption || (rewrite reg_value_after_read, (Hd eq_refl);
                         reflexivity)).
    cbn [fst snd]. split; [reflexivity|].
    eexists [_; _]. repeat split. cbn. lia.
  - rewrite (regmap_update_bits_settled SX9324_GNRL_CTRL_1 SX9324_PHEN 0 w1)
      by (assumption || (rewrite Hp; reflexivity)).
    cbn [snd]. split; [reflexivity|].
    eexists [_]. repeat split. cbn. lia.
Qed.

Lemma set_mode_twice_writes_nothing_witness :
  let w := World (fun _ => 0xff) [] [] [] in
  let w1 := snd (sx9324_set_mode SX9324_ACTIVE w) in
  let w2 := snd (sx9324_set_mode SX9324_ACTIVE w1) in
  (forall r, regs w2 r = regs w1 r)
  /\ exists reads,
       trace w2 = reads ++ trace w1
       /\ forallb is_bus_read reads = true
       /\ (length reads <= 2)%nat.
Proof.
  apply (set_mode_twice_writes_nothing SX9324_ACTIVE
           (World (fun _ => 0xff) [] [] [])).
  - left; reflexivity.
  - reflexivity.
Defined.

(** ** Reset: its bus traffic *)

(** The events by which a trace [t] has grown from [base]. *)
Ltac prefix_of t base :=
  match t with
  | base => constr:(@nil event)
  | ?a :: ?t' => let p := prefix_of t' base in constr:(a :: p)
  end.

Ltac grown_trace :=
  cbn;
  match goal with
  | |- exists evs, ?t = evs ++ ?base /\ _ =>
      let p := prefix_of t base in exists p
  end;
  split; [reflexivity|].

(** X9.  The bus traffic of a reset, in the order of the transfers: a
    software reset begins with the write of the command 0xde to the
    reset register and a power-up reset writes nothing; then, only if
    the command did not fail and the first reading of the interrupt line
    was 0, follows one read, of the interrupt source register; there is
    no other transfer.  The line is read at most twice, and not at all
    when the command write fails. *)
Theorem reset_bus_traffic (src : sx9324_reset_source) (w : world) :
  let '(error, w') := sx9324_reset src w in
  exists evs,
    trace w' = evs ++ trace w
    /\ rev (List.filter is_bus_event evs) =
       match src with
       | POWER_UP_RESET => []
       | SOFTWARE_RESET => [BusWrite SX9324_RESET 0xde (hd 0 (faults w))]
       end
       ++ (if (command_fault src w =? 0) && (level_before w =? 0)
           then [BusRead SX9324_IRQ_SRC (status_read_fault src w)]
           else [])
    /\ (src = SOFTWARE_RESET ->
        last evs = Some (BusWrite SX9324_RESET 0xde (hd 0 (faults w))))
    /\ (length (List.filter is_line_sample evs) <= 2)%nat
    /\ (command_fault src w <> 0 -> List.filter is_line_sample evs = []).
Proof.
  rewrite sx9324_reset_run.
  destruct src; cbn [command_fault status_read_fault].
  - rewrite reset_check_nirq_run. cbv zeta.
    change (level_before (snd (udelay 1000 w))) with (level_before w).
    change (level_after (snd (udelay 1000 w))) with (level_after w).
    change (faults (snd (udelay 1000 w))) with (faults w).
    cbn [Z.eqb andb app].
    destruct (level_before w =? 0);
      [destruct (hd 0 (faults w) =? 0); [destruct (level_after w =? 1)|]|];
      grown_trace;
      cbn; (split; [reflexivity|]); (split; [discriminate|]);
      (split; [lia|]); intros H; now contradiction H.
  - destruct (hd 0 (faults w) =? 0) eqn:E0.
    + rewrite reset_check_nirq_run. cbv zeta.
      change (level_before (after_write SX9324_RESET 0xde w))
        with (level_before w).
      change (level_after (after_write SX9324_RESET 0xde w))
        with (level_after w).
      change (faults (after_write SX9324_RESET 0xde w)) with (tl (faults w)).
      cbn [andb app].
      apply Z.eqb_eq in E0.
      destruct (level_before w =? 0);
        [destruct (hd 0 (tl (faults w)) =? 0);
         [destruct (level_after w =? 1)|]|];
        grown_trace;
        cbn; (split; [reflexivity|]); (split; [reflexivity|]);
        (split; [lia|]); intros H; now contradiction H.
    + cbn [andb app].
      grown_trace.
      cbn. split; [reflexivity|]. split; [reflexivity|].
      split; [lia|]. reflexivity.
Qed.

(** ** Phase data readback: completeness, frame and locking *)

(** X7.  A successful acquisition is complete: each of the four entries
    is, when the bit of its phase is set in the enable register, the
    entry read from the chip in this call, and otherwise its former self
    with the validity flag cleared.  So after a success an entry is
    valid exactly when its phase is enabled. *)
Theorem read_phdata_success_complete (d : sx9324_data) (w : world) :
  fst (fst (sx9324_read_phdata d w)) = 0 ->
  let val := reg_value w SX9324_GNRL_CTRL_1 in
  let d' := snd (fst (sx9324_read_phdata d w)) in
  forall i x, (i < SX9324_PHASES)%nat -> phdata d !! i = Some x ->
    phdata d' !! i =
      Some (if Z.testbit val (Z.of_nat i)
            then fresh_entry w (reg_value w SX9324_STAT_0)
                   (reg_value w SX9324_STAT_1) (reg_value w SX9324_STAT_2) i
            else set_is_valid false x)
    /\ (forall x', phdata d' !! i = Some x' ->
          is_valid x' = Z.testbit val (Z.of_nat i)).
Proof. exact (read_phdata_success_entries d w). Qed.

Lemma read_phdata_success_complete_witness :
  let stale := PhaseData true 7 8 9 (PhaseStat 1 1 1 1 1 1) in
  let d := DrvData true true [stale; stale; stale; stale] in
  let w := World (fun r => if r =? SX9324_GNRL_CTRL_1 then 0x08
                           else if r =? SX9324_AVG_LSB then 0x03 else 0)
                 [] [] [] in
  phdata (snd (fst (sx9324_read_phdata d w))) !! 3%nat =
    Some (PhaseData true 0 3 0 (PhaseStat 0 0 0 0 0 0))
  /\ phdata (snd (fst (sx9324_read_phdata d w))) !! 0%nat =
    Some (PhaseData false 7 8 9 (PhaseStat 1 1 1 1 1 1)).
Proof.
  cbv zeta.
  set (d := DrvData true true _). set (w := World _ [] [] []).
  assert (fst (fst (sx9324_read_phdata d w)) = 0) as Hok by reflexivity.
  pose proof (read_phdata_success_complete d w Hok) as H. cbv zeta in H.
  split.
  - apply (H 3%nat (PhaseData true 7 8 9 (PhaseStat 1 1 1 1 1 1)));
      [unfold SX9324_PHASES; lia | reflexivity].
  - apply (H 0%nat (PhaseData true 7 8 9 (PhaseStat 1 1 1 1 1 1)));
      [unfold SX9324_PHASES; lia | reflexivity].
Defined.













(** ** The mode attribute *)

(** What [sx9324_mode_show] writes, from the registers. *)
Lemma sx9324_mode_show_run (mode : Z) (w : world) :
  let sleep := Z.land (reg_value w SX9324_GNRL_CTRL_1) SX9324_PHEN =? 0 in
  let doze :=
    negb (Z.land (reg_value w SX9324_GNRL_CTRL_0) SX9324_DOZEPERIOD =? 0) in
  let '(written, buf, w') := sx9324_mode_show mode w in
  w' = snd (sx9324_get_mode mode w)
  /\ (fst (fst (sx9324_get_mode mode w)) <> 0 ->
      written = 0 /\ buf = ""%string)
  /\ (fst (fst (sx9324_get_mode mode w)) = 0 ->
      written = 24
      /\ buf = mode_text (negb sleep && negb doze) (negb sleep && doze) sleep).
Proof.
  cbv zeta. unfold sx9324_mode_show, bind. rewrite sx9324_get_mode_run.
  assert (forall e : Z, e <> 0 -> (e =? 0) = false) as Hneq
    by (intros e He; apply Z.eqb_neq, He).
  destruct (hd 0 (faults w) =? 0) eqn:E0.
  - destruct (Z.land _ SX9324_PHEN =? 0).
    + cbn. split; [reflexivity|].
      split; [intros H; exfalso; apply H; reflexivity|].
      intros _. split; reflexivity.
    + cbv zeta. destruct (hd 0 (tl (faults w)) =? 0) eqn:E1.
      * destruct (Z.land _ SX9324_DOZEPERIOD =? 0); cbn;
          (split; [reflexivity|];
           split; [intros H; exfalso; apply H; reflexivity|];
           intros _; split; reflexivity).
      * apply Z.eqb_neq in E1. rewrite (Hneq _ E1). cbn.
        split; [reflexivity|]. split; [auto | intros; contradiction].
  - apply Z.eqb_neq in E0. rewrite (Hneq _ E0). cbn.
    split; [reflexivity|]. split; [auto | intros; contradiction].
Qed.

(** X11.  [sx9324_mode_show] writes nothing and returns 0 when
    [sx9324_get_mode] fails; otherwise it writes the three lines active,
    doze, sleep, 24 characters, with the mark on exactly one of them:
    on sleep when the phase-enable field is zero, else on doze when the
    doze-period field is nonzero, else on active. *)
Theorem mode_show_marks_one_line (mode : Z) (w : world) :
  let sleep := Z.land (reg_value w SX9324_GNRL_CTRL_1) SX9324_PHEN =? 0 in
  let doze :=
    negb (Z.land (reg_value w SX9324_GNRL_CTRL_0) SX9324_DOZEPERIOD =? 0) in
  let '(written, buf, w') := sx9324_mode_show mode w in
  w' = snd (sx9324_get_mode mode w)
  /\ (fst (fst (sx9324_get_mode mode w)) <> 0 ->
      written = 0 /\ buf = ""%string)
  /\ (fst (fst (sx9324_get_mode mode w)) = 0 ->
      written = 24
      /\ buf = mode_text (negb sleep && negb doze) (negb sleep && doze) sleep).
Proof. exact (sx9324_mode_show_run mode w). Qed.

(** The world after a store of a text that starts with a keyword. *)
Lemma mode_store_keyword_world (count : Z) (w : world) (rest : String.string) :
  count <> 0 ->
  snd (sx9324_mode_store (Some (String.append "active" rest)) count w) =
    snd (sx9324_set_mode SX9324_ACTIVE w)
  /\ snd (sx9324_mode_store (Some (String.append "doze" rest)) count w) =
     snd (sx9324_set_mode SX9324_DOZE w)
  /\ snd (sx9324_mode_store (Some (String.append "sleep" rest)) count w) =
     snd (sx9324_set_mode SX9324_SLEEP w).
Proof.
  intros Hc. apply Z.eqb_neq in Hc.
  assert (String.prefix "" rest = true) as Hnil
    by (destruct rest; reflexivity).
  unfold sx9324_mode_store, strncmp_is_0.
  repeat split; rewrite Hc; cbn [negb];
    cbn [String.prefix String.append Ascii.ascii_dec Ascii.ascii_rec
         Ascii.ascii_rect sumbool_rec sumbool_rect Bool.bool_dec bool_rec
         bool_rect eq_rec_r eq_rec eq_rect eq_sym];
    rewrite Hnil; unfold bind, ret;
    match goal with
    | |- context [sx9324_set_mode ?m w] => destruct (sx9324_set_mode m w)
    end; reflexivity.
Qed.

(** X12.  [sx9324_mode_store] looks only at the start of the text: a
    text that starts with [active], [doze] or [sleep] requests that
    mode, whatever follows the keyword; any other text, a null buffer
    and a zero count touch nothing.  The call returns [count] in every
    case: a failure of [sx9324_set_mode] is not reported. *)
Theorem mode_store_keywords (buf : option String.string) (count : Z)
    (w : world) :
  fst (sx9324_mode_store buf count w) = count
  /\ (count <> 0 -> forall rest,
      (buf = Some (String.append "active" rest) ->
       snd (sx9324_mode_store buf count w) =
       snd (sx9324_set_mode SX9324_ACTIVE w))
      /\ (buf = Some (String.append "doze" rest) ->
          snd (sx9324_mode_store buf count w) =
          snd (sx9324_set_mode SX9324_DOZE w))
      /\ (buf = Some (String.append "sleep" rest) ->
          snd (sx9324_mode_store buf count w) =
          snd (sx9324_set_mode SX9324_SLEEP w)))
  /\ (buf = None \/ count = 0
      \/ (exists text, buf = Some text
            /\ String.prefix "active" text = false
            /\ String.prefix "doze" text = false
            /\ String.prefix "sleep" text = false) ->
      snd (sx9324_mode_store buf count w) = w).
Proof.
  split; [|split].
  - unfold sx9324_mode_store, strncmp_is_0, bind.
    destruct buf as [text|]; [|reflexivity].
    destruct (count =? 0); cbn [negb]; [reflexivity|].
    destruct (String.prefix "active" text);
      [destruct (sx9324_set_mode SX9324_ACTIVE w); reflexivity|].
    destruct (String.prefix "doze" text);
      [destruct (sx9324_set_mode SX9324_DOZE w); reflexivity|].
    destruct (String.prefix "sleep" text);
      [destruct (sx9324_set_mode SX9324_SLEEP w); reflexivity|].
    reflexivity.
  - intros Hc rest.
    destruct (mode_store_keyword_world count w rest Hc) as (Ha & Hd & Hs).
    repeat split; intros ->; assumption.
  - unfold sx9324_mode_store, strncmp_is_0, bind, ret.
    intros [-> | [-> | (text & -> & Ha & Hd & Hs)]].
    + reflexivity.
    + destruct buf; reflexivity.
    + rewrite Ha, Hd, Hs. destruct (negb (count =? 0)); reflexivity.
Qed.

Lemma mode_store_keywords_witness :
  let w := World (fun _ => 0xff) [] [] [] in
  fst (sx9324_mode_store (Some "sleepy"%string) 6 w) = 6
  /\ snd (sx9324_mode_store (Some "sleepy"%string) 6 w) =
     snd (sx9324_set_mode SX9324_SLEEP w)
  /\ snd (sx9324_mode_store (Some "Doze"%string) 4 w) = w.
Proof.
  cbv zeta. set (w := World (fun _ => 0xff) [] [] []).
  destruct (mode_store_keywords (Some "sleepy"%string) 6 w)
    as (Hc & Hk & _).
  destruct (mode_store_keywords (Some "Doze"%string) 4 w) as (_ & _ & Hu).
  split; [exact Hc|]. split.
  - destruct (Hk ltac:(discriminate) "y"%string) as (_ & _ & Hs).
    apply Hs. reflexivity.
  - apply Hu. right; right. exists "Doze"%string. repeat split.
Defined.

(** Without a failing access [sx9324_set_mode] succeeds and leaves a
    script without failure. *)
Lemma set_mode_no_fault target w :
  target = SX9324_ACTIVE \/ target = SX9324_DOZE \/ target = SX9324_SLEEP ->
  Forall (eq 0) (faults w) ->
  fst (sx9324_set_mode target w) = 0
  /\ Forall (eq 0) (faults (snd (sx9324_set_mode target w))).
Proof.
  destruct ctrl_regs_accessible as (R0 & W0 & R1 & W1).
  intros Ht Hz. rewrite sx9324_set_mode_run.
  destruct Ht as [-> | [-> | ->]]; cbn [Z.eqb orb SX9324_ACTIVE SX9324_DOZE
    SX9324_SLEEP Pos.eqb]; cbv zeta; cbn [fst snd].
  - destruct (regmap_update_bits_no_fault SX9324_GNRL_CTRL_1 SX9324_PHEN
                33 w R1 W1 Hz) as [E1 Hz1].
    destruct (regmap_update_bits_no_fault SX9324_GNRL_CTRL_0
                SX9324_DOZEPERIOD 0 _ R0 W0 Hz1) as [E2 Hz2].
    rewrite E1, E2. split; [reflexivity | exact Hz2].
  - destruct (regmap_update_bits_no_fault SX9324_GNRL_CTRL_1 SX9324_PHEN
                33 w R1 W1 Hz) as [E1 Hz1].
    destruct (regmap_update_bits_no_fault SX9324_GNRL_CTRL_0
                SX9324_DOZEPERIOD 69 _ R0 W0 Hz1) as [E2 Hz2].
    rewrite E1, E2. split; [reflexivity | exact Hz2].
  - apply regmap_update_bits_no_fault; assumption.
Qed.

(** X13.  Round trip through the mode attribute: when no register
    access fails, after a store of a text that starts with [active],
    [doze] or [sleep] the attribute reads back with the mark on that
    mode and on no other, from every register state. *)
Theorem mode_store_show_round_trip (rest : String.string) (count mode : Z)
    (w : world) :
  count <> 0 -> Forall (eq 0) (faults w) ->
  let shown text :=
    snd (fst (sx9324_mode_show mode
                (snd (sx9324_mode_store (Some text) count w)))) in
  shown (String.append "active" rest) = mode_text true false false
  /\ shown (String.append "doze" rest) = mode_text false true false
  /\ shown (String.append "sleep" rest) = mode_text false false true.
Proof.
  intros Hc Hz. cbv zeta.
  destruct (mode_store_keyword_world count w rest Hc) as (-> & -> & ->).
  assert (forall target,
    target = SX9324_ACTIVE \/ target = SX9324_DOZE \/ target = SX9324_SLEEP ->
    snd (fst (sx9324_mode_show mode (snd (sx9324_set_mode target w)))) =
    mode_text (target =? SX9324_ACTIVE) (target =? SX9324_DOZE)
              (target =? SX9324_SLEEP)) as H.
  { intros target Ht.
    destruct (set_mode_no_fault target w Ht Hz) as [Hok Hz1].
    pose proof (set_mode_fields target w Ht Hok) as Hf. cbv zeta in Hf.
    set (w1 := snd (sx9324_set_mode target w)) in *.
    pose proof (sx9324_mode_show_run mode w1) as Hs. cbv zeta in Hs.
    pose proof (get_mode_no_fault mode w1 Hz1) as Hg.
    destruct (sx9324_mode_show mode w1) as [[written buf] w2].
    destruct Hs as (_ & _ & Hs). destruct (Hs Hg) as [_ ->].
    cbn [fst snd]. destruct Hf as (Hp & Ha & Hd).
    rewrite Hp.
    destruct Ht as [-> | [-> | ->]].
    - rewrite (Ha eq_refl). reflexivity.
    - rewrite (Hd eq_refl). reflexivity.
    - reflexivity. }
  split; [|split]; apply H; auto.
Qed.

Lemma mode_store_show_round_trip_witness :
  let w := World (fun _ => 0) [] [] [] in
  snd (fst (sx9324_mode_show 0
              (snd (sx9324_mode_store (Some (String.append "doze" newline))
                      5 w)))) = mode_text false true false.
Proof.
  cbv zeta.
  destruct (mode_store_show_round_trip newline 5 0
              (World (fun _ => 0) [] [] [])) as (_ & H & _);
    [discriminate | constructor | exact H].
Defined.

(** ** The phase data attribute *)

Lemma string_append_assoc (a b c : String.string) :
  String.append (String.append a b) c = String.append a (String.append b c).
Proof. induction a as [|ch a IH]; cbn; [reflexivity | rewrite IH; reflexivity]. Qed.

Lemma string_append_nil_r (a : String.string) :
  String.append a ""%string = a.
Proof. induction a as [|ch a IH]; cbn; [reflexivity | rewrite IH; reflexivity]. Qed.

(** X14.  [sx9324_phdata_show] returns the number of characters it
    wrote.  When the acquisition fails it writes the two header lines
    only; when it succeeds it writes, after the header, one line for
    each phase whose bit is set in the enable register, in the order of
    the phases, with the values read in this acquisition, and no line
    for the other phases. *)
Theorem phdata_show_lists_enabled (d : sx9324_data) (w : world) :
  length (phdata d) = SX9324_PHASES ->
  let error := fst (fst (sx9324_read_phdata d w)) in
  let '(written, buf, d', w') := sx9324_phdata_show d w in
  written = Z.of_nat (String.length buf)
  /\ d' = snd (fst (sx9324_read_phdata d w))
  /\ w' = snd (sx9324_read_phdata d w)
  /\ (error <> 0 -> buf = phdata_header)
  /\ (error = 0 ->
      buf = String.append phdata_header
              (enabled_lines w (reg_value w SX9324_GNRL_CTRL_1)
                 (seq PH0 SX9324_PHASES))).
Proof.
  intros Hlen. cbv zeta. unfold sx9324_phdata_show, bind, ret.
  pose proof (read_phdata_success_entries d w) as Hent. cbv zeta in Hent.
  destruct (sx9324_read_phdata d w) as [[error d'] w']. cbn [fst snd] in *.
  split; [reflexivity|]. split; [reflexivity|]. split; [reflexivity|].
  destruct (error =? 0) eqn:Ee;
    [apply Z.eqb_eq in Ee | apply Z.eqb_neq in Ee].
  2: { split; [reflexivity | intros; contradiction]. }
  split; [intros; contradiction|]. intros _.
  specialize (Hent Ee).
  destruct (phdata d) as [|x0 [|x1 [|x2 [|x3 [|x4 l]]]]] eqn:Hd;
    try discriminate Hlen.
  destruct (Hent 0%nat x0 ltac:(unfold SX9324_PHASES; lia) eq_refl) as [H0 _].
  destruct (Hent 1%nat x1 ltac:(unfold SX9324_PHASES; lia) eq_refl) as [H1 _].
  destruct (Hent 2%nat x2 ltac:(unfold SX9324_PHASES; lia) eq_refl) as [H2 _].
  destruct (Hent 3%nat x3 ltac:(unfold SX9324_PHASES; lia) eq_refl) as [H3 _].
  unfold enabled_lines, PH0, SX9324_PHASES.
  cbn [seq phdata_lines map String.concat].
  rewrite H0, H1, H2, H3.
  change (Z.of_nat 0) with 0; change (Z.of_nat 1) with 1;
    change (Z.of_nat 2) with 2; change (Z.of_nat 3) with 3.
  destruct (Z.testbit (reg_value w SX9324_GNRL_CTRL_1) 0);
    destruct (Z.testbit (reg_value w SX9324_GNRL_CTRL_1) 1);
    destruct (Z.testbit (reg_value w SX9324_GNRL_CTRL_1) 2);
    destruct (Z.testbit (reg_value w SX9324_GNRL_CTRL_1) 3);
    cbn [is_valid fresh_entry set_is_valid String.append];
    rewrite ?string_append_assoc, ?string_append_nil_r; reflexivity.
Qed.

Lemma phdata_show_lists_enabled_witness :
  let zero := PhaseData false 0 0 0 (PhaseStat 0 0 0 0 0 0) in
  let d := DrvData true true [zero; zero; zero; zero] in
  let w := World (fun r => if r =? SX9324_GNRL_CTRL_1 then 0x02
                           else if r =? SX9324_USE_MSB then 0xff
                           else if r =? SX9324_STAT_1 then 0x02
                           else 0) [] [] [] in
  snd (fst (fst (sx9324_phdata_show d w))) =
    String.append phdata_header
      (String.append "1 -256 0 0 0 0 0 1 0 0" newline).
Proof.
  cbv zeta.
  set (d := DrvData true true _). set (w := World _ [] [] []).
  pose proof (phdata_show_lists_enabled d w eq_refl) as H. cbv zeta in H.
  destruct (sx9324_phdata_show d w) as [[[written buf] d'] w'].
  destruct H as (_ & _ & _ & _ & H). cbn [fst snd].
  rewrite H by reflexivity. reflexivity.
Defined.

(** ** Regulator references *)

Lemma enable_rail_balanced r on d w :
  balanced d w ->
  balanced (snd (fst (enable_rail r on d w))) (snd (enable_rail r on d w)).
Proof.
  intros Hb r0. rewrite enable_rail_run.
  destruct (Bool.eqb (rail_enabled r d) on) eqn:Eq; [apply Hb|].
  apply eqb_false_iff in Eq. cbv zeta. cbn [fst snd trace].
  specialize (Hb r0).
  destruct (hd 0 (faults w) =? 0) eqn:E0.
  - destruct r, r0, on; cbn [rail_holds rail_eqb andb rail_enabled
      set_rail_enabled pullup_enabled vdd_enabled] in *;
      rewrite ?E0; rewrite Hb;
      try reflexivity;
      destruct (pullup_enabled d), (vdd_enabled d); cbn in *;
      try reflexivity; try congruence.
  - destruct r, r0, on; cbn [rail_holds rail_eqb andb] in *;
      rewrite ?E0; cbn [andb]; rewrite Hb; reflexivity.
Qed.

(** X15.  The shadow flags count the regulator references: if for each
    rail the successful enables less the successful disables in the
    trace equal the shadow flag of the rail (1 when set), then this
    still holds after any sequence of calls of [sx9324_enable_pullup]
    and [sx9324_enable_vdd], whatever the outcome of each regulator
    call.  So the driver never holds a rail twice and never releases a
    rail it does not hold. *)
Theorem enable_rails_balanced (calls : list (rail * bool))
    (d : sx9324_data) (w : world) :
  balanced d w ->
  let '(d', w') := enable_rails calls d w in
  balanced d' w'
  /\ forall r, 0 <= rail_holds r (trace w') <= 1.
Proof.
  revert d w. induction calls as [|[r on] calls IH]; intros d w Hb.
  - cbn. split; [exact Hb|]. intros r. rewrite (Hb r).
    destruct (rail_enabled r d); cbn; lia.
  - cbn [enable_rails].
    pose proof (enable_rail_balanced r on d w Hb) as H1.
    destruct (enable_rail r on d w) as [[e1 d1] w1]. cbn [fst snd] in H1.
    apply IH, H1.
Qed.

Lemma enable_rails_balanced_witness :
  let d := DrvData false false [] in
  let w := World (fun _ => 0) [0; - EIO; 0] [] [] in
  let '(d', w') :=
    enable_rails [(Pullup, true); (Vdd, true); (Vdd, false); (Pullup, false)]
      d w in
  balanced d' w' /\ forall r, 0 <= rail_holds r (trace w') <= 1.
Proof.
  apply (enable_rails_balanced
           [(Pullup, true); (Vdd, true); (Vdd, false); (Pullup, false)]).
  intros r. destruct r; reflexivity.
Defined.

(** ** Attribute files *)

(** X16.  [sx9324_create_sysfs_attr] is all or nothing.  When the four
    creations succeed it returns success and the four files exist.  When
    the first [k] creations succeed and the next one fails, it returns
    the error of that creation and removes the [k] files it created, the
    last created first: none of them exists afterwards, and the files of
    the later attributes are as they were. *)
Theorem create_sysfs_attr_all_or_nothing (error : Z) (s : sysfs) (k : nat) :
  (forall n, (n < k)%nat -> nth n (create_faults s) 0 = 0) ->
  let '(error', s') := sx9324_create_sysfs_attr error s in
  (k = length sx9324_attrs ->
     error' = 0
     /\ (forall a, files s' a = true)
     /\ sysfs_trace s' =
        rev (map (fun a => CreateFile a 0) sx9324_attrs) ++ sysfs_trace s)
  /\ (forall ak, sx9324_attrs !! k = Some ak ->
      nth k (create_faults s) 0 <> 0 ->
      error' = nth k (create_faults s) 0
      /\ (forall a, files s' a =
                    if existsb (attribute_eqb a) (take k sx9324_attrs) then false
                    else files s a)
      /\ sysfs_trace s' =
         map RemoveFile (take k sx9324_attrs)
         ++ CreateFile ak error'
         :: rev (map (fun a => CreateFile a 0) (take k sx9324_attrs))
         ++ sysfs_trace s).
Proof.
  intros Hz. unfold sx9324_create_sysfs_attr.
  destruct s as [fs cf tr]. cbn [create_faults sysfs_trace files] in *.
  assert (k = 0 \/ k = 1 \/ k = 2 \/ k = 3 \/ k = 4 \/ 4 < k)%nat
    as Hk by lia.
  destruct cf as [|f0 [|f1 [|f2 [|f3 cf]]]];
    try destruct (Z.eqb_spec f0 0) as [-> | N0];
    try destruct (Z.eqb_spec f1 0) as [-> | N1];
    try destruct (Z.eqb_spec f2 0) as [-> | N2];
    try destruct (Z.eqb_spec f3 0) as [-> | N3];
    destruct Hk as [-> | [-> | [-> | [-> | [-> | Hk]]]]];
    try (pose proof (Hz 0%nat ltac:(lia)) as H0; cbn in H0);
    try (pose proof (Hz 1%nat ltac:(lia)) as H1; cbn in H1);
    try (pose proof (Hz 2%nat ltac:(lia)) as H2; cbn in H2);
    try (pose proof (Hz 3%nat ltac:(lia)) as H3; cbn in H3);
    try contradiction;
    cbn;
    rewrite ?(proj2 (Z.eqb_neq _ _) N0), ?(proj2 (Z.eqb_neq _ _) N1),
      ?(proj2 (Z.eqb_neq _ _) N2), ?(proj2 (Z.eqb_neq _ _) N3);
    cbn;
    (split;
     [ intros Hk4; try discriminate Hk4; try lia;
       repeat split; intros a; destruct a; reflexivity
     | intros ak Hak Hf; cbn in Hak, Hf;
       try discriminate Hak; try (contradiction Hf; reflexivity);
       try (rewrite lookup_ge_None_2 in Hak by (cbn; lia); discriminate Hak);
       injection Hak as <-;
       repeat split; intros a; destruct a; cbn; try reflexivity;
       destruct (fs _); reflexivity ]).
Qed.

Lemma create_sysfs_attr_all_or_nothing_witness :
  let s := Sysfs (fun _ => false) [0; 0; - EIO] [] in
  fst (sx9324_create_sysfs_attr 0 s) = - EIO
  /\ sysfs_trace (snd (sx9324_create_sysfs_attr 0 s)) =
     [RemoveFile ATTR_registers; RemoveFile ATTR_reset;
      CreateFile ATTR_phdata (- EIO); CreateFile ATTR_reset 0;
      CreateFile ATTR_registers 0]
  /\ forall a, files (snd (sx9324_create_sysfs_attr 0 s)) a = false.
Proof.
  cbv zeta. set (s := Sysfs (fun _ => false) [0; 0; - EIO] []).
  split; [reflexivity|]. split; [reflexivity|].
  assert (forall n, (n < 2)%nat -> nth n (create_faults s) 0 = 0) as Hz.
  { intros [|[|n]] Hn; [reflexivity | reflexivity | lia]. }
  pose proof (create_sysfs_attr_all_or_nothing 0 s 2 Hz) as H.
  destruct (sx9324_create_sysfs_attr 0 s) as [error' s'].
  destruct H as [_ H].
  destruct (H ATTR_phdata eq_refl ltac:(discriminate)) as (_ & Hf & _).
  intros a. cbn [snd]. rewrite Hf.
  destruct (existsb _ _); reflexivity.
Defined.

(** ** Removal of the device *)

Lemma new_events_app (A : Type) (l t : list A) : new_events t (l ++ t) = l.
Proof.
  unfold new_events. rewrite length_app.
  replace (length l + length t - length t)%nat with (length l) by lia.
  apply take_app_length.
Qed.

Lemma new_events_same (A : Type) (t : list A) : new_events t t = [].
Proof. exact (new_events_app A [] t). Qed.

Lemma new_events_cons (A : Type) (e : A) (t : list A) :
  new_events t (e :: t) = [e].
Proof. exact (new_events_app A [e] t). Qed.

Lemma on_world_rail r on d v :
  on_world (enable_rail r on d) v =
    let w := dev_world v in
    let r' := enable_rail r on d w in
    (fst r',
     Device (snd r') (dev_sysfs v)
       ((if Bool.eqb (rail_enabled r d) on then []
         else [OnWorld (if on then RegulatorEnable r (hd 0 (faults w))
                        else RegulatorDisable r (hd 0 (faults w)))])
        ++ dev_log v)).
Proof.
  unfold on_world. cbv zeta. rewrite enable_rail_run.
  destruct (Bool.eqb (rail_enabled r d) on); cbn [fst snd trace].
  - rewrite new_events_same. reflexivity.
  - cbv zeta. cbn [trace].
    rewrite new_events_cons. destruct on; reflexivity.
Qed.

(** X17.  [sx9324_remove] returns 0 in every case.  In this order it
    removes the four attribute files, disables the primary supply and
    then the pull-up, each only if its shadow flag is set, and destroys
    the work queue last; it makes no other call, so it never enables a
    rail, and the shadow flags keep counting the regulator references.
    No attribute file exists afterwards, and when no regulator call
    fails no rail is held afterwards. *)
Theorem remove_releases (d : sx9324_data) (v : device) :
  let '(result, d', v') := sx9324_remove d v in
  result = 0
  /\ (exists ev ep,
        dev_log v' =
          OnSysfs DestroyWorkqueue
          :: (if pullup_enabled d
              then [OnWorld (RegulatorDisable Pullup ep)] else [])
          ++ (if vdd_enabled d
              then [OnWorld (RegulatorDisable Vdd ev)] else [])
          ++ map OnSysfs (rev (map RemoveFile sx9324_attrs))
          ++ dev_log v
        /\ trace (dev_world v') =
           (if pullup_enabled d then [RegulatorDisable Pullup ep] else [])
           ++ (if vdd_enabled d then [RegulatorDisable Vdd ev] else [])
           ++ trace (dev_world v))
  /\ (forall a, files (dev_sysfs v') a = false)
  /\ sysfs_trace (dev_sysfs v') =
     DestroyWorkqueue :: rev (map RemoveFile sx9324_attrs)
       ++ sysfs_trace (dev_sysfs v)
  /\ (balanced d (dev_world v) -> balanced d' (dev_world v'))
  /\ (balanced d (dev_world v) -> Forall (eq 0) (faults (dev_world v)) ->
      forall r, rail_enabled r d' = false
                /\ rail_holds r (trace (dev_world v')) = 0).
Proof.
  destruct v as [w s l]. unfold sx9324_remove. cbv zeta.
  set (v1 := on_sysfs sx9324_remove_sysfs_attr (Device w s l)).
  assert (v1 = Device w (sx9324_remove_sysfs_attr s)
                 (map OnSysfs (rev (map RemoveFile sx9324_attrs)) ++ l))
    as ->.
  { unfold v1, on_sysfs. cbn [dev_world dev_sysfs dev_log]. f_equal.
    f_equal. f_equal.
    exact (new_events_app _ (rev (map RemoveFile sx9324_attrs))
             (sysfs_trace s)). }
  pose proof (on_world_rail Vdd false d
    (Device w (sx9324_remove_sysfs_attr s)
       (map OnSysfs (rev (map RemoveFile sx9324_attrs)) ++ l))) as Ev.
  cbn [enable_rail] in Ev. rewrite Ev. clear Ev.
  cbv zeta. cbn [dev_world dev_sysfs dev_log].
  pose proof (enable_rail_run Vdd false d w) as Hv.
  pose proof (enable_rail_balanced Vdd false d w) as Hbv.
  cbn [enable_rail] in Hv, Hbv.
  destruct (sx9324_enable_vdd false d w) as [[e1 d1] w1].
  cbn [fst snd].
  match goal with
  | |- context [on_world (sx9324_enable_pullup false d1) ?v0] =>
      pose proof (on_world_rail Pullup false d1 v0) as Ep
  end.
  cbn [enable_rail] in Ep. rewrite Ep. clear Ep.
  cbv zeta. cbn [dev_world dev_sysfs dev_log].
  pose proof (enable_rail_run Pullup false d1 w1) as Hp.
  pose proof (enable_rail_balanced Pullup false d1 w1) as Hbp.
  cbn [enable_rail] in Hp, Hbp.
  destruct (sx9324_enable_pullup false d1 w1) as [[e2 d2] w2].
  cbn [fst snd] in *.
  unfold on_sysfs. cbn [dev_world dev_sysfs dev_log destroy_workqueue
                        sysfs_trace files].
  rewrite new_events_cons.
  split; [reflexivity|].
  assert (forall f : Z, Forall (eq 0) (faults w) ->
            f = hd 0 (faults w) \/ f = hd 0 (tl (faults w)) -> f = 0) as Hnf.
  { intros f Hz [-> | ->];
      [apply no_fault_hd | apply no_fault_hd, no_fault_tl]; exact Hz. }
  split; [|split; [intros a; destruct a; reflexivity|];
           split; [reflexivity|]; split; [auto|]].
  - exists (hd 0 (faults w)), (hd 0 (faults w1)).
    destruct d as [p vd ph].
    cbn [rail_enabled pullup_enabled vdd_enabled] in *.
    destruct vd; cbn [Bool.eqb] in Hv; injection Hv as -> -> ->;
      cbv zeta in Hp;
      [destruct (hd 0 (faults w) =? 0)|];
      cbn [rail_enabled set_rail_enabled pullup_enabled vdd_enabled] in Hp |- *;
      destruct p; cbn [Bool.eqb] in Hp |- *; injection Hp as _ _ ->;
      split; reflexivity.
  - intros Hb Hz r.
    assert (balanced d2 w2) as Hb2 by auto.
    assert (rail_enabled r d2 = false) as Hoff.
    { destruct d as [p vd ph].
      cbn [rail_enabled pullup_enabled vdd_enabled] in *.
      destruct vd; cbn [Bool.eqb] in Hv; injection Hv as -> -> ->;
        cbv zeta in Hp;
        rewrite ?(Hnf (hd 0 (faults w)) Hz (or_introl eq_refl)) in Hp;
        cbn [Z.eqb rail_enabled set_rail_enabled pullup_enabled
             vdd_enabled faults] in Hp;
        destruct p; cbn [Bool.eqb] in Hp; injection Hp as -> -> ->;
        rewrite ?(Hnf _ Hz (or_intror eq_refl)),
          ?(Hnf _ Hz (or_introl eq_refl));
        destruct r; reflexivity. }
    split; [exact Hoff|]. rewrite (Hb2 r), Hoff. reflexivity.
Qed.

Lemma remove_releases_witness :
  let d := DrvData true true [] in
  let w := World (fun _ => 0) [] []
             [RegulatorEnable Vdd 0; RegulatorEnable Pullup 0] in
  let v := Device w (Sysfs (fun _ => true) [] []) [] in
  let '(result, d', v') := sx9324_remove d v in
  result = 0
  /\ dev_log v' =
     [OnSysfs DestroyWorkqueue;
      OnWorld (RegulatorDisable Pullup 0); OnWorld (RegulatorDisable Vdd 0);
      OnSysfs (RemoveFile ATTR_mode); OnSysfs (RemoveFile ATTR_phdata);
      OnSysfs (RemoveFile ATTR_reset); OnSysfs (RemoveFile ATTR_registers)]
  /\ forall r, rail_enabled r d' = false
               /\ rail_holds r (trace (dev_world v')) = 0.
Proof.
  cbv zeta.
  pose proof (remove_releases (DrvData true true [])
    (Device (World (fun _ => 0) [] []
               [RegulatorEnable Vdd 0; RegulatorEnable Pullup 0])
            (Sysfs (fun _ => true) [] []) [])) as H.
  destruct (sx9324_remove _ _) as [[result d'] v'] eqn:E.
  destruct H as (Hr & _ & _ & _ & _ & Hoff).
  split; [exact Hr|].
  split; [vm_compute in E; injection E as _ _ <-; reflexivity|].
  apply Hoff; [intros r; destruct r; reflexivity | constructor].
Defined.

(** ** The interrupt worker *)

(** X18.  [sx9324_nirq_worker] makes one bus transfer, the read of the
    interrupt source register: it writes no register and does not read
    the interrupt line.  When the read succeeds it reports the value
    with the reset, close and far flags, which are the bits 7, 6 and 5
    of the value; when it fails it reports the error. *)
Theorem nirq_worker_reads_once (w : world) :
  let '(line, w') := sx9324_nirq_worker w in
  let val := reg_value w SX9324_IRQ_SRC in
  trace w' = BusRead SX9324_IRQ_SRC (hd 0 (faults w)) :: trace w
  /\ nirq_levels w' = nirq_levels w
  /\ line =
     if hd 0 (faults w) =? 0
     then IrqSrc val (Z.b2z (Z.testbit val 7)) (Z.b2z (Z.testbit val 6))
                 (Z.b2z (Z.testbit val 5))
     else IrqSrcFailed (hd 0 (faults w)).
Proof.
  unfold sx9324_nirq_worker, bind. rewrite regmap_read_run by reflexivity.
  destruct (hd 0 (faults w) =? 0) eqn:E0; cbn [negb].
  - cbv zeta. unfold ret. repeat split.
    assert (forall n, 0 <= n ->
      (if negb (Z.land (reg_value w SX9324_IRQ_SRC) (BIT n) =? 0)
       then 1 else 0) = Z.b2z (Z.testbit (reg_value w SX9324_IRQ_SRC) n))
      as Hbit.
    { intros n Hn. unfold BIT. rewrite Z.shiftl_1_l.
      destruct (Z.testbit (reg_value w SX9324_IRQ_SRC) n) eqn:Eb.
      - destruct (Z.eqb_spec (Z.land (reg_value w SX9324_IRQ_SRC) (2 ^ n)) 0)
          as [H0 | H0]; [|reflexivity].
        assert (Z.testbit (Z.land (reg_value w SX9324_IRQ_SRC) (2 ^ n)) n
                = false) as H by (rewrite H0; apply Z.bits_0).
        rewrite Z.land_spec, Eb, Z.pow2_bits_true in H by lia.
        discriminate H.
      - assert (Z.land (reg_value w SX9324_IRQ_SRC) (2 ^ n) = 0) as H0.
        { apply Z.bits_inj'. intros m Hm.
          rewrite Z.land_spec, Z.bits_0, Z.pow2_bits_eqb by lia.
          destruct (Z.eqb_spec n m) as [-> | Hne];
            [rewrite Eb; reflexivity | apply andb_false_r]. }
        rewrite H0. reflexivity. }
    unfold SX9324_RESETIRQ, SX9324_CLOSEANYIRQ, SX9324_FARANYIRQ.
    rewrite !Hbit by lia. reflexivity.
  - unfold ret. repeat split.
Qed.

(** ** The arguments of the registers attribute *)

Lemma string_get_lookup (buf : String.string) (n : nat) :
  String.get n buf = String.list_ascii_of_string buf !! n.
Proof.
  revert n; induction buf as [|c buf IH]; intros [|n]; cbn; auto.
Qed.

Lemma char_at_split (buf : String.string) (pre rest : list Ascii.ascii) :
  String.list_ascii_of_string buf = pre ++ rest ->
  Store.char_at buf (Z.of_nat (length pre)) = hd Ascii.zero rest.
Proof.
  intros HL. unfold Store.char_at.
  rewrite Nat2Z.id, string_get_lookup, HL, lookup_app_r by lia.
  rewrite Nat.sub_diag. destruct rest; reflexivity.
Qed.

Lemma length_list_ascii (buf : String.string) :
  length (String.list_ascii_of_string buf) = String.length buf.
Proof. induction buf; cbn; congruence. Qed.

Lemma split_next (A : Type) (pre : list A) (c : A) (rest : list A) :
  pre ++ c :: rest = (pre ++ [c]) ++ rest
  /\ Z.of_nat (length (pre ++ [c])) = Z.of_nat (length pre) + 1.
Proof.
  split; [now rewrite <- app_assoc|]. rewrite length_app; cbn; lia.
Qed.

Lemma skip_leading_spec (buf : String.string) (rest pre : list Ascii.ascii)
    (fuel : nat) :
  String.list_ascii_of_string buf = pre ++ rest ->
  (length rest < fuel)%nat ->
  exists sp rest',
    rest = sp ++ rest'
    /\ Forall (fun c => c = " "%char) sp
    /\ hd Ascii.zero rest' <> " "%char
    /\ Store.skip_leading fuel buf (Z.of_nat (length pre))
       = Some (Z.of_nat (length (pre ++ sp))).
Proof.
  revert pre fuel; induction rest as [|c rest IH]; intros pre fuel HL Hf.
  - exists [], []. destruct fuel; [cbn in Hf; lia|].
    cbn [Store.skip_leading]. rewrite (char_at_split _ _ _ HL). cbn.
    rewrite app_nil_r. repeat split; auto; discriminate.
  - destruct fuel; [cbn in Hf; lia|]. cbn [Store.skip_leading].
    rewrite (char_at_split _ _ _ HL). cbn [hd].
    destruct (Ascii.eqb_spec c " "%char) as [->|Hc].
    + destruct (split_next _ pre " "%char rest) as [E1 E2].
      rewrite E1 in HL.
      destruct (IH _ fuel HL) as (sp & rest' & -> & Hsp & Hhd & Hrun);
        [cbn in Hf; lia|].
      exists (" "%char :: sp), rest'. repeat split; auto.
      rewrite <- E2, Hrun. now rewrite <- app_assoc.
    + exists [], (c :: rest). rewrite app_nil_r. repeat split; auto.
Qed.

Lemma skip_run_spec (buf : String.string) (rest pre : list Ascii.ascii)
    (c : Ascii.ascii) (fuel : nat) :
  String.list_ascii_of_string buf = pre ++ c :: rest ->
  (length rest < fuel)%nat ->
  exists sp rest',
    rest = sp ++ rest'
    /\ Forall (fun c => c = " "%char) sp
    /\ hd Ascii.zero rest' <> " "%char
    /\ Store.skip_run fuel buf (Z.of_nat (length pre))
       = Some (Z.of_nat (length pre) + Z.of_nat (length sp)).
Proof.
  revert pre c fuel; induction rest as [|x rest IH]; intros pre c fuel HL Hf.
  - exists [], []. destruct fuel; [cbn in Hf; lia|].
    cbn [Store.skip_run].
    destruct (split_next _ pre c []) as [E1 E2]. rewrite E1 in HL.
    rewrite <- E2, (char_at_split _ _ _ HL). cbn.
    repeat split; auto; try discriminate; f_equal; lia.
  - destruct fuel; [cbn in Hf; lia|]. cbn [Store.skip_run].
    destruct (split_next _ pre c (x :: rest)) as [E1 E2]. rewrite E1 in HL.
    rewrite <- E2, (char_at_split _ _ _ HL). cbn [hd].
    destruct (Ascii.eqb_spec x " "%char) as [->|Hx].
    + destruct (IH _ _ fuel HL) as (sp & rest' & -> & Hsp & Hhd & Hrun);
        [cbn in Hf; lia|].
      exists (" "%char :: sp), rest'. repeat split; auto.
      rewrite Hrun. f_equal. cbn [length]. lia.
    + exists [], (x :: rest). repeat split; auto. f_equal; cbn; lia.
Qed.

Lemma c_string_spaces (sp rest : list Ascii.ascii) :
  Forall (fun c => c = " "%char) sp ->
  Store.c_string (sp ++ rest) = sp ++ Store.c_string rest.
Proof.
  induction 1 as [|c sp -> _ IH]; cbn; [reflexivity|]. now rewrite IH.
Qed.

Lemma word_spans_spaces (sp cs : list Ascii.ascii) (i : Z) :
  Forall (fun c => c = " "%char) sp ->
  Store.word_spans (sp ++ cs) i None
  = Store.word_spans cs (i + Z.of_nat (length sp)) None.
Proof.
  intros Hsp; revert i; induction Hsp as [|c sp -> _ IH]; intros i.
  - cbn. f_equal; lia.
  - cbn [app Store.word_spans length]. cbn. rewrite IH. f_equal; lia.
Qed.
Lemma take_alter_later (A : Type) (f : A -> A) (l : list A) (n k : nat) :
  (n <= k)%nat -> take n (alter f k l) = take n l.
Proof.
  intros H. rewrite take_alter. destruct (decide (k < n)%nat); [lia|reflexivity].
Qed.

Lemma set_e_spec (arg_c v : Z) (arg_v : list Store.arg_str) (a : Store.arg_str) :
  0 <= arg_c < 8 ->
  arg_v !! Z.to_nat arg_c = Some a ->
  exists arg_v',
    Store.set_e arg_c v arg_v = Some arg_v'
    /\ length arg_v' = length arg_v
    /\ (forall k, k <> Z.to_nat arg_c -> arg_v' !! k = arg_v !! k)
    /\ Store.spans_of (take (Z.to_nat (arg_c + 1)) arg_v')
       = Store.spans_of (take (Z.to_nat arg_c) arg_v) ++ [(Store.s a, v)].
Proof.
  intros Hc Ha. eexists. unfold Store.set_e, Store.in_bounds.
  unfold Store.MAX_DUMPING_REGISTERS.
  replace (0 <=? arg_c) with true by lia. replace (arg_c <? 8) with true by lia.
  cbn [andb]. split; [reflexivity|]. split; [apply length_alter|].
  split; [intros k Hk; now apply list_lookup_alter_ne|].
  replace (Z.to_nat (arg_c + 1)) with (S (Z.to_nat arg_c)) by lia.
  erewrite take_S_r by (rewrite list_lookup_alter_eq, Ha; reflexivity).
  unfold Store.spans_of. rewrite map_app, take_alter_later by lia. reflexivity.
Qed.

Lemma set_s_spec (k v : Z) (arg_v : list Store.arg_str) :
  0 <= k < 8 ->
  length arg_v = 8%nat ->
  exists arg_v' a,
    Store.set_s k v arg_v = Some arg_v'
    /\ length arg_v' = length arg_v
    /\ (forall j, j <> Z.to_nat k -> arg_v' !! j = arg_v !! j)
    /\ arg_v' !! Z.to_nat k = Some a
    /\ Store.s a = v
    /\ take (Z.to_nat k) arg_v' = take (Z.to_nat k) arg_v.
Proof.
  intros Hk Hlen.
  destruct (lookup_lt_is_Some_2 arg_v (Z.to_nat k)) as [a Ha]; [lia|].
  eexists _, _. unfold Store.set_s, Store.in_bounds.
  unfold Store.MAX_DUMPING_REGISTERS.
  replace (0 <=? k) with true by lia. replace (k <? 8) with true by lia.
  cbn [andb]. split; [reflexivity|]. split; [apply length_alter|].
  split; [intros j Hj; now apply list_lookup_alter_ne|].
  split; [rewrite list_lookup_alter_eq, Ha; reflexivity|].
  split; [reflexivity|]. now rewrite take_alter_later by lia.
Qed.
Lemma split_stop_spec (i arg_c : Z) (arg_v : list Store.arg_str)
    (new_arg : bool) (cur : option Z) (next : Ascii.ascii) :
  Store.loop_state next arg_c arg_v new_arg cur ->
  exists arg_c' arg_v',
    Store.close_last (i, arg_c, arg_v, new_arg) = Store.Done (arg_c', arg_v')
    /\ Store.splits_to arg_c arg_v new_arg (Store.word_spans [] i cur)
         arg_c' arg_v'.
Proof.
  intros (Hlen & Hc & Hinv). unfold Store.close_last, Store.splits_to.
  unfold Store.complete_args.
  destruct new_arg.
  - destruct Hinv as (a & Ha & H0 & ->).
    destruct (set_e_spec arg_c (i - 1) arg_v a) as (arg_v' & -> & Hl & Hk & Hs);
      [lia|assumption|].
    exists arg_c, arg_v'. split; [reflexivity|].
    split; [lia|]. split; [congruence|].
    split; [intros k Hle; apply Hk; lia|].
    rewrite Hs. cbn [Store.word_spans]. f_equal.
    replace (8 - Z.to_nat arg_c)%nat with (S (7 - Z.to_nat arg_c)) by lia.
    cbn [take]. now rewrite take_nil.
  - destruct Hinv as (_ & ->). exists arg_c, arg_v.
    split; [reflexivity|]. split; [lia|]. split; [assumption|].
    split; [reflexivity|]. cbn. now rewrite take_nil, app_nil_r.
Qed.

Lemma split_loop_spec (buf : String.string) (n : nat) :
  forall (rest pre : list Ascii.ascii) (fuel : nat) (arg_c : Z)
         (arg_v : list Store.arg_str) (new_arg : bool) (cur : option Z),
  (length rest <= n)%nat ->
  String.list_ascii_of_string buf = pre ++ rest ->
  (length rest < fuel)%nat ->
  Store.loop_state (hd Ascii.zero rest) arg_c arg_v new_arg cur ->
  exists st arg_c' arg_v',
    Store.split_loop fuel buf (Z.of_nat (length pre)) arg_c arg_v new_arg
    = Store.Done st
    /\ Store.close_last st = Store.Done (arg_c', arg_v')
    /\ Store.splits_to arg_c arg_v new_arg
         (Store.word_spans (Store.c_string rest) (Z.of_nat (length pre)) cur)
         arg_c' arg_v'.
Proof.
  induction n as [|n IH];
    intros rest pre fuel arg_c arg_v new_arg cur Hn HL Hf Hst;
    (destruct fuel as [|fuel]; [lia|]); cbn [Store.split_loop];
    rewrite (char_at_split _ _ _ HL).
  - destruct rest; [|cbn in Hn; lia]. cbn [hd]. rewrite Ascii.eqb_refl.
    destruct (split_stop_spec (Z.of_nat (length pre)) _ _ _ _ _ Hst)
      as (c' & v' & Hcl & Hsp).
    eexists _, c', v'. split; [reflexivity|]. split; assumption.
  - destruct rest as [|c rest].
    { cbn [hd]. rewrite Ascii.eqb_refl.
      destruct (split_stop_spec (Z.of_nat (length pre)) _ _ _ _ _ Hst)
        as (c' & v' & Hcl & Hsp).
      eexists _, c', v'. split; [reflexivity|]. split; assumption. }
    cbn [hd length] in *. cbn [Store.c_string].
    destruct (Ascii.eqb_spec c Ascii.zero) as [->|Hnul].
    { destruct (split_stop_spec (Z.of_nat (length pre)) _ _ _ _ _ Hst)
        as (c' & v' & Hcl & Hsp).
      eexists _, c', v'. split; [reflexivity|]. split; assumption. }
    destruct Hst as (Hlen & Hc & Hinv).
    destruct (Ascii.eqb_spec c " "%char) as [->|Hsp].
    + (* a space ends the argument being read *)
      destruct new_arg; [|now destruct Hinv].
      destruct Hinv as (a & Ha & H0 & ->).
      destruct (set_e_spec arg_c (Z.of_nat (length pre) - 1) arg_v a)
        as (arg_v1 & -> & Hl1 & Hk1 & Hs1); [lia|assumption|].
      destruct (skip_run_spec buf rest pre " "%char fuel HL)
        as (sp & rest' & -> & Hspaces & Hhd & ->); [lia|].
      assert (HL' : String.list_ascii_of_string buf
                    = (pre ++ " "%char :: sp) ++ rest')
        by now rewrite HL, <- app_assoc.
      assert (Ei : Z.of_nat (length pre) + Z.of_nat (length sp) + 1
                   = Z.of_nat (length (pre ++ " "%char :: sp)))
        by (rewrite length_app; cbn [length]; lia).
      rewrite Ei.
      destruct (IH rest' (pre ++ " "%char :: sp) fuel arg_c arg_v1 false None)
        as (st & c' & v' & Hrun & Hcl & Hc' & Hl' & Hk' & Hs');
        [rewrite length_app in Hn; lia|assumption
        |rewrite length_app in Hf; lia
        |split; [congruence|split; [lia|split; [assumption|reflexivity]]]|].
      exists st, c', v'. split; [assumption|]. split; [assumption|].
      unfold Store.splits_to, Store.complete_args in *.
      split; [lia|]. split; [assumption|].
      split; [intros k Hle; rewrite Hk' by assumption; apply Hk1; lia|].
      rewrite Hs', Hs1, <- app_assoc. f_equal.
      rewrite c_string_spaces by assumption.
      cbn [Store.word_spans]. rewrite Ascii.eqb_refl.
      rewrite word_spans_spaces by assumption.
      replace (8 - Z.to_nat arg_c)%nat with (S (8 - Z.to_nat (arg_c + 1)))
        by lia.
      cbn [take app]. rewrite <- Ei. do 3 f_equal. lia.
    + destruct new_arg; cbn [negb].
      * (* a character of the argument being read *)
        destruct (split_next _ pre c rest) as [E1 E2]. rewrite E1 in HL.
        rewrite <- E2.
        destruct Hinv as (a & Ha & H0 & ->).
        destruct (IH rest (pre ++ [c]) fuel arg_c arg_v true (Some (Store.s a)))
          as (st & c' & v' & Hrun & Hcl & Hres);
          [lia|assumption|lia
          |split; [assumption|split; [lia|exists a; auto]]|].
        exists st, c', v'. split; [assumption|]. split; [assumption|].
        cbn [Store.word_spans]. rewrite (proj2 (Ascii.eqb_neq _ _) Hsp).
        rewrite E2 in Hres. exact Hres.
      * (* the first character of an argument *)
        destruct Hinv as (_ & ->).
        unfold Store.MAX_DUMPING_REGISTERS.
        destruct (Z.geb_spec (arg_c + 1) 8) as [Hfull|Hroom].
        { exists (Z.of_nat (length pre), arg_c, arg_v, false), arg_c, arg_v.
          split; [reflexivity|]. split; [reflexivity|].
          unfold Store.splits_to, Store.complete_args.
          split; [lia|]. split; [assumption|]. split; [reflexivity|].
          replace (8 - Z.to_nat (arg_c + 1))%nat with 0%nat by lia.
          cbn [take]. now rewrite app_nil_r. }
        destruct (set_s_spec (arg_c + 1) (Z.of_nat (length pre)) arg_v)
          as (arg_v1 & a & -> & Hl1 & Hk1 & Ha & Hsa & Ht1); [lia|assumption|].
        destruct (split_next _ pre c rest) as [E1 E2]. rewrite E1 in HL.
        rewrite <- E2.
        destruct (IH rest (pre ++ [c]) fuel (arg_c + 1) arg_v1 true
                    (Some (Z.of_nat (length pre))))
          as (st & c' & v' & Hrun & Hcl & Hc' & Hl' & Hk' & Hs');
          [lia|assumption|lia
          |split; [congruence|split; [lia|exists a; rewrite Hsa; auto with lia]]|].
        exists st, c', v'. split; [assumption|]. split; [assumption|].
        unfold Store.splits_to, Store.complete_args in *.
        split; [lia|]. split; [assumption|].
        split; [intros k Hle; rewrite Hk' by assumption; apply Hk1; lia|].
        rewrite Hs', Ht1. cbn [Store.word_spans].
        rewrite (proj2 (Ascii.eqb_neq _ _) Hsp), E2. reflexivity.
Qed.

Lemma split_text_words (buf : String.string) (arg_v : list Store.arg_str) :
  length arg_v = 8%nat ->
  exists arg_c arg_v',
    Store.split_text buf arg_v = Store.Done (arg_c, arg_v')
    /\ -1 <= arg_c < Store.MAX_DUMPING_REGISTERS
    /\ length arg_v' = 8%nat
    /\ Store.spans_of (take (Z.to_nat (arg_c + 1)) arg_v')
       = take 8 (Store.word_spans
                   (Store.c_string (String.list_ascii_of_string buf)) 0 None)
    /\ forall k, (Z.to_nat (arg_c + 1) <= k)%nat -> arg_v' !! k = arg_v !! k.
Proof.
  intros Hlen. unfold Store.split_text.
  destruct (skip_leading_spec buf (String.list_ascii_of_string buf) []
              (S (String.length buf)) eq_refl)
    as (sp & rest & HL & Hsp & Hhd & Hskip);
    [rewrite length_list_ascii; lia|].
  cbn [length app] in Hskip. change (Z.of_nat 0) with 0 in Hskip.
  rewrite Hskip.
  destruct (split_loop_spec buf (length rest) rest sp (S (String.length buf))
              (-1) arg_v false None)
    as (st & arg_c & arg_v' & -> & Hcl & Hc & Hl & Hk & Hs);
    [lia|assumption
    |rewrite <- length_list_ascii, HL, length_app; lia
    |split; [assumption|split; [lia|split; [assumption|reflexivity]]]|].
  exists arg_c, arg_v'. split; [assumption|].
  unfold Store.MAX_DUMPING_REGISTERS. split; [lia|]. split; [assumption|].
  split; [|assumption].
  rewrite Hs, HL, c_string_spaces, word_spans_spaces by assumption.
  reflexivity.
Qed.

(** X10.  The splitting of arguments in [sx9324_registers_store] is safe
    for every buffer and count.  Whatever the local array [arg_v] holds
    at first, the splitting ends, never writes outside the array, and
    leaves [arg_c] between -1 and 7.  With a null buffer or a zero count
    nothing is split: [arg_c] is -1 and the array is as it was.
    Otherwise the slots up to [arg_c] hold, in order, the first and last
    index of the first eight words of the text (the maximal runs without
    a space before the terminator), and the slots above [arg_c] are not
    written. *)
Theorem registers_store_splits_words (buf : option String.string)
    (count : Z) (arg_v : list Store.arg_str) :
  length arg_v = 8%nat ->
  exists arg_c arg_v',
    Store.split_args buf count arg_v = Store.Done (arg_c, arg_v')
    /\ -1 <= arg_c < Store.MAX_DUMPING_REGISTERS
    /\ length arg_v' = 8%nat
    /\ Store.spans_of (take (Z.to_nat (arg_c + 1)) arg_v')
       = take 8 (Store.words_of buf count)
    /\ (forall k, (Z.to_nat (arg_c + 1) <= k)%nat ->
          arg_v' !! k = arg_v !! k)
    /\ (buf = None \/ count = 0 -> arg_c = -1 /\ arg_v' = arg_v).
Proof.
  intros Hlen.
  assert (exists arg_c arg_v',
    Store.Done (-1, arg_v) = Store.Done (arg_c, arg_v')
    /\ -1 <= arg_c < Store.MAX_DUMPING_REGISTERS
    /\ length arg_v' = 8%nat
    /\ Store.spans_of (take (Z.to_nat (arg_c + 1)) arg_v') = take 8 []
    /\ (forall k, (Z.to_nat (arg_c + 1) <= k)%nat ->
          arg_v' !! k = arg_v !! k)
    /\ (buf = None \/ count = 0 -> arg_c = -1 /\ arg_v' = arg_v)) as Hskip.
  { exists (-1), arg_v. unfold Store.MAX_DUMPING_REGISTERS.
    repeat split; auto; lia. }
  unfold Store.split_args, Store.words_of.
  destruct buf as [text|]; [|exact Hskip].
  destruct (Z.eqb_spec count 0) as [Hc | Hc]; cbn [negb]; [exact Hskip|].
  destruct (split_text_words text arg_v Hlen)
    as (arg_c & arg_v' & Hrun & Hb & Hl & Hs & Hk).
  exists arg_c, arg_v'. repeat split; try assumption; try lia.
  - destruct H as [H | H]; [discriminate H | contradiction].
  - destruct H as [H | H]; [discriminate H | contradiction].
Qed.

Lemma registers_store_splits_words_witness :
  let arg_v := replicate 8 (Store.ArgStr 77 88) in
  exists arg_c arg_v',
    Store.split_args (Some " 10=a5  11 "%string) 11 arg_v
    = Store.Done (arg_c, arg_v')
    /\ -1 <= arg_c < Store.MAX_DUMPING_REGISTERS
    /\ length arg_v' = 8%nat
    /\ Store.spans_of (take (Z.to_nat (arg_c + 1)) arg_v') = [(1, 5); (8, 9)]
    /\ (forall k, (Z.to_nat (arg_c + 1) <= k)%nat ->
          arg_v' !! k = arg_v !! k)
    /\ (Some " 10=a5  11 "%string = None \/ 11 = 0 ->
        arg_c = -1 /\ arg_v' = arg_v).
Proof.
  exact (registers_store_splits_words (Some " 10=a5  11 "%string) 11
           (replicate 8 (Store.ArgStr 77 88)) eq_refl).
Defined.
